(** * ChatDatabase: README collector, summary generator, vector index builder

    A shallow embedding of the three batch stages of the repository
    ([database/test_getall_repo.py], [database/text_summary_readme.py],
    [database/create_db.py]) and the properties the specification states
    about them.

    Conventions of the embedding.
    - A Python [str] is a list of Unicode code points ([pystr]); literals are
      written as UTF-8 text and decoded by [py].
    - Values that come out of [response.json()] are [json] values; a Python
      [dict] is an association list in insertion order.
    - A Python call either returns or raises an exception of class
      [Exception] ([outcome]); only exceptions that derive from [Exception]
      are modelled, since they are the ones the handlers of the program name.
    - The outside world (HTTP API, file system, language model, vector store)
      is a set of oracle functions, one per library call; the calls the
      program issues are recorded, in order, as a trace of events.
    - Calls to the logger only write log lines and are left out.
    - [print] writes a line to the standard output and may raise; the
      callers that print (the test script, [main] of the collector and of
      the index builder) record the lines in their trace. *)

From Stdlib Require Import String Ascii ZArith NArith Bool Arith Lia List DecimalString.
Import ListNotations.

Set Warnings "-register-all".

(** ** Python strings *)

Definition pystr : Type := list N.

Fixpoint bytes_of_string (s : string) : list N :=
  match s with
  | EmptyString => []
  | String a r => N_of_ascii a :: bytes_of_string r
  end.

(** UTF-8 decoding of the bytes of a source literal (well-formed input). *)
Fixpoint utf8_decode (bs : list N) : pystr :=
  match bs with
  | [] => []
  | b0 :: r0 =>
    if (b0 <? 128)%N then b0 :: utf8_decode r0 else
    match r0 with
    | [] => []
    | b1 :: r1 =>
      if (b0 <? 224)%N then ((b0 - 192) * 64 + (b1 - 128))%N :: utf8_decode r1 else
      match r1 with
      | [] => []
      | b2 :: r2 =>
        if (b0 <? 240)%N
        then ((b0 - 224) * 4096 + (b1 - 128) * 64 + (b2 - 128))%N :: utf8_decode r2
        else
        match r2 with
        | [] => []
        | b3 :: r3 =>
          ((b0 - 240) * 262144 + (b1 - 128) * 4096 + (b2 - 128) * 64 + (b3 - 128))%N
            :: utf8_decode r3
        end
      end
    end
  end.

Definition py (s : string) : pystr := utf8_decode (bytes_of_string s).

Fixpoint pystr_eqb (a b : pystr) : bool :=
  match a, b with
  | [], [] => true
  | x :: a', y :: b' => (x =? y)%N && pystr_eqb a' b'
  | _, _ => false
  end.

Lemma pystr_eqb_eq : forall a b, pystr_eqb a b = true <-> a = b.
Proof.
  induction a as [|x a IH]; destruct b as [|y b]; simpl; split; intro H;
    try reflexivity; try discriminate.
  - apply andb_true_iff in H. destruct H as [Hx Hr].
    apply N.eqb_eq in Hx. apply IH in Hr. congruence.
  - inversion H; subst. rewrite N.eqb_refl. simpl. apply IH. reflexivity.
Qed.

Lemma pystr_eqb_refl : forall a, pystr_eqb a a = true.
Proof. intro a. apply pystr_eqb_eq. reflexivity. Qed.

Lemma pystr_eqb_neq : forall a b, pystr_eqb a b = false <-> a <> b.
Proof.
  intros a b. split.
  - intros H E. apply pystr_eqb_eq in E. congruence.
  - intro H. destruct (pystr_eqb a b) eqn:E; [|reflexivity].
    apply pystr_eqb_eq in E. contradiction.
Qed.

(** [a.startswith(b)] and [a.endswith(b)] for a one-character [b]. *)
Definition starts_with_char (c : N) (s : pystr) : bool :=
  match s with
  | x :: _ => (x =? c)%N
  | [] => false
  end.

Definition ends_with_char (c : N) (s : pystr) : bool :=
  starts_with_char c (rev s).

(** ** JSON values and dictionaries *)

Inductive json : Type :=
| JNull
| JBool (b : bool)
| JInt (n : Z)
| JFloat (mantissa exponent : Z)
| JStr (s : pystr)
| JArr (items : list json)
| JObj (fields : list (pystr * json)).

Definition dict : Type := list (pystr * json).

Fixpoint dict_get {A : Type} (d : list (pystr * A)) (k : pystr) : option A :=
  match d with
  | [] => None
  | (k', v) :: d' => if pystr_eqb k' k then Some v else dict_get d' k
  end.

(** [d[k] = v]: an existing key keeps its place, a new key goes last. *)
Fixpoint dict_set {A : Type} (d : list (pystr * A)) (k : pystr) (v : A)
  : list (pystr * A) :=
  match d with
  | [] => [(k, v)]
  | (k', v') :: d' =>
    if pystr_eqb k' k then (k', v) :: d' else (k', v') :: dict_set d' k v
  end.

Definition dict_keys {A : Type} (d : list (pystr * A)) : list pystr := map fst d.

(** Python truth value of a JSON value ([not v] is its negation). *)
Definition truthy (v : json) : bool :=
  match v with
  | JNull => false
  | JBool b => b
  | JInt n => negb (n =? 0)%Z
  | JFloat m _ => negb (m =? 0)%Z
  | JStr s => match s with [] => false | _ => true end
  | JArr l => match l with [] => false | _ => true end
  | JObj l => match l with [] => false | _ => true end
  end.

(** ** Exceptions and effects *)

Inductive exn_class : Type :=
| ValueError
| KeyError
| TypeError
| AttributeError
| IndexError
| OSError
| RequestException   (* requests.exceptions.RequestException and its subclasses *)
| OtherException.

Record exn : Type := mkExn { exn_cls : exn_class; exn_str : pystr }.

(** What a library call does: return a value or raise. *)
Inductive outcome (A : Type) : Type :=
| Returned (a : A)
| Raised (e : exn).

Arguments Returned {A} a.
Arguments Raised {A} e.

(** What a function of the program does: return, raise, or (for the
    [while True] loop, which is run with fuel) not finish in the fuel given. *)
Inductive res (A : Type) : Type :=
| Ok (a : A)
| Raise (e : exn)
| NoFuel.

Arguments Ok {A} a.
Arguments Raise {A} e.
Arguments NoFuel {A}.

Section Effects.
Context {E : Type}.

Definition M (A : Type) : Type := (res A * list E)%type.

Definition ret {A : Type} (a : A) : M A := (Ok a, []).

Definition raise {A : Type} (e : exn) : M A := (Raise e, []).

Definition bind {A B : Type} (m : M A) (f : A -> M B) : M B :=
  match m with
  | (Ok a, t) => let '(r, t') := f a in (r, t ++ t')
  | (Raise e, t) => (Raise e, t)
  | (NoFuel, t) => (NoFuel, t)
  end.

(** A library call: the event is recorded, then the call returns or raises. *)
Definition call {A : Type} (ev : E) (o : outcome A) : M A :=
  match o with
  | Returned a => (Ok a, [ev])
  | Raised e => (Raise e, [ev])
  end.

(** [try: m  except <classes matched by catches> as e: h e] *)
Definition try_except {A : Type} (m : M A) (catches : exn -> bool)
  (h : exn -> M A) : M A :=
  match m with
  | (Raise e, t) =>
    if catches e then let '(r, t') := h e in (r, t ++ t') else (Raise e, t)
  | other => other
  end.

End Effects.

Arguments M E A : clear implicits.

Notation "x <- c1 ;; c2" := (bind c1 (fun x => c2))
  (at level 61, c1 at next level, right associativity).
Notation "c1 ;;; c2" := (bind c1 (fun _ => c2))
  (at level 61, right associativity).

(** [except Exception] *)
Definition any_exception (e : exn) : bool := true.

(** [except requests.exceptions.RequestException] *)
Definition is_request_exception (e : exn) : bool :=
  match exn_cls e with
  | RequestException => true
  | _ => false
  end.

(** [os.path.join(a, b)] on POSIX paths. *)
Definition os_path_join (a b : pystr) : pystr :=
  if starts_with_char 47 b then b
  else match a with
       | [] => b
       | _ => if ends_with_char 47 a then a ++ b else a ++ 47%N :: b
       end.

Arguments py : simpl never.
Arguments os_path_join : simpl never.

(** * Stage 1: the repository README collector *)

Module Collector.

Record response : Type := mkResponse {
  status_code : Z;
  reason : pystr;
  json_body : outcome json   (* what [response.json()] does *)
}.

Inductive event : Type :=
| EvGet (url : pystr) (headers params : dict)
| EvSleep (milliseconds : Z)
| EvMakedirs (path : pystr)
| EvWriteText (path content : pystr)
| EvJsonDump (path : pystr) (data : json).

Record collector : Type := mkCollector {
  token : pystr;
  headers : dict;
  base_url : pystr;
  org_name : pystr;
  readme_dir : pystr
}.

(** Control leaving one turn of a loop body. *)
Inductive loop_step (A : Type) : Type :=
| Break
| Next (a : A).

Arguments Break {A}.
Arguments Next {A} a.

Section World.

(** [requests.get(url, headers=..., params=...)] *)
Variable requests_get : pystr -> dict -> dict -> outcome response.
(** [os.getenv] after [load_dotenv()] *)
Variable os_getenv : pystr -> option pystr.
(** [os.makedirs(path, exist_ok=True)]; [None] when it succeeds *)
Variable os_makedirs : pystr -> option exn.
(** [open(path, 'w').write(content)] *)
Variable write_text : pystr -> pystr -> option exn.
(** [json.dump(data, open(path, 'w'))] *)
Variable json_dump : pystr -> json -> option exn.
(** [time.strftime('%Y-%m-%d %H:%M:%S')] *)
Variable strftime_now : pystr.
(** [str(v)] for a value that is not a string *)
Variable py_repr : json -> pystr.

Definition unit_outcome (o : option exn) : outcome unit :=
  match o with
  | None => Returned tt
  | Some e => Raised e
  end.

Definition time_sleep (ms : Z) : M event unit := call (EvSleep ms) (Returned tt).

(** The value of [f"{v}"]. *)
Definition format_value (v : json) : pystr :=
  match v with
  | JStr s => s
  | _ => py_repr v
  end.

Definition init (token_arg : option pystr) : M event collector :=
  let tok := match token_arg with
             | Some (c :: t) => Some (c :: t)
             | _ => os_getenv (py "TOKEN")
             end in
  match tok with
  | Some (c :: t) =>
    let self := {| token := c :: t;
                   headers := [(py "Authorization", JStr (py "token " ++ c :: t));
                               (py "Accept", JStr (py "application/vnd.github.v3+json"))];
                   base_url := py "https://api.github.com";
                   org_name := py "datawhalechina";
                   readme_dir := py "database/readme_db" |} in
    call (EvMakedirs (readme_dir self)) (unit_outcome (os_makedirs (readme_dir self))) ;;;
    ret self
  | _ =>
    raise (mkExn ValueError
             (py "GitHub token is required. Please set TOKEN environment variable."))
  end.

(** *** get_organization_repos *)

Definition org_repos_url (self : collector) : pystr :=
  base_url self ++ py "/orgs/" ++ org_name self ++ py "/repos".

Definition org_repos_params (page : Z) : dict :=
  [(py "page", JInt page); (py "per_page", JInt 100); (py "type", JStr (py "public"))].

Definition is_error_status (code : Z) : bool :=
  (400 <=? code)%Z && (code <? 600)%Z.

(** [response.raise_for_status()] raises [HTTPError] on 4xx and 5xx. *)
Definition raise_for_status (r : response) : M event unit :=
  if is_error_status (status_code r)
  then raise (mkExn RequestException (reason r))
  else ret tt.

Definition response_json (r : response) : M event json :=
  match json_body r with
  | Returned v => ret v
  | Raised e => raise e
  end.

(** [repos.extend(v)]: the items of a list, the keys of a dict, the
    characters of a string; other values are not iterable. *)
Definition list_extend (repos : list json) (v : json) : M event (list json) :=
  match v with
  | JArr items => ret (repos ++ items)
  | JObj fields => ret (repos ++ map (fun kv => JStr (fst kv)) fields)
  | JStr s => ret (repos ++ map (fun c => JStr [c]) s)
  | _ => raise (mkExn TypeError (py "object is not iterable"))
  end.

Definition org_repos_page (self : collector) (page : Z) (repos : list json)
  : M event (loop_step (list json * Z)) :=
  try_except
    (response <- call (EvGet (org_repos_url self) (headers self) (org_repos_params page))
                      (requests_get (org_repos_url self) (headers self)
                                    (org_repos_params page)) ;;
     raise_for_status response ;;;
     page_repos <- response_json response ;;
     if negb (truthy page_repos) then ret Break
     else
       repos' <- list_extend repos page_repos ;;
       time_sleep 100 ;;;
       ret (Next (repos', (page + 1)%Z)))
    is_request_exception
    (fun _ => ret Break).

Fixpoint org_repos_loop (fuel : nat) (self : collector) (page : Z)
  (repos : list json) : M event (list json) :=
  match fuel with
  | O => (NoFuel, [])
  | S fuel' =>
    step <- org_repos_page self page repos ;;
    match step with
    | Break => ret repos
    | Next (repos', page') => org_repos_loop fuel' self page' repos'
    end
  end.

Definition get_organization_repos (fuel : nat) (self : collector)
  : M event (list json) :=
  org_repos_loop fuel self 1%Z [].

(** *** get_repo_readme *)

(** [base64.b64decode(s).decode('utf-8')] *)
Variable b64decode_utf8 : pystr -> outcome pystr.

Definition lift {A : Type} (o : outcome A) : M event A :=
  match o with
  | Returned a => ret a
  | Raised e => raise e
  end.

Definition readme_files : list pystr :=
  [py "README.md"; py "readme.md"; py "README.txt"; py "readme.txt"; py "README"].

Definition contents_url (self : collector) (repo_name : json) (readme_file : pystr)
  : pystr :=
  base_url self ++ py "/repos/" ++ org_name self ++ py "/" ++ format_value repo_name
    ++ py "/contents/" ++ readme_file.

(** [v.get(k)]: only a dict has the method. *)
Definition json_get (v : json) (k : pystr) : M event json :=
  match v with
  | JObj fields =>
    match dict_get fields k with
    | Some x => ret x
    | None => ret JNull
    end
  | _ => raise (mkExn AttributeError (py "object has no attribute 'get'"))
  end.

(** [v[k]] for a string key [k]. *)
Definition json_subscript (v : json) (k : pystr) : M event json :=
  match v with
  | JObj fields =>
    match dict_get fields k with
    | Some x => ret x
    | None => raise (mkExn KeyError k)
    end
  | _ => raise (mkExn TypeError (py "indices must be integers or object is not subscriptable"))
  end.

Definition json_is_str (v : json) (s : pystr) : bool :=
  match v with
  | JStr s' => pystr_eqb s' s
  | _ => false
  end.

Definition decode_content (v : json) : M event pystr :=
  match v with
  | JStr s => lift (b64decode_utf8 s)
  | _ => raise (mkExn TypeError (py "argument should be a bytes-like object or ASCII string"))
  end.

(** One turn of the [for readme_file in readme_files] loop: [Some content]
    when the turn executes [return readme_content], [None] when the loop
    goes on to the next file. *)
Definition try_readme_file (self : collector) (repo_name : json) (readme_file : pystr)
  : M event (option pystr) :=
  try_except
    (let url := contents_url self repo_name readme_file in
     response <- call (EvGet url (headers self) []) (requests_get url (headers self) []) ;;
     if (status_code response =? 200)%Z then
       content_data <- response_json response ;;
       encoding <- json_get content_data (py "encoding") ;;
       if json_is_str encoding (py "base64") then
         content <- json_subscript content_data (py "content") ;;
         readme_content <- decode_content content ;;
         ret (Some readme_content)
       else ret None
     else ret None)
    any_exception
    (fun _ => ret None).

Fixpoint readme_loop (self : collector) (repo_name : json) (files : list pystr)
  : M event (option pystr) :=
  match files with
  | [] => ret None
  | readme_file :: rest =>
    r <- try_readme_file self repo_name readme_file ;;
    match r with
    | Some readme_content => ret (Some readme_content)
    | None => readme_loop self repo_name rest
    end
  end.

Definition get_repo_readme (self : collector) (repo_name : json)
  : M event (option pystr) :=
  readme_loop self repo_name readme_files.

(** *** save_readme_to_file *)

Definition save_readme_to_file (self : collector) (repo_name : json) (content : pystr)
  : M event pystr :=
  match repo_name with
  | JStr name =>
    let repo_dir := os_path_join (readme_dir self) name in
    call (EvMakedirs repo_dir) (unit_outcome (os_makedirs repo_dir)) ;;;
    let filepath := os_path_join repo_dir (py "README.md") in
    try_except
      (call (EvWriteText filepath content) (unit_outcome (write_text filepath content)) ;;;
       ret filepath)
      any_exception
      (fun e => raise e)
  | _ => raise (mkExn TypeError (py "expected str, bytes or os.PathLike object"))
  end.

(** *** collect_all_readmes *)

(** [repo.get(k, default)] inside an f-string. *)
Definition format_field (repo : json) (k : pystr) (default : pystr) : M event pystr :=
  match repo with
  | JObj fields =>
    match dict_get fields k with
    | Some x => ret (format_value x)
    | None => ret default
    end
  | _ => raise (mkExn AttributeError (py "object has no attribute 'get'"))
  end.

Definition nl : pystr := [10%N].

Definition render_repo_info (repo repo_name : json) (readme_content : pystr)
  : M event pystr :=
  description <- format_field repo (py "description") (py "无描述") ;;
  html_url <- format_field repo (py "html_url") [] ;;
  created_at <- format_field repo (py "created_at") [] ;;
  updated_at <- format_field repo (py "updated_at") [] ;;
  language <- format_field repo (py "language") (py "未知") ;;
  stars <- format_field repo (py "stargazers_count") (py "0") ;;
  ret (py "# " ++ format_value repo_name ++ nl ++ nl
       ++ py "**仓库描述**: " ++ description ++ nl
       ++ py "**仓库地址**: " ++ html_url ++ nl
       ++ py "**创建时间**: " ++ created_at ++ nl
       ++ py "**更新时间**: " ++ updated_at ++ nl
       ++ py "**主要语言**: " ++ language ++ nl
       ++ py "**Star数**: " ++ stars ++ nl ++ nl
       ++ py "---" ++ nl ++ nl
       ++ readme_content ++ nl).

Record collect_state : Type := mkState {
  success_count : nat;
  failed_count : nat;
  file_paths : list (pystr * pystr)
}.

Definition failed_one (st : collect_state) : collect_state :=
  {| success_count := success_count st;
     failed_count := S (failed_count st);
     file_paths := file_paths st |}.

Definition collected_one (st : collect_state) (name filepath : pystr) : collect_state :=
  {| success_count := S (success_count st);
     failed_count := failed_count st;
     file_paths := dict_set (file_paths st) name filepath |}.

(** [file_paths[repo_name] = filepath]; the key is a string whenever the
    statement is reached, since [os.path.join] accepted it. *)
Definition set_file_path (st : collect_state) (repo_name : json) (filepath : pystr)
  : M event collect_state :=
  match repo_name with
  | JStr name => ret (collected_one st name filepath)
  | _ => raise (mkExn TypeError (py "unhashable type"))
  end.

(** The [try] block of the body of [for repo in repos]. *)
Definition collect_body (self : collector) (st : collect_state) (repo repo_name : json)
  : M event collect_state :=
  readme_content <- get_repo_readme self repo_name ;;
  st' <- match readme_content with
         | Some (c :: t) =>
           repo_info <- render_repo_info repo repo_name (c :: t) ;;
           filepath <- save_readme_to_file self repo_name repo_info ;;
           set_file_path st repo_name filepath
         | _ => ret (failed_one st)
         end ;;
  time_sleep 200 ;;;
  ret st'.

(** The body of [for repo in repos]. The subscript [repo['name']] stands
    before the [try] statement. *)
Definition collect_one (self : collector) (st : collect_state) (repo : json)
  : M event collect_state :=
  repo_name <- json_subscript repo (py "name") ;;
  try_except
    (collect_body self st repo repo_name)
    any_exception
    (fun _ => ret (failed_one st)).

Fixpoint collect_loop (self : collector) (st : collect_state) (repos : list json)
  : M event collect_state :=
  match repos with
  | [] => ret st
  | repo :: rest =>
    st' <- collect_one self st repo ;;
    collect_loop self st' rest
  end.

Definition summary_path (self : collector) : pystr :=
  os_path_join (readme_dir self) (py "collection_summary.json").

Definition collection_summary (repos : list json) (paths : list (pystr * pystr))
  : json :=
  JObj [(py "collection_time", JStr strftime_now);
        (py "total_repos", JInt (Z.of_nat (length repos)));
        (py "successful_collections", JInt (Z.of_nat (length paths)));
        (py "failed_collections",
         JInt (Z.of_nat (length repos) - Z.of_nat (length paths)));
        (py "collected_repos", JArr (map JStr (dict_keys paths)));
        (py "file_paths", JObj (map (fun kv => (fst kv, JStr (snd kv))) paths))].

Definition save_collection_summary (self : collector) (repos : list json)
  (paths : list (pystr * pystr)) : M event unit :=
  call (EvJsonDump (summary_path self) (collection_summary repos paths))
       (unit_outcome (json_dump (summary_path self) (collection_summary repos paths))).

Definition initial_state : collect_state :=
  {| success_count := 0; failed_count := 0; file_paths := [] |}.

(** The part of [collect_all_readmes] that follows the repository listing. *)
Definition collect_repos (self : collector) (repos : list json)
  : M event (list (pystr * pystr)) :=
  match repos with
  | [] => ret []
  | _ =>
    st <- collect_loop self initial_state repos ;;
    save_collection_summary self repos (file_paths st) ;;;
    ret (file_paths st)
  end.

Definition collect_all_readmes (fuel : nat) (self : collector)
  : M event (list (pystr * pystr)) :=
  repos <- get_organization_repos fuel self ;;
  collect_repos self repos.

(** ** Properties of the collector *)

(** *** Pagination *)

Definition org_repos_get (self : collector) (page : Z) : event :=
  EvGet (org_repos_url self) (headers self) (org_repos_params page).

(** The endpoint answers the request for [page] with the JSON array [p]. *)
Definition page_ok (self : collector) (page : Z) (p : list json) : Prop :=
  exists r,
    requests_get (org_repos_url self) (headers self) (org_repos_params page) = Returned r
    /\ is_error_status (status_code r) = false
    /\ json_body r = Returned (JArr p).

(** The request for [page] fails: the call raises a [RequestException], the
    status is 4xx or 5xx, or reading the body raises a [RequestException]. *)
Definition request_fails (self : collector) (page : Z) : Prop :=
  (exists e,
      requests_get (org_repos_url self) (headers self) (org_repos_params page) = Raised e
      /\ is_request_exception e = true)
  \/ (exists r,
      requests_get (org_repos_url self) (headers self) (org_repos_params page) = Returned r
      /\ (is_error_status (status_code r) = true
          \/ exists e, json_body r = Raised e /\ is_request_exception e = true)).

(** The page numbers of the listing requests of a trace, in order. *)
Fixpoint requested_pages (t : list event) : list Z :=
  match t with
  | [] => []
  | EvGet _ _ params :: t' =>
    match dict_get params (py "page") with
    | Some (JInt n) => n :: requested_pages t'
    | _ => requested_pages t'
    end
  | _ :: t' => requested_pages t'
  end.

(** The trace of [n] pages fetched from [page] on. *)
Fixpoint pages_trace (self : collector) (page : Z) (n : nat) : list event :=
  match n with
  | O => []
  | S n' => org_repos_get self page :: EvSleep 100 :: pages_trace self (page + 1) n'
  end.

Lemma org_repos_page_next : forall self page repos p,
  page_ok self page p -> p <> [] ->
  org_repos_page self page repos
  = (Ok (Next (repos ++ p, (page + 1)%Z)), [org_repos_get self page; EvSleep 100]).
Proof.
  intros self page repos p (r & Hget & Hst & Hbody) Hne.
  unfold org_repos_page, raise_for_status, response_json.
  rewrite Hget. cbn [call bind]. rewrite Hst, Hbody.
  destruct p as [|x p]; [congruence|]. reflexivity.
Qed.

Lemma org_repos_page_empty : forall self page repos,
  page_ok self page [] ->
  org_repos_page self page repos = (Ok Break, [org_repos_get self page]).
Proof.
  intros self page repos (r & Hget & Hst & Hbody).
  unfold org_repos_page, raise_for_status, response_json.
  rewrite Hget. cbn [call bind]. rewrite Hst, Hbody. reflexivity.
Qed.

Lemma org_repos_page_failure : forall self page repos,
  request_fails self page ->
  org_repos_page self page repos = (Ok Break, [org_repos_get self page]).
Proof.
  intros self page repos [(e & Hget & He) | (r & Hget & [Hst | (e & Hbody & He)])];
    unfold org_repos_page, raise_for_status, response_json; rewrite Hget;
    cbn [call bind try_except].
  - rewrite He. reflexivity.
  - rewrite Hst. reflexivity.
  - destruct (is_error_status (status_code r)); [reflexivity|].
    rewrite Hbody. cbn. rewrite He. reflexivity.
Qed.

Lemma org_repos_loop_pages : forall self pages fuel page repos,
  (forall i p, nth_error pages i = Some p ->
               p <> [] /\ page_ok self (page + Z.of_nat i) p) ->
  (page_ok self (page + Z.of_nat (length pages)) []
   \/ request_fails self (page + Z.of_nat (length pages))) ->
  length pages < fuel ->
  org_repos_loop fuel self page repos
  = (Ok (repos ++ concat pages),
     pages_trace self page (length pages)
       ++ [org_repos_get self (page + Z.of_nat (length pages))]).
Proof.
  intros self pages. induction pages as [|p pages IH]; intros fuel page repos Hpages Hstop Hfuel.
  - destruct fuel as [|fuel]; [inversion Hfuel|].
    simpl in *. rewrite Z.add_0_r in *. rewrite app_nil_r.
    destruct Hstop as [Hempty | Hfail].
    + rewrite (org_repos_page_empty self page repos Hempty). reflexivity.
    + rewrite (org_repos_page_failure self page repos Hfail). reflexivity.
  - destruct fuel as [|fuel]; [inversion Hfuel|].
    destruct (Hpages 0 p eq_refl) as [Hne Hok]. simpl in Hok. rewrite Z.add_0_r in Hok.
    cbn [org_repos_loop].
    rewrite (org_repos_page_next self page repos p Hok Hne).
    cbn [bind].
    rewrite (IH fuel (page + 1)%Z (repos ++ p)).
    + cbn [length pages_trace concat]. rewrite <- app_assoc.
      replace (page + 1 + Z.of_nat (length pages))%Z
        with (page + Z.of_nat (S (length pages)))%Z by lia.
      reflexivity.
    + intros i q Hq. specialize (Hpages (S i) q Hq).
      replace (page + 1 + Z.of_nat i)%Z with (page + Z.of_nat (S i))%Z by lia.
      exact Hpages.
    + replace (page + 1 + Z.of_nat (length pages))%Z
        with (page + Z.of_nat (length (p :: pages)))%Z by (simpl length; lia).
      exact Hstop.
    + simpl in Hfuel. lia.
Qed.

Lemma requested_pages_trace : forall self n page last,
  requested_pages (pages_trace self page n ++ [org_repos_get self last])
  = map (fun i => (page + Z.of_nat i)%Z) (seq 0 n) ++ [last].
Proof.
  intros self n. induction n as [|n IH]; intros page last.
  - reflexivity.
  - cbn [pages_trace app org_repos_get requested_pages].
    change (dict_get (org_repos_params page) (py "page")) with (Some (JInt page)).
    cbn iota. rewrite IH. cbn [seq map app]. rewrite Z.add_0_r. f_equal. f_equal.
    rewrite <- seq_shift, map_map. apply map_ext. intro i. lia.
Qed.

Lemma length_concat_full {A : Type} : forall (pages : list (list A)) (k : nat),
  (forall p, In p pages -> length p = k) ->
  length (concat pages) = length pages * k.
Proof.
  induction pages as [|p pages IH]; intros k H; simpl; [reflexivity|].
  rewrite length_app, (H p (or_introl eq_refl)), (IH k); [lia|].
  intros q Hq. apply H. right. exact Hq.
Qed.

Lemma length_concat_bound {A : Type} : forall (pages : list (list A)) (k : nat),
  (forall p, In p pages -> length p <= k) ->
  length (concat pages) <= length pages * k.
Proof.
  induction pages as [|p pages IH]; intros k H; simpl; [lia|].
  rewrite length_app. specialize (H p (or_introl eq_refl)) as Hp.
  assert (length (concat pages) <= length pages * k).
  { apply IH. intros q Hq. apply H. right. exact Hq. }
  lia.
Qed.

(** C3. When the listing endpoint serves the non-empty pages [pages] (pages
    1 to N) and then either an empty page or a failing request, and the loop
    is given more than N turns, [get_organization_repos] returns the
    concatenation of the N pages in order and raises nothing; the page
    requests it issues are exactly 1, 2, ..., N+1, so none follows the empty
    page or the failure. With pages of 100 records the result has N * 100
    records, and no more than that when a page is shorter. *)
Theorem get_organization_repos_pagination :
  forall (self : collector) (pages : list (list json)) (fuel : nat),
    (forall i p, nth_error pages i = Some p ->
                 p <> [] /\ page_ok self (Z.of_nat (S i)) p) ->
    (page_ok self (Z.of_nat (S (length pages))) []
     \/ request_fails self (Z.of_nat (S (length pages)))) ->
    length pages < fuel ->
    fst (get_organization_repos fuel self) = Ok (concat pages)
    /\ requested_pages (snd (get_organization_repos fuel self))
       = map Z.of_nat (seq 1 (S (length pages)))
    /\ ((forall p, In p pages -> length p = 100) ->
        length (concat pages) = length pages * 100)
    /\ ((forall p, In p pages -> length p <= 100) ->
        length (concat pages) <= length pages * 100).
Proof.
  intros self pages fuel Hpages Hstop Hfuel.
  unfold get_organization_repos.
  rewrite (org_repos_loop_pages self pages fuel 1%Z []).
  - cbn [fst snd app]. split; [reflexivity|]. split.
    + rewrite requested_pages_trace.
      replace (S (length pages)) with (length pages + 1) by lia.
      rewrite seq_app, map_app. cbn [seq map Nat.add]. f_equal.
      * rewrite <- seq_shift, map_map. apply map_ext. intro i. lia.
      * f_equal. lia.
    + split; [apply length_concat_full | apply length_concat_bound].
  - intros i p Hp. replace (1 + Z.of_nat i)%Z with (Z.of_nat (S i)) by lia. auto.
  - replace (1 + Z.of_nat (length pages))%Z with (Z.of_nat (S (length pages))) by lia.
    exact Hstop.
  - exact Hfuel.
Qed.

(** *** README candidates *)

Definition readme_get (self : collector) (repo_name : json) (readme_file : pystr)
  : event :=
  EvGet (contents_url self repo_name readme_file) (headers self) [].

(** The contents endpoint answers the request for [readme_file] with status
    200 and a JSON object whose encoding is base64 and whose content decodes
    to [content]. *)
Definition readme_served (self : collector) (repo_name : json) (readme_file : pystr)
  (content : pystr) : Prop :=
  exists r fields s,
    requests_get (contents_url self repo_name readme_file) (headers self) [] = Returned r
    /\ status_code r = 200%Z
    /\ json_body r = Returned (JObj fields)
    /\ dict_get fields (py "encoding") = Some (JStr (py "base64"))
    /\ dict_get fields (py "content") = Some (JStr s)
    /\ b64decode_utf8 s = Returned content.


Lemma json_is_str_true : forall v s, json_is_str v s = true <-> v = JStr s.
Proof.
  intros v s. destruct v; simpl; split; intro H; try discriminate.
  - apply pystr_eqb_eq in H. congruence.
  - inversion H. apply pystr_eqb_refl.
Qed.

Ltac not_served :=
  let c := fresh "c" in
  let H := fresh "H" in
  let r := fresh "r" in
  let f := fresh "f" in
  let s := fresh "s" in
  intros c (r & f & s & H);
  repeat match goal with
         | H : _ /\ _ |- _ => destruct H
         end;
  congruence.

(** One candidate: exactly one request, no exception, and the content is
    returned exactly when the candidate is served. *)
Lemma try_readme_file_cases : forall self repo_name readme_file,
  (exists c, readme_served self repo_name readme_file c
             /\ try_readme_file self repo_name readme_file
                = (Ok (Some c), [readme_get self repo_name readme_file]))
  \/ ((forall c, ~ readme_served self repo_name readme_file c)
      /\ try_readme_file self repo_name readme_file
         = (Ok None, [readme_get self repo_name readme_file])).
Proof.
  intros self repo_name readme_file.
  unfold try_readme_file, readme_get.
  destruct (requests_get (contents_url self repo_name readme_file) (headers self) [])
    as [r | e] eqn:Hget; cbn [call bind try_except any_exception ret];
    [| right; split; [not_served | reflexivity]].
  destruct (status_code r =? 200)%Z eqn:Hst;
    [| right; split; [| reflexivity];
       intros c (r' & f & s & G & S & _); rewrite Hget in G; inversion G; subst;
       rewrite S in Hst; discriminate].
  apply Z.eqb_eq in Hst.
  unfold response_json.
  destruct (json_body r) as [v | e] eqn:Hbody;
    [| right; split; [not_served | reflexivity]].
  destruct v as [ | b | n | m x | s | items | fields];
    try (right; split; [not_served | reflexivity]).
  cbn [json_get bind ret].
  destruct (dict_get fields (py "encoding")) as [enc |] eqn:Henc;
    [| right; split; [not_served | reflexivity]].
  cbn [bind ret].
  destruct (json_is_str enc (py "base64")) eqn:Hb64.
  - apply json_is_str_true in Hb64. subst enc.
    cbn [json_subscript bind ret raise].
    destruct (dict_get fields (py "content")) as [cv |] eqn:Hcontent;
      [| right; split; [not_served | reflexivity]].
    cbn [bind ret].
    destruct cv as [ | b | n | m x | s | items | fields'];
      try (right; split; [not_served | reflexivity]).
    cbn [decode_content lift].
    destruct (b64decode_utf8 s) as [content | e] eqn:Hdec;
      [| right; split; [not_served | reflexivity]].
    left. exists content. split; [| reflexivity].
    exists r, fields, s. repeat split; assumption.
  - right. split; [| reflexivity].
    intros c (r' & f & s & G & _ & B & En & _).
    rewrite Hget in G. inversion G; subst r'. rewrite Hbody in B. inversion B; subst f.
    rewrite Henc in En. inversion En; subst enc.
    rewrite (proj2 (json_is_str_true _ _) eq_refl) in Hb64. discriminate.
Qed.

(** The loop over any list of candidates. *)
Lemma readme_loop_cases : forall self repo_name files,
  (exists k readme_file c,
      nth_error files k = Some readme_file
      /\ readme_served self repo_name readme_file c
      /\ (forall j f, j < k -> nth_error files j = Some f ->
                      forall c', ~ readme_served self repo_name f c')
      /\ readme_loop self repo_name files
         = (Ok (Some c), map (readme_get self repo_name) (firstn (S k) files)))
  \/ ((forall f, In f files -> forall c, ~ readme_served self repo_name f c)
      /\ readme_loop self repo_name files
         = (Ok None, map (readme_get self repo_name) files)).
Proof.
  intros self repo_name files. induction files as [|file files IH].
  - right. split; [intros f []|reflexivity].
  - cbn [readme_loop].
    destruct (try_readme_file_cases self repo_name file) as [(c & Hs & Ht) | (Hn & Ht)];
      rewrite Ht; cbn [bind ret].
    + left. exists 0, file, c. repeat split; try assumption.
      intros j f Hj. inversion Hj.
    + destruct IH as [(k & f & c & Hk & Hs & He & Hl) | (Hall & Hl)]; rewrite Hl.
      * left. exists (S k), f, c. repeat split; try assumption.
        intros j f' Hj Hf'. destruct j as [|j].
        -- simpl in Hf'. inversion Hf'; subst. exact Hn.
        -- simpl in Hf'. apply (He j f'); [lia | exact Hf'].
      * right. split; [| reflexivity].
        intros f [Hf | Hf]; [subst; exact Hn | apply Hall; exact Hf].
Qed.


(** *** The batch loop *)

(** A repository record is a JSON object with a [name]. *)
Definition has_name (repo : json) : Prop :=
  exists fields v, repo = JObj fields /\ dict_get fields (py "name") = Some v.

Definition readme_path (self : collector) (name : pystr) : pystr :=
  os_path_join (os_path_join (readme_dir self) name) (py "README.md").

(** The README of [repo] is collected under [name] at [path]: a non-empty
    README is found, and the directory and the file are written. *)
Definition collected (self : collector) (repo : json) (name path : pystr) : Prop :=
  exists fields c t content requests,
    repo = JObj fields
    /\ dict_get fields (py "name") = Some (JStr name)
    /\ get_repo_readme self (JStr name) = (Ok (Some (c :: t)), requests)
    /\ render_repo_info repo (JStr name) (c :: t) = (Ok content, [])
    /\ os_makedirs (os_path_join (readme_dir self) name) = None
    /\ path = readme_path self name
    /\ write_text path content = None.

(** What processing one repository adds to the trace. *)
Definition item_trace (self : collector) (repo : json) : list event :=
  snd (collect_one self initial_state repo).

(** The repository counts as a success. *)
Definition collectedb (self : collector) (repo : json) : bool :=
  match fst (collect_one self initial_state repo) with
  | Ok st => (success_count st =? 1)%nat
  | _ => false
  end.

(** The summary files written by a trace. *)
Fixpoint summary_writes (t : list event) : list (pystr * json) :=
  match t with
  | [] => []
  | EvJsonDump path data :: t' => (path, data) :: summary_writes t'
  | _ :: t' => summary_writes t'
  end.

Lemma summary_writes_app : forall t1 t2,
  summary_writes (t1 ++ t2) = summary_writes t1 ++ summary_writes t2.
Proof.
  induction t1 as [|ev t1 IH]; intro t2; [reflexivity|].
  destruct ev; simpl; rewrite IH; reflexivity.
Qed.

Lemma summary_writes_gets : forall self repo_name files,
  summary_writes (map (readme_get self repo_name) files) = [].
Proof.
  intros self repo_name files. induction files as [|f files IH]; [reflexivity|exact IH].
Qed.

Lemma get_repo_readme_ok : forall self repo_name,
  exists r k,
    get_repo_readme self repo_name
    = (Ok r, map (readme_get self repo_name) (firstn (S k) readme_files)).
Proof.
  intros self repo_name. unfold get_repo_readme.
  destruct (readme_loop_cases self repo_name readme_files)
    as [(k & f & c & _ & _ & _ & Hl) | (_ & Hl)]; rewrite Hl.
  - exists (Some c), k. reflexivity.
  - exists None, 4. reflexivity.
Qed.

Lemma format_field_ok : forall fields k default,
  exists x, format_field (JObj fields) k default = (Ok x, []).
Proof.
  intros fields k default. unfold format_field.
  destruct (dict_get fields k); eexists; reflexivity.
Qed.

Lemma render_repo_info_ok : forall fields repo_name readme_content,
  exists content,
    render_repo_info (JObj fields) repo_name readme_content = (Ok content, []).
Proof.
  intros fields repo_name readme_content. unfold render_repo_info.
  destruct (format_field_ok fields (py "description") (py "无描述")) as (x1 & H1).
  destruct (format_field_ok fields (py "html_url") []) as (x2 & H2).
  destruct (format_field_ok fields (py "created_at") []) as (x3 & H3).
  destruct (format_field_ok fields (py "updated_at") []) as (x4 & H4).
  destruct (format_field_ok fields (py "language") (py "未知")) as (x5 & H5).
  destruct (format_field_ok fields (py "stargazers_count") (py "0")) as (x6 & H6).
  rewrite H1, H2, H3, H4, H5, H6. cbn [bind ret app]. eexists. reflexivity.
Qed.

Ltac not_collected :=
  let n := fresh "n" in
  let p := fresh "p" in
  let H := fresh "H" in
  intros n p H; destruct H as (? & ? & ? & ? & ? & H);
  repeat match goal with
         | H : _ /\ _ |- _ => destruct H
         end;
  subst;
  repeat match goal with
         | H : JObj _ = JObj _ |- _ => inversion H; clear H; subst
         end;
  repeat match goal with
         | H1 : ?x = _, H2 : ?x = _ |- _ => rewrite H1 in H2; inversion H2; clear H2; subst
         end;
  try congruence; try discriminate.

(** One repository with a name: whatever the [try] block does, the turn
    ends normally, with one more success or one more failure. Its trace is
    the README requests followed by the directory and file writes. *)
Lemma collect_one_cases : forall self fields v,
  dict_get fields (py "name") = Some v ->
  exists k tail,
    summary_writes tail = []
    /\ ((exists name path,
           collected self (JObj fields) name path
           /\ forall st,
               collect_one self st (JObj fields)
               = (Ok (collected_one st name path),
                  map (readme_get self v) (firstn (S k) readme_files) ++ tail))
        \/ ((forall name path, ~ collected self (JObj fields) name path)
            /\ forall st,
                collect_one self st (JObj fields)
                = (Ok (failed_one st),
                   map (readme_get self v) (firstn (S k) readme_files) ++ tail))).
Proof.
  intros self fields v Hname.
  destruct (get_repo_readme_ok self v) as (r & k & Hr).
  assert (Hone : forall st,
             collect_one self st (JObj fields)
             = try_except (collect_body self st (JObj fields) v) any_exception
                 (fun _ => ret (failed_one st))).
  { intro st. unfold collect_one. cbn [json_subscript]. rewrite Hname. cbn [bind ret].
    destruct (try_except _ _ _) as [r0 t0]. reflexivity. }
  destruct r as [[|c rc] |].
  - exists k, [EvSleep 200]. split; [reflexivity|]. right. split.
    + not_collected.
    + intro st. rewrite Hone. unfold collect_body. rewrite Hr. reflexivity.
  - destruct (render_repo_info_ok fields v (c :: rc)) as (content & Hrender).
    destruct v as [ | b | n | m x | name | items | fields'];
      try (exists k, []; split; [reflexivity|]; right; split;
           [not_collected
           | intro st; rewrite Hone; unfold collect_body; rewrite Hr; cbn [bind ret];
             rewrite Hrender; cbn; repeat rewrite app_nil_r; reflexivity]).
    destruct (os_makedirs (os_path_join (readme_dir self) name)) as [e |] eqn:Hmk.
    { exists k, [EvMakedirs (os_path_join (readme_dir self) name)].
      split; [reflexivity|]. right. split.
      - not_collected.
      - intro st. rewrite Hone. unfold collect_body. rewrite Hr. cbn [bind ret].
        rewrite Hrender. cbn [bind ret save_readme_to_file]. rewrite Hmk.
        cbn. repeat rewrite app_nil_r. reflexivity. }
    destruct (write_text (readme_path self name) content) as [e |] eqn:Hwr.
    { exists k, [EvMakedirs (os_path_join (readme_dir self) name);
                 EvWriteText (readme_path self name) content].
      split; [reflexivity|]. right. split.
      - not_collected.
      - intro st. rewrite Hone. unfold collect_body. rewrite Hr. cbn [bind ret].
        rewrite Hrender. cbn [bind ret save_readme_to_file]. rewrite Hmk.
        fold (readme_path self name). rewrite Hwr.
        cbn. repeat rewrite app_nil_r. reflexivity. }
    exists k, [EvMakedirs (os_path_join (readme_dir self) name);
               EvWriteText (readme_path self name) content;
               EvSleep 200].
    split; [reflexivity|].
    left. exists name, (readme_path self name). split.
    + exists fields, c, rc, content.
      exists (map (readme_get self (JStr name)) (firstn (S k) readme_files)).
      repeat split; assumption.
    + intro st. rewrite Hone. unfold collect_body. rewrite Hr. cbn [bind ret].
      rewrite Hrender. cbn [bind ret save_readme_to_file]. rewrite Hmk.
      fold (readme_path self name). rewrite Hwr.
      cbn. repeat rewrite app_nil_r. reflexivity.
  - exists k, [EvSleep 200]. split; [reflexivity|]. right. split.
    + not_collected.
    + intro st. rewrite Hone. unfold collect_body. rewrite Hr. reflexivity.
Qed.

Lemma collected_path : forall self repo name path,
  collected self repo name path -> path = readme_path self name.
Proof.
  intros self repo name path (f & c & t & content & rq & _ & _ & _ & _ & _ & H & _).
  exact H.
Qed.

Lemma pystr_eqb_sym : forall a b, pystr_eqb a b = pystr_eqb b a.
Proof.
  intros a b. destruct (pystr_eqb a b) eqn:E; symmetry.
  - apply pystr_eqb_eq in E. subst. apply pystr_eqb_refl.
  - apply pystr_eqb_neq. apply pystr_eqb_neq in E. congruence.
Qed.

Lemma dict_get_set {A : Type} : forall (d : list (pystr * A)) k v k',
  dict_get (dict_set d k v) k' = if pystr_eqb k k' then Some v else dict_get d k'.
Proof.
  induction d as [|[k0 v0] d IH]; intros k v k'; simpl.
  - reflexivity.
  - destruct (pystr_eqb k0 k) eqn:E0; simpl.
    + apply pystr_eqb_eq in E0. subst k0.
      destruct (pystr_eqb k k'); reflexivity.
    + destruct (pystr_eqb k0 k') eqn:E1.
      * apply pystr_eqb_eq in E1. subst k0.
        rewrite pystr_eqb_sym, E0. reflexivity.
      * apply IH.
Qed.

(** The whole loop: it ends normally, every repository is processed in
    order, and each one is counted once, as a success or as a failure. *)
Lemma collect_loop_spec : forall self repos st0,
  Forall has_name repos ->
  exists st,
    collect_loop self st0 repos = (Ok st, flat_map (item_trace self) repos)
    /\ success_count st
       = success_count st0 + length (filter (collectedb self) repos)
    /\ failed_count st
       = failed_count st0 + length (filter (fun r => negb (collectedb self r)) repos)
    /\ ((forall name path, dict_get (file_paths st0) name = Some path ->
                           path = readme_path self name) ->
        forall name path,
          dict_get (file_paths st) name = Some path
          <-> (exists repo, In repo repos /\ collected self repo name path)
              \/ dict_get (file_paths st0) name = Some path).
Proof.
  intros self repos. induction repos as [|repo repos IH]; intros st0 Hnames.
  - exists st0. cbn [collect_loop flat_map filter length]. rewrite !Nat.add_0_r.
    split; [reflexivity|]. split; [reflexivity|]. split; [reflexivity|].
    intros _ name path. split.
    + intro Hold. right. exact Hold.
    + intros [(repo & [] & _) | Hold]. exact Hold.
  - inversion Hnames as [|? ? (fields & v & -> & Hname) Hrest]; subst.
    destruct (collect_one_cases self fields v Hname)
      as (k & tail & _ & [(name & path & Hc & Hone) | (Hnc & Hone)]).
    + destruct (IH (collected_one st0 name path) Hrest) as (st & Hloop & Hs & Hf & Hp).
      assert (Hcb : collectedb self (JObj fields) = true)
        by (unfold collectedb; rewrite Hone; reflexivity).
      assert (Hit : item_trace self (JObj fields)
                    = map (readme_get self v) (firstn (S k) readme_files) ++ tail)
        by (unfold item_trace; rewrite Hone; reflexivity).
      exists st. cbn [collect_loop flat_map filter].
      rewrite Hcb, Hit, Hone. cbn [bind negb length]. rewrite Hloop.
      split; [reflexivity|]. split; [rewrite Hs; cbn; lia|].
      split; [rewrite Hf; cbn; lia|].
      intros Hcons n p. rewrite Hp.
      * cbn [file_paths collected_one]. rewrite dict_get_set.
        destruct (pystr_eqb name n) eqn:E.
        -- apply pystr_eqb_eq in E. subst n. split.
           ++ intros [(r & Hin & Hr) | Heq].
              ** left. exists r. split; [right; exact Hin | exact Hr].
              ** inversion Heq; subst p. left. exists (JObj fields).
                 split; [left; reflexivity | exact Hc].
           ++ intros [(r & [Heq | Hin] & Hr) | Hold].
              ** subst r. right. f_equal.
                 rewrite (collected_path _ _ _ _ Hc), (collected_path _ _ _ _ Hr). reflexivity.
              ** left. exists r. split; assumption.
              ** right. f_equal. rewrite (collected_path _ _ _ _ Hc). symmetry.
                 apply Hcons. exact Hold.
        -- split.
           ++ intros [(r & Hin & Hr) | Hold].
              ** left. exists r. split; [right; exact Hin | exact Hr].
              ** right. exact Hold.
           ++ intros [(r & [Heq | Hin] & Hr) | Hold].
              ** subst r. exfalso.
                 destruct Hc as (f1 & _ & _ & _ & _ & E1 & N1 & _).
                 destruct Hr as (f2 & _ & _ & _ & _ & E2 & N2 & _).
                 inversion E1; subst f1. inversion E2; subst f2.
                 rewrite N1 in N2. inversion N2; subst n.
                 rewrite pystr_eqb_refl in E. discriminate.
              ** left. exists r. split; assumption.
              ** right. exact Hold.
      * intros n0 p0. cbn [file_paths collected_one]. rewrite dict_get_set.
        destruct (pystr_eqb name n0) eqn:E.
        -- apply pystr_eqb_eq in E. subst n0. intro H. inversion H; subst p0.
           exact (collected_path _ _ _ _ Hc).
        -- apply Hcons.
    + destruct (IH (failed_one st0) Hrest) as (st & Hloop & Hs & Hf & Hp).
      assert (Hcb : collectedb self (JObj fields) = false)
        by (unfold collectedb; rewrite Hone; reflexivity).
      assert (Hit : item_trace self (JObj fields)
                    = map (readme_get self v) (firstn (S k) readme_files) ++ tail)
        by (unfold item_trace; rewrite Hone; reflexivity).
      exists st. cbn [collect_loop flat_map filter].
      rewrite Hcb, Hit, Hone. cbn [bind negb length]. rewrite Hloop.
      split; [reflexivity|]. split; [rewrite Hs; cbn; lia|].
      split; [rewrite Hf; cbn; lia|].
      intros Hcons n p. rewrite (Hp Hcons). cbn [file_paths failed_one]. split.
      * intros [(r & Hin & Hr) | Hold].
        -- left. exists r. split; [right; exact Hin | exact Hr].
        -- right. exact Hold.
      * intros [(r & [Heq | Hin] & Hr) | Hold].
        -- subst r. exfalso. exact (Hnc n p Hr).
        -- left. exists r. split; assumption.
        -- right. exact Hold.
Qed.

Lemma summary_writes_items : forall self repos,
  Forall has_name repos ->
  summary_writes (flat_map (item_trace self) repos) = [].
Proof.
  intros self repos H. induction H as [|repo repos (fields & v & -> & Hname) _ IH].
  - reflexivity.
  - cbn [flat_map]. rewrite summary_writes_app, IH, app_nil_r.
    destruct (collect_one_cases self fields v Hname)
      as (k & tail & Htail & [(name & path & _ & Hone) | (_ & Hone)]);
      unfold item_trace; rewrite Hone; cbn [snd];
      rewrite summary_writes_app, summary_writes_gets, Htail; reflexivity.
Qed.

Lemma collectedb_true_iff : forall self repo,
  has_name repo ->
  collectedb self repo = true <-> exists name path, collected self repo name path.
Proof.
  intros self repo (fields & v & -> & Hname).
  destruct (collect_one_cases self fields v Hname)
    as (k & tail & _ & [(name & path & Hc & Hone) | (Hnc & Hone)]);
    unfold collectedb; rewrite Hone; cbn.
  - split; [intros _; exists name, path; exact Hc | reflexivity].
  - split; [discriminate | intros (name & path & Hc); exfalso; exact (Hnc name path Hc)].
Qed.

(** Error isolation in the collector's batch loop: every repository of the
    list is processed, in order, whatever happened to the ones before it,
    and each is counted exactly once. *)
Lemma collect_loop_isolation : forall self repos,
  Forall has_name repos ->
  (exists st,
      collect_loop self initial_state repos = (Ok st, flat_map (item_trace self) repos)
      /\ success_count st = length (filter (collectedb self) repos)
      /\ failed_count st = length (filter (fun r => negb (collectedb self r)) repos)
      /\ success_count st + failed_count st = length repos)
  /\ (forall repo,
        In repo repos ->
        collectedb self repo = true <-> exists name path, collected self repo name path)
  /\ (forall repo repo_name st e,
        In repo repos ->
        json_subscript repo (py "name") = (Ok repo_name, []) ->
        fst (collect_body self st repo repo_name) = Raise e ->
        collect_one self st repo
        = (Ok (failed_one st), snd (collect_body self st repo repo_name))).
Proof.
  intros self repos Hnames. split; [|split].
  - destruct (collect_loop_spec self repos initial_state Hnames)
      as (st & Hloop & Hs & Hf & _).
    exists st. cbn in Hs, Hf. repeat split; try assumption.
    rewrite Hs, Hf. clear. induction repos as [|r repos IH]; [reflexivity|].
    cbn [filter]. destruct (collectedb self r); cbn [negb length]; lia.
  - intros repo Hin. apply collectedb_true_iff.
    rewrite Forall_forall in Hnames. apply Hnames. exact Hin.
  - intros repo repo_name st e _ Hname Hraise.
    unfold collect_one. rewrite Hname. cbn [bind].
    destruct (collect_body self st repo repo_name) as [r t].
    cbn [fst] in Hraise. subst r. cbn. rewrite app_nil_r. reflexivity.
Qed.

Definition json_field (v : json) (k : pystr) : option json :=
  match v with
  | JObj fields => dict_get fields k
  | _ => None
  end.

(** C6 (amended). For a non-empty list of repository records,
    [collect_all_readmes] writes the run summary exactly once, after the
    loop; the summary gives the number of records as [total_repos], its
    success and failure counts add up to that number, and its name-to-path
    map holds exactly the repositories whose README was collected. The
    paths are returned when the summary file can be written. For the empty
    list it returns the empty map and writes nothing. *)
Theorem collect_repos_summary :
  forall (self : collector) (repos : list json),
    Forall has_name repos ->
    (repos = [] -> collect_repos self repos = (Ok [], []))
    /\ (repos <> [] ->
    exists paths,
      summary_writes (snd (collect_repos self repos))
      = [(summary_path self, collection_summary repos paths)]
      /\ json_field (collection_summary repos paths) (py "total_repos")
         = Some (JInt (Z.of_nat (length repos)))
      /\ (exists ok failed,
            json_field (collection_summary repos paths) (py "successful_collections")
            = Some (JInt ok)
            /\ json_field (collection_summary repos paths) (py "failed_collections")
               = Some (JInt failed)
            /\ (ok + failed = Z.of_nat (length repos))%Z)
      /\ json_field (collection_summary repos paths) (py "file_paths")
         = Some (JObj (map (fun kv => (fst kv, JStr (snd kv))) paths))
      /\ (forall name path,
            dict_get paths name = Some path
            <-> exists repo, In repo repos /\ collected self repo name path)
      /\ (json_dump (summary_path self) (collection_summary repos paths) = None ->
          fst (collect_repos self repos) = Ok paths)).
Proof.
  intros self repos Hnames. split; [intros ->; reflexivity|]. intro Hne.
  destruct (collect_loop_spec self repos initial_state Hnames)
    as (st & Hloop & _ & _ & Hp).
  exists (file_paths st).
  destruct repos as [|repo repos]; [congruence|].
  unfold collect_repos. rewrite Hloop. cbn [bind].
  unfold save_collection_summary.
  split; [|split; [|split; [|split; [|split]]]].
  - destruct (json_dump _ _); cbn [unit_outcome call bind ret snd];
      rewrite summary_writes_app, (summary_writes_items self _ Hnames); reflexivity.
  - reflexivity.
  - eexists. eexists. split; [reflexivity|]. split; [reflexivity|]. lia.
  - reflexivity.
  - intros name path. rewrite Hp.
    + split; [intros [H | H]; [exact H | discriminate] | intro H; left; exact H].
    + intros n p H. discriminate.
  - intro Hdump. rewrite Hdump. reflexivity.
Qed.

End World.

(** *** Concrete worlds *)

Definition demo_collector : collector :=
  {| token := py "t";
     headers := [(py "Authorization", JStr (py "token t"));
                 (py "Accept", JStr (py "application/vnd.github.v3+json"))];
     base_url := py "https://api.github.com";
     org_name := py "datawhalechina";
     readme_dir := py "database/readme_db" |}.

Definition ok_response (v : json) : response :=
  {| status_code := 200; reason := py "OK"; json_body := Returned v |}.

Definition not_found : response :=
  {| status_code := 404; reason := py "Not Found"; json_body := Returned JNull |}.

Definition demo_repo (name : string) : json :=
  JObj [(py "name", JStr (py name)); (py "stargazers_count", JInt 7)].

(** An organisation with the repositories [a] and [b] on page 1 and nothing
    after; [a] has a README.md, [b] has none. The content is kept as it is
    by the decoder of this world. *)
Definition demo_get (url : pystr) (hdrs params : dict) : outcome response :=
  if pystr_eqb url (py "https://api.github.com/orgs/datawhalechina/repos") then
    match dict_get params (py "page") with
    | Some (JInt 1) => Returned (ok_response (JArr [demo_repo "a"; demo_repo "b"]))
    | _ => Returned (ok_response (JArr []))
    end
  else if pystr_eqb url
            (py "https://api.github.com/repos/datawhalechina/a/contents/README.md")
  then Returned (ok_response (JObj [(py "encoding", JStr (py "base64"));
                                    (py "content", JStr (py "aGVsbG8="))]))
  else Returned not_found.

(** An organisation without repositories. *)
Definition empty_get (url : pystr) (hdrs params : dict) : outcome response :=
  Returned (ok_response (JArr [])).

Definition demo_b64 (s : pystr) : outcome pystr := Returned s.
Definition demo_ok1 (path : pystr) : option exn := None.
Definition demo_ok2 (path content : pystr) : option exn := None.
Definition demo_dump (path : pystr) (data : json) : option exn := None.
Definition demo_repr (v : json) : pystr := py "?".

Definition demo_repos : list json := [demo_repo "a"; demo_repo "b"].

Lemma get_organization_repos_pagination_witness :
  fst (get_organization_repos demo_get 5 demo_collector) = Ok demo_repos
  /\ requested_pages (snd (get_organization_repos demo_get 5 demo_collector))
     = [1%Z; 2%Z].
Proof.
  destruct (get_organization_repos_pagination demo_get demo_collector [demo_repos] 5)
    as (H1 & H2 & _).
  - intros i p Hp. destruct i as [|[|i]]; simpl in Hp; inversion Hp; subst.
    split; [discriminate|].
    exists (ok_response (JArr demo_repos)). repeat split.
  - left. exists (ok_response (JArr [])). repeat split.
  - simpl. lia.
  - split; [exact H1 | exact H2].
Defined.

Lemma collect_repos_summary_witness :
  exists paths,
    summary_writes
      (snd (collect_repos demo_get demo_ok1 demo_ok2 demo_dump (py "now") demo_repr
              demo_b64 demo_collector demo_repos))
    = [(summary_path demo_collector, collection_summary (py "now") demo_repos paths)]
    /\ json_field (collection_summary (py "now") demo_repos paths) (py "total_repos")
       = Some (JInt 2).
Proof.
  destruct (collect_repos_summary demo_get demo_ok1 demo_ok2 demo_dump (py "now")
              demo_repr demo_b64 demo_collector demo_repos)
    as (_ & H).
  - repeat constructor; (eexists; eexists; split; reflexivity).
  - destruct H as (paths & H1 & H2 & _); [discriminate|].
    exists paths. split; [exact H1 | exact H2].
Defined.

(** The listing breaks at page 2 with a server error: the records of page
    1 are returned and no third page is requested. *)
Definition broken_get (url : pystr) (hdrs params : dict) : outcome response :=
  match dict_get params (py "page") with
  | Some (JInt 1) => Returned (ok_response (JArr demo_repos))
  | _ => Returned {| status_code := 502; reason := py "Bad Gateway";
                     json_body := Raised (mkExn ValueError (py "no JSON")) |}
  end.

Example get_organization_repos_partial :
  fst (get_organization_repos broken_get 5 demo_collector) = Ok demo_repos
  /\ requested_pages (snd (get_organization_repos broken_get 5 demo_collector))
     = [1%Z; 2%Z].
Proof. split; reflexivity. Qed.

(** A repository with README.md and readme.md: README.md is returned and
    readme.md is not requested. With a README.md that cannot be decoded,
    readme.md is returned. *)
Definition readme_response (text : string) : outcome response :=
  Returned (ok_response (JObj [(py "encoding", JStr (py "base64"));
                               (py "content", JStr (py text))])).

Definition two_readmes_get (url : pystr) (hdrs params : dict) : outcome response :=
  if pystr_eqb url (py "https://api.github.com/repos/datawhalechina/a/contents/README.md")
  then readme_response "upper"
  else if pystr_eqb url
            (py "https://api.github.com/repos/datawhalechina/a/contents/readme.md")
  then readme_response "lower"
  else Returned not_found.

Definition refuse_upper (s : pystr) : outcome pystr :=
  if pystr_eqb s (py "upper")
  then Raised (mkExn ValueError (py "Incorrect padding"))
  else Returned s.

Example get_repo_readme_prefers_README_md :
  get_repo_readme two_readmes_get demo_repr demo_b64 demo_collector (JStr (py "a"))
  = (Ok (Some (py "upper")),
     [readme_get demo_repr demo_collector (JStr (py "a")) (py "README.md")]).
Proof. reflexivity. Qed.

Example get_repo_readme_skips_undecodable :
  get_repo_readme two_readmes_get demo_repr refuse_upper demo_collector (JStr (py "a"))
  = (Ok (Some (py "lower")),
     [readme_get demo_repr demo_collector (JStr (py "a")) (py "README.md");
      readme_get demo_repr demo_collector (JStr (py "a")) (py "readme.md")]).
Proof. reflexivity. Qed.

(** C6 as stated fails on the empty list: when the organisation has no
    repository, [collect_all_readmes] returns before the summary is
    written. *)
Lemma collect_all_readmes_empty_no_summary :
  fst (get_organization_repos empty_get 3 demo_collector) = Ok []
  /\ summary_writes
       (snd (collect_all_readmes empty_get demo_ok1 demo_ok2 demo_dump (py "now")
               demo_repr demo_b64 3 demo_collector))
     = []
  /\ ~ (exists w,
          summary_writes
            (snd (collect_all_readmes empty_get demo_ok1 demo_ok2 demo_dump (py "now")
                    demo_repr demo_b64 3 demo_collector))
          = [w]).
Proof.
  split; [reflexivity|]. split; [reflexivity|].
  intros (w & H). vm_compute in H. discriminate.
Qed.

End Collector.

(** * Stage 2: the summary generator *)

Module Summarizer.

(** ** filter_content *)

Definition in_range (lo hi c : N) : bool := (lo <=? c)%N && (c <=? hi)%N.

(** One character of the URL body: the single-character alternatives of
    [(?:[a-zA-Z]|[0-9]|[$-_@.&+]|[!*\\(\\),]|(?:%[0-9a-fA-F][0-9a-fA-F]))].
    In [[$-_@.&+]] the characters [$-_] form a range (code points 36 to 95),
    which holds [%]: the last alternative is never the first to match. *)
Definition url_char (c : N) : bool :=
  in_range 97 122 c || in_range 65 90 c
  || in_range 48 57 c
  || (in_range 36 95 c || (c =? 64)%N || (c =? 46)%N || (c =? 38)%N || (c =? 43)%N)
  || ((c =? 33)%N || (c =? 42)%N || (c =? 92)%N || (c =? 40)%N || (c =? 41)%N
      || (c =? 44)%N).

(** The rest of [s] after the literal [p], when [s] starts with it. *)
Fixpoint strip_prefix (p s : pystr) : option pystr :=
  match p, s with
  | [], _ => Some s
  | x :: p', y :: s' => if (x =? y)%N then strip_prefix p' s' else None
  | _ :: _, [] => None
  end.

Fixpoint run_length (f : N -> bool) (s : pystr) : nat :=
  match s with
  | c :: s' => if f c then S (run_length f s') else 0
  | [] => 0
  end.

(** [://] and the greedy body [(?:...)+]; [n] characters were matched before. *)
Definition url_tail (n : nat) (s : pystr) : option nat :=
  match strip_prefix (py "://") s with
  | Some body =>
    match run_length url_char body with
    | O => None
    | S k => Some (n + 3 + S k)
    end
  | None => None
  end.

(** The length of the match of [url_pattern] at the start of [s]. *)
Definition url_match (s : pystr) : option nat :=
  match strip_prefix (py "http") s with
  | Some (115%N :: r) =>
    match url_tail 5 r with
    | Some n => Some n
    | None => url_tail 4 (115%N :: r)
    end
  | Some r => url_tail 4 r
  | None => None
  end.

(** [re.sub]: the text is scanned from the left; where the pattern matches
    (its match is never empty here) the match is replaced and the scan goes
    on after it, elsewhere the character is kept. [skip] counts the
    characters of the current match still to pass over. *)
Fixpoint re_sub_from (m : pystr -> option nat) (repl : pystr) (skip : nat) (s : pystr)
  : pystr :=
  match s with
  | [] => []
  | c :: s' =>
    match skip with
    | S k => re_sub_from m repl k s'
    | O =>
      match m s with
      | Some (S k) => repl ++ re_sub_from m repl k s'
      | _ => c :: re_sub_from m repl 0 s'
      end
    end
  end.

Definition re_sub (m : pystr -> option nat) (repl : pystr) (s : pystr) : pystr :=
  re_sub_from m repl 0 s.

(** A character [c] of the text against the character [p] of an escaped
    word, under [re.IGNORECASE]: [p] is a lower-case ASCII letter, [_] or an
    uncased character; besides its upper-case form, [k] matches the Kelvin
    sign, [s] the long s, and [i] the dotted capital and the dotless i. *)
Definition ci_char (p c : N) : bool :=
  (c =? p)%N
  || (in_range 97 122 p && (c =? p - 32)%N)
  || ((p =? 107)%N && (c =? 8490)%N)
  || ((p =? 115)%N && (c =? 383)%N)
  || ((p =? 105)%N && ((c =? 304)%N || (c =? 305)%N)).

Fixpoint ci_prefix (w s : pystr) : bool :=
  match w, s with
  | [], _ => true
  | p :: w', c :: s' => ci_char p c && ci_prefix w' s'
  | _ :: _, [] => false
  end.

Definition word_match (w s : pystr) : option nat :=
  if ci_prefix w s then Some (length w) else None.

Definition url_token : pystr := py "[URL]".
Definition redaction : pystr := py "[敏感信息]".

Definition sensitive_words : list pystr :=
  [py "密码"; py "password"; py "token"; py "secret"; py "key"; py "私钥";
   py "访问令牌"; py "api_key"; py "access_token"; py "private_key"; py "秘钥"].

Definition redact_word (text w : pystr) : pystr := re_sub (word_match w) redaction text.

Definition redact_words (words : list pystr) (text : pystr) : pystr :=
  fold_left redact_word words text.

Definition redact_urls (content : pystr) : pystr := re_sub url_match url_token content.

Definition filter_content (content : pystr) : pystr :=
  redact_words sensitive_words (redact_urls content).

(** *** Observations on texts *)

(** The pattern matches at the start of [t]. *)
Definition hit (m : pystr -> option nat) (t : pystr) : bool :=
  match m t with
  | Some (S _) => true
  | _ => false
  end.

(** The pattern matches somewhere in [t]. *)
Fixpoint has_match (m : pystr -> option nat) (t : pystr) : bool :=
  match t with
  | [] => false
  | _ :: t' => hit m t || has_match m t'
  end.

(** The number of replacements [re_sub_from] makes ([re.subn]). *)
Fixpoint re_sub_count (m : pystr -> option nat) (skip : nat) (s : pystr) : nat :=
  match s with
  | [] => 0
  | _ :: s' =>
    match skip with
    | S k => re_sub_count m k s'
    | O =>
      match m s with
      | Some (S k) => S (re_sub_count m k s')
      | _ => re_sub_count m 0 s'
      end
    end
  end.

Definition starts_with (p s : pystr) : bool :=
  match strip_prefix p s with
  | Some _ => true
  | None => false
  end.

(** The number of places of [t] where the literal [p] stands. *)
Fixpoint count_occurrences (p t : pystr) : nat :=
  match t with
  | [] => 0
  | _ :: t' => (if starts_with p t then 1 else 0) + count_occurrences p t'
  end.

Definition token_count (t : pystr) : nat := count_occurrences redaction t.

(** The number of replacements [redact_words] makes: those of each word,
    in the text left by the words before it. *)
Fixpoint redactions (words : list pystr) (text : pystr) : nat :=
  match words with
  | [] => 0
  | w :: ws => re_sub_count (word_match w) 0 text + redactions ws (redact_word text w)
  end.

(** The number of places of [t] where the pattern matches. *)
Fixpoint count_hits (m : pystr -> option nat) (t : pystr) : nat :=
  match t with
  | [] => 0
  | _ :: t' => (if hit m t then 1 else 0) + count_hits m t'
  end.

(** The occurrences of the sensitive words in [t], each word counted on
    its own. *)
Definition word_occurrences (t : pystr) : nat :=
  list_sum (map (fun w => count_hits (word_match w) t) sensitive_words).

(** [u] starts with [http://] or [https://] and the redaction token. *)
Definition url_before_token (u : pystr) : Prop :=
  exists rest,
    u = py "http://" ++ redaction ++ rest \/ u = py "https://" ++ redaction ++ rest.

(** The URL pattern matches in [t] only where a redaction token follows
    [http://] or [https://]. *)
Definition urls_only_before_tokens (t : pystr) : Prop :=
  forall j, hit url_match (skipn j t) = true -> url_before_token (skipn j t).

(** No character of the redaction token is matched by [p]. *)
Definition fresh_char (p : N) : bool :=
  forallb (fun x => negb (ci_char p x)) redaction.

(** A word that is not empty and none of whose characters matches a
    character of the redaction token. *)
Definition good_word (w : pystr) : bool :=
  match w with
  | [] => false
  | _ => forallb fresh_char w
  end.

(** ** The summarizer and its world *)

Record ReadmeInfo : Type := mkReadmeInfo {
  repo_name : pystr;
  file_path : pystr;
  content : pystr;
  metadata : list (pystr * pystr)
}.

Inductive llm_provider : Type := ZhipuAI | OpenAI.

Record llm_client : Type := mkClient {
  provider : llm_provider;
  client_api_key : pystr;
  client_base_url : option pystr
}.

Record summarizer : Type := mkSummarizer {
  llm_type : pystr;
  client : option llm_client;   (* [None]: the attribute was never set *)
  readme_db_path : pystr;
  summary_output_path : pystr
}.

Inductive event : Type :=
| EvGetenv (name : pystr)
| EvMkdir (path : pystr)
| EvChat (c : llm_client) (model prompt : pystr)
| EvJsonDump (path : pystr) (data : json).

(** [str.isspace] *)
Definition is_space (c : N) : bool :=
  in_range 9 13 c || in_range 28 32 c || (c =? 133)%N || (c =? 160)%N
  || (c =? 5760)%N || in_range 8192 8202 c || (c =? 8232)%N || (c =? 8233)%N
  || (c =? 8239)%N || (c =? 8287)%N || (c =? 12288)%N.

Fixpoint lstrip (s : pystr) : pystr :=
  match s with
  | c :: s' => if is_space c then lstrip s' else s
  | [] => []
  end.

(** [s.strip()] *)
Definition py_strip (s : pystr) : pystr := rev (lstrip (rev (lstrip s))).

Section World.

(** [os.getenv] after [load_dotenv()] *)
Variable os_getenv : pystr -> option pystr.
(** [Path.mkdir(parents=True, exist_ok=True)]; [None] when it succeeds *)
Variable path_mkdir : pystr -> option exn.
(** [client.chat.completions.create(model=..., messages=[{"role": "user",
    "content": prompt}], temperature=0.3, max_tokens=300)]: the [content]
    of the message of each choice of the response *)
Variable chat_completions_create :
  llm_client -> pystr -> pystr -> outcome (list (option pystr)).
(** [json.dump(data, open(path, 'w'))] *)
Variable json_dump : pystr -> json -> option exn.
(** What [read_readme_files()] finds in the README directory *)
Variable read_readme_files : list ReadmeInfo.
(** [str(Path().resolve())] *)
Variable cwd : pystr.

Definition unit_outcome (o : option exn) : outcome unit :=
  match o with
  | None => Returned tt
  | Some e => Raised e
  end.

(** [api_key or os.getenv(var)], then the check [if not api_key]. *)
Definition resolve_api_key (api_key : option pystr) (var message : pystr)
  : M event pystr :=
  match api_key with
  | Some (c :: k) => ret (c :: k)
  | _ =>
    v <- call (EvGetenv var) (Returned (os_getenv var)) ;;
    match v with
    | Some (c :: k) => ret (c :: k)
    | _ => raise (mkExn ValueError message)
    end
  end.

(** [setup_llm]: the client it stores in [self.client], if any. *)
Definition setup_llm (llm_type : pystr) (api_key : option pystr)
  : M event (option llm_client) :=
  if pystr_eqb llm_type (py "zhipuai") then
    key <- resolve_api_key api_key (py "ZHIPUAI_API_KEY")
             (py "请在.env文件中设置ZHIPUAI_API_KEY或传入api_key参数") ;;
    ret (Some {| provider := ZhipuAI; client_api_key := key; client_base_url := None |})
  else if pystr_eqb llm_type (py "openai") then
    key <- resolve_api_key api_key (py "OPENAI_API_KEY")
             (py "请在.env文件中设置OPENAI_API_KEY或传入api_key参数") ;;
    ret (Some {| provider := OpenAI; client_api_key := key;
                 client_base_url := Some (py "https://api.chatanywhere.tech/v1") |})
  else ret None.

Definition init (llm_type : pystr) (api_key : option pystr) : M event summarizer :=
  c <- setup_llm llm_type api_key ;;
  call (EvMkdir (py "knowledge_db/readme_summary"))
       (unit_outcome (path_mkdir (py "knowledge_db/readme_summary"))) ;;;
  ret {| llm_type := llm_type;
         client := c;
         readme_db_path := py "database/readme_db";
         summary_output_path := py "knowledge_db/readme_summary" |}.

(** *** generate_summary *)

Definition summary_prompt (content : pystr) : pystr :=
  py "
请为以下README内容生成一个简洁的摘要，要求：
1. 摘要长度不超过200字
2. 提炼项目的核心内容
3. 使用中文输出
4. 保持专业性和准确性

README内容：
" ++ content ++ py "

请生成摘要：
".

(** [self.client] *)
Definition self_client (self : summarizer) : M event llm_client :=
  match client self with
  | Some c => ret c
  | None =>
    raise (mkExn AttributeError (py "'ReadmeSummarizer' object has no attribute 'client'"))
  end.

(** [response.choices[0].message.content.strip()] *)
Definition first_choice_stripped (choices : list (option pystr)) : M event pystr :=
  match choices with
  | [] => raise (mkExn IndexError (py "list index out of range"))
  | None :: _ =>
    raise (mkExn AttributeError (py "'NoneType' object has no attribute 'strip'"))
  | Some text :: _ => ret (py_strip text)
  end.

(** The [try] block of [generate_summary_zhipuai] and
    [generate_summary_openai]; the two differ in the model they name. *)
Definition llm_request (self : summarizer) (model content : pystr) : M event pystr :=
  c <- self_client self ;;
  choices <- call (EvChat c model (summary_prompt content))
                  (chat_completions_create c model (summary_prompt content)) ;;
  first_choice_stripped choices.

Definition failure_summary (e : exn) : pystr := py "摘要生成失败: " ++ exn_str e.

Definition generate_summary_zhipuai (self : summarizer) (content : pystr)
  : M event pystr :=
  try_except (llm_request self (py "glm-4") content)
    any_exception (fun e => ret (failure_summary e)).

Definition generate_summary_openai (self : summarizer) (content : pystr)
  : M event pystr :=
  try_except (llm_request self (py "gpt-3.5-turbo") content)
    any_exception (fun e => ret (failure_summary e)).

Definition generate_summary (self : summarizer) (content : pystr) : M event pystr :=
  if pystr_eqb (llm_type self) (py "zhipuai") then generate_summary_zhipuai self content
  else if pystr_eqb (llm_type self) (py "openai") then generate_summary_openai self content
  else raise (mkExn ValueError (py "不支持的LLM类型: " ++ llm_type self)).

(** *** save_summary and process_all_readmes *)

Definition summary_data (self : summarizer) (name summary : pystr)
  (meta : list (pystr * pystr)) : json :=
  JObj [(py "repo_name", JStr name);
        (py "summary", JStr summary);
        (py "metadata", JObj (map (fun kv => (fst kv, JStr (snd kv))) meta));
        (py "generated_at", JStr cwd);
        (py "llm_type", JStr (llm_type self))].

Definition summary_file (self : summarizer) (name : pystr) : pystr :=
  os_path_join (summary_output_path self) (name ++ py "_summary.json").

Definition save_summary (self : summarizer) (name summary : pystr)
  (meta : list (pystr * pystr)) : M event unit :=
  try_except
    (call (EvJsonDump (summary_file self name) (summary_data self name summary meta))
          (unit_outcome
             (json_dump (summary_file self name) (summary_data self name summary meta))))
    any_exception
    (fun _ => ret tt).

(** The [try] block of the body of [for readme_info in readme_files]. *)
Definition process_body (self : summarizer) (success_count : nat) (info : ReadmeInfo)
  : M event nat :=
  let filtered_content := filter_content (content info) in
  summary <- generate_summary self filtered_content ;;
  save_summary self (repo_name info) summary (metadata info) ;;;
  ret (S success_count).

Definition process_one (self : summarizer) (success_count : nat) (info : ReadmeInfo)
  : M event nat :=
  try_except (process_body self success_count info)
    any_exception (fun _ => ret success_count).

Fixpoint process_loop (self : summarizer) (success_count : nat)
  (readme_files : list ReadmeInfo) : M event nat :=
  match readme_files with
  | [] => ret success_count
  | info :: rest =>
    n <- process_one self success_count info ;;
    process_loop self n rest
  end.

(** [process_all_readmes] returns nothing; the model returns the two
    numbers of its closing log line (successes, files), and [None] when it
    leaves early because no README was found. *)
Definition process_all_readmes (self : summarizer) : M event (option (nat * nat)) :=
  match read_readme_files with
  | [] => ret None
  | readme_files =>
    n <- process_loop self 0 readme_files ;;
    ret (Some (n, length readme_files))
  end.

(** ** Properties of the summarizer *)

(** The model named by the backend that [generate_summary] selects. *)
Definition model_of (self : summarizer) : pystr :=
  if pystr_eqb (llm_type self) (py "zhipuai") then py "glm-4" else py "gpt-3.5-turbo".

Definition supported (self : summarizer) : Prop :=
  llm_type self = py "zhipuai" \/ llm_type self = py "openai".

Lemma generate_summary_supported : forall self content,
  supported self ->
  generate_summary self content
  = try_except (llm_request self (model_of self) content)
      any_exception (fun e => ret (failure_summary e)).
Proof.
  intros self content [H | H]; unfold generate_summary, model_of; rewrite H; reflexivity.
Qed.

(** With a supported backend [generate_summary] never raises. *)
Lemma generate_summary_total : forall self content,
  supported self ->
  exists summary t, generate_summary self content = (Ok summary, t).
Proof.
  intros self content Hs. rewrite (generate_summary_supported self content Hs).
  unfold llm_request, self_client.
  destruct (client self) as [c |]; [| eexists; eexists; reflexivity].
  cbn [bind ret].
  destruct (chat_completions_create c (model_of self) (summary_prompt content))
    as [choices | e]; [| eexists; eexists; reflexivity].
  destruct choices as [|[text |] rest]; eexists; eexists; reflexivity.
Qed.

(** What processing one README adds to the trace, and whether it counts as
    a success. *)
Definition item_trace (self : summarizer) (info : ReadmeInfo) : list event :=
  snd (process_one self 0 info).

Definition processedb (self : summarizer) (info : ReadmeInfo) : bool :=
  match fst (process_one self 0 info) with
  | Ok (S _) => true
  | _ => false
  end.

Lemma save_summary_total : forall self name summary meta,
  save_summary self name summary meta
  = (Ok tt, [EvJsonDump (summary_file self name) (summary_data self name summary meta)]).
Proof.
  intros self name summary meta. unfold save_summary.
  destruct (json_dump _ _); reflexivity.
Qed.

Lemma generate_summary_finishes : forall self content,
  exists t,
    (exists summary, generate_summary self content = (Ok summary, t))
    \/ (exists e, generate_summary self content = (Raise e, t)).
Proof.
  intros self content. unfold generate_summary.
  destruct (pystr_eqb (llm_type self) (py "zhipuai")) eqn:Hz;
    [| destruct (pystr_eqb (llm_type self) (py "openai")) eqn:Ho].
  - apply pystr_eqb_eq in Hz.
    destruct (generate_summary_total self content (or_introl Hz)) as (summary & t & H).
    rewrite (generate_summary_supported self content (or_introl Hz)) in H.
    unfold generate_summary_zhipuai. unfold model_of in H. rewrite Hz in H.
    exists t. left. exists summary. exact H.
  - apply pystr_eqb_eq in Ho.
    destruct (generate_summary_total self content (or_intror Ho)) as (summary & t & H).
    rewrite (generate_summary_supported self content (or_intror Ho)) in H.
    unfold generate_summary_openai. unfold model_of in H. rewrite Hz in H.
    exists t. left. exists summary. exact H.
  - exists []. right. eexists. reflexivity.
Qed.

Lemma process_one_eq : forall self n info,
  process_one self n info
  = (Ok (if processedb self info then S n else n), item_trace self info).
Proof.
  intros self n info. unfold processedb, item_trace, process_one, process_body.
  destruct (generate_summary_finishes self (filter_content (content info)))
    as (t & [(summary & H) | (e & H)]); rewrite H;
    cbn [bind]; try rewrite !save_summary_total; reflexivity.
Qed.

Lemma process_loop_spec : forall self infos n,
  process_loop self n infos
  = (Ok (n + length (filter (processedb self) infos)), flat_map (item_trace self) infos).
Proof.
  intros self infos. induction infos as [|info infos IH]; intro n.
  - cbn. rewrite Nat.add_0_r. reflexivity.
  - cbn [process_loop flat_map filter]. rewrite process_one_eq. cbn [bind].
    rewrite IH. destruct (processedb self info); cbn [length]; f_equal; f_equal; lia.
Qed.

(** Error isolation in the summarizer's batch loop: every README of the
    list is processed, in order, and the count is the number of documents
    whose [try] block ran to its end. *)
Lemma process_loop_isolation : forall self infos,
  process_loop self 0 infos
  = (Ok (length (filter (processedb self) infos)), flat_map (item_trace self) infos)
  /\ (forall info,
        In info infos ->
        processedb self info = true <-> exists t, process_body self 0 info = (Ok 1, t))
  /\ (forall info n e,
        In info infos ->
        fst (process_body self n info) = Raise e ->
        process_one self n info = (Ok n, snd (process_body self n info))).
Proof.
  intros self infos. split; [|split].
  - apply process_loop_spec.
  - intros info _. unfold processedb, process_one, process_body.
    destruct (generate_summary_finishes self (filter_content (content info)))
      as (t & [(summary & H) | (e & H)]); rewrite H; cbn [bind];
      try rewrite !save_summary_total; cbn.
    + split; [intros _; eexists; reflexivity | reflexivity].
    + split; [discriminate | intros (t' & Ht'); discriminate].
  - intros info n e _ Hraise. unfold process_one.
    destruct (process_body self n info) as [r t]. cbn [fst] in Hraise. subst r.
    cbn. rewrite app_nil_r. reflexivity.
Qed.

Lemma process_all_readmes_trace : forall self,
  snd (process_all_readmes self) = flat_map (item_trace self) read_readme_files.
Proof.
  intro self. unfold process_all_readmes.
  destruct read_readme_files as [|info infos] eqn:E; [reflexivity|].
  rewrite process_loop_spec. cbn [bind ret snd]. rewrite app_nil_r. reflexivity.
Qed.


(** C10. For a backend name other than [zhipuai] and [openai], [setup_llm]
    looks up no credential, raises nothing and stores no client; the
    constructor goes through (given that the output directory can be
    created), and every call of [generate_summary] on the instance raises a
    [ValueError] whose message names the backend. *)
Theorem unsupported_llm_type :
  forall (name : pystr) (api_key : option pystr),
    name <> py "zhipuai" ->
    name <> py "openai" ->
    path_mkdir (py "knowledge_db/readme_summary") = None ->
    setup_llm name api_key = (Ok None, [])
    /\ exists self,
        init name api_key = (Ok self, [EvMkdir (py "knowledge_db/readme_summary")])
        /\ client self = None
        /\ llm_type self = name
        /\ forall content,
            generate_summary self content
            = (Raise (mkExn ValueError (py "不支持的LLM类型: " ++ name)), []).
Proof.
  intros name api_key Hz Ho Hmk.
  apply pystr_eqb_neq in Hz. apply pystr_eqb_neq in Ho.
  assert (Hsetup : setup_llm name api_key = (Ok None, [])).
  { unfold setup_llm. rewrite Hz, Ho. reflexivity. }
  split; [exact Hsetup|].
  eexists. unfold init. rewrite Hsetup. cbn [bind]. rewrite Hmk. cbn.
  split; [reflexivity|]. split; [reflexivity|]. split; [reflexivity|].
  intro content0. unfold generate_summary. cbn [llm_type]. rewrite Hz, Ho. reflexivity.
Qed.

End World.

(** ** Properties of filter_content *)

Section ReSub.

Variable m : pystr -> option nat.
Variable repl : pystr.

Lemma re_sub_from_skipn : forall s k,
  re_sub_from m repl k s = re_sub m repl (skipn k s).
Proof.
  induction s as [|c s IH]; intro k.
  - destruct k; reflexivity.
  - destruct k as [|k]; [reflexivity|]. cbn [re_sub_from skipn]. apply IH.
Qed.

Lemma re_sub_cons : forall c s,
  re_sub m repl (c :: s)
  = if hit m (c :: s)
    then repl ++ re_sub m repl (skipn (pred (match m (c :: s) with
                                            | Some n => n
                                            | None => 0
                                            end)) s)
    else c :: re_sub m repl s.
Proof.
  intros c s. unfold re_sub at 1, hit. cbn [re_sub_from].
  destruct (m (c :: s)) as [[|k] |]; try reflexivity.
  cbn [pred]. rewrite re_sub_from_skipn. reflexivity.
Qed.

(** A character of the output that is not the first of the replacement
    was copied from the input. *)
Lemma re_sub_peel : forall r0 rs a s u,
  repl = r0 :: rs -> a <> r0 ->
  re_sub m repl s = a :: u ->
  exists s', s = a :: s' /\ hit m s = false /\ u = re_sub m repl s'.
Proof.
  intros r0 rs a s u Hrepl Ha H. destruct s as [|c s]; [discriminate|].
  rewrite re_sub_cons in H. destruct (hit m (c :: s)) eqn:Hhit.
  - rewrite Hrepl in H. inversion H. congruence.
  - inversion H; subst. exists s. repeat split.
Qed.

Lemma re_sub_peel_list : forall r0 rs u s rest,
  repl = r0 :: rs -> (forall a, In a u -> a <> r0) ->
  re_sub m repl s = u ++ rest ->
  exists s', s = u ++ s' /\ rest = re_sub m repl s'.
Proof.
  intros r0 rs u. induction u as [|a u IH]; intros s rest Hrepl Hu H.
  - exists s. split; [reflexivity | symmetry; exact H].
  - destruct (re_sub_peel r0 rs a s (u ++ rest) Hrepl (Hu a (or_introl eq_refl)) H)
      as (s1 & -> & _ & Hrest).
    destruct (IH s1 rest Hrepl (fun b Hb => Hu b (or_intror Hb)) (eq_sym Hrest))
      as (s2 & -> & Hr).
    exists s2. split; [reflexivity | exact Hr].
Qed.

End ReSub.

(** *** The URL step *)

Lemma strip_prefix_app : forall p s r, strip_prefix p s = Some r -> s = p ++ r.
Proof.
  induction p as [|x p IH]; intros s r H.
  - inversion H. reflexivity.
  - destruct s as [|y s]; [discriminate|]. simpl in H.
    destruct (x =? y)%N eqn:E; [|discriminate].
    apply N.eqb_eq in E. subst y. rewrite (IH s r H). reflexivity.
Qed.

Lemma strip_prefix_refl : forall p r, strip_prefix p (p ++ r) = Some r.
Proof.
  induction p as [|x p IH]; intro r; [reflexivity|].
  simpl. rewrite N.eqb_refl. apply IH.
Qed.

(** A URL stands at the start of [s]: [http://] or [https://] and at least
    one URL character. *)
Definition url_at (s : pystr) : Prop :=
  exists x rest,
    url_char x = true
    /\ (s = py "http://" ++ x :: rest \/ s = py "https://" ++ x :: rest).

Lemma url_tail_some : forall n s k,
  url_tail n s = Some k ->
  exists x rest, url_char x = true /\ s = py "://" ++ x :: rest.
Proof.
  intros n s k H. unfold url_tail in H.
  destruct (strip_prefix (py "://") s) as [body |] eqn:Hp; [|discriminate].
  apply strip_prefix_app in Hp. subst s.
  destruct body as [|x rest]; [discriminate|]. simpl in H.
  destruct (url_char x) eqn:Hx; [|discriminate].
  exists x, rest. split; [exact Hx | reflexivity].
Qed.

Lemma url_tail_url : forall n x rest,
  url_char x = true ->
  exists k, url_tail n (py "://" ++ x :: rest) = Some (n + 3 + S k).
Proof.
  intros n x rest Hx. unfold url_tail. rewrite strip_prefix_refl.
  cbn [run_length]. rewrite Hx. eexists. reflexivity.
Qed.

Lemma hit_url_match : forall s, hit url_match s = true <-> url_at s.
Proof.
  intro s. unfold hit. split.
  - intro H. unfold url_match in H.
    destruct (strip_prefix (py "http") s) as [r |] eqn:Hp; [|discriminate].
    apply strip_prefix_app in Hp. subst s.
    assert (Hplain : forall k, url_tail 4 r = Some k -> url_at (py "http" ++ r)).
    { intros k Hk. destruct (url_tail_some 4 r k Hk) as (x & rest & Hx & ->).
      exists x, rest. split; [exact Hx | left; reflexivity]. }
    destruct r as [|c r]; [destruct (url_tail 4 []) eqn:E; [eauto | discriminate]|].
    destruct (N.eq_dec c 115) as [-> | Hc].
    + destruct (url_tail 5 r) as [k |] eqn:E5.
      * destruct (url_tail_some 5 r k E5) as (x & rest & Hx & ->).
        exists x, rest. split; [exact Hx | right; reflexivity].
      * destruct (url_tail 4 (115%N :: r)) as [k |] eqn:E4; [eauto | discriminate].
    + assert (E : match c :: r with
                  | 115%N :: r' =>
                    match url_tail 5 r' with
                    | Some n => Some n
                    | None => url_tail 4 (115%N :: r')
                    end
                  | _ => url_tail 4 (c :: r)
                  end = url_tail 4 (c :: r)).
      { destruct c as [|p]; [reflexivity|].
        do 7 (try destruct p as [p | p |]; try reflexivity). congruence. }
      cbv zeta in H. rewrite E in H.
      destruct (url_tail 4 (c :: r)) as [k |] eqn:E4; [eauto | discriminate].
  - intros (x & rest & Hx & [-> | ->]).
    + destruct (url_tail_url 4 x rest Hx) as (k & Hk).
      change (py "http://" ++ x :: rest) with (py "http" ++ (py "://" ++ x :: rest)).
      unfold url_match. rewrite strip_prefix_refl.
      change (py "://" ++ x :: rest) with (58%N :: 47%N :: 47%N :: x :: rest) in *.
      cbv iota. rewrite Hk. replace (4 + 3 + S k) with (S (7 + k)) by lia. reflexivity.
    + destruct (url_tail_url 5 x rest Hx) as (k & Hk).
      change (py "https://" ++ x :: rest)
        with (py "http" ++ 115%N :: (py "://" ++ x :: rest)).
      unfold url_match. rewrite strip_prefix_refl. cbv iota. rewrite Hk.
      replace (5 + 3 + S k) with (S (8 + k)) by lia. reflexivity.
Qed.

Lemma hit_url_first : forall c s, hit url_match (c :: s) = true -> c = 104%N.
Proof.
  intros c s H. apply hit_url_match in H.
  destruct H as (x & rest & _ & [H | H]); inversion H; reflexivity.
Qed.

(** Where the input has no URL at the scanned place, the output has none
    at the corresponding place. *)
Lemma redact_urls_no_new_match : forall c s,
  hit url_match (c :: s) = false ->
  hit url_match (c :: redact_urls s) = false.
Proof.
  intros c s Hmiss.
  destruct (hit url_match (c :: redact_urls s)) eqn:Hhit; [|reflexivity].
  exfalso. apply hit_url_match in Hhit.
  destruct Hhit as (x & rest & Hx & Hshape).
  assert (Hfirst : forall t y tl,
             redact_urls t = y :: tl -> url_char y = true ->
             exists y' tl', t = y' :: tl' /\ url_char y' = true).
  { intros t y tl Ht Hy. destruct t as [|d t]; [discriminate|].
    unfold redact_urls in Ht. rewrite re_sub_cons in Ht.
    destruct (hit url_match (d :: t)) eqn:Hd.
    - apply hit_url_first in Hd. subst d. exists 104%N, t. split; reflexivity.
    - inversion Ht; subst. exists y, t. split; [reflexivity | exact Hy]. }
  assert (Hcontra : url_at (c :: s)); [| apply hit_url_match in Hcontra; congruence].
  destruct Hshape as [H | H].
  - change (py "http://" ++ x :: rest)
      with (104%N :: (116%N :: 116%N :: 112%N :: 58%N :: 47%N :: [47%N]) ++ x :: rest)
      in H.
    inversion H as [[Hc Hs]]. clear H.
    destruct (re_sub_peel_list url_match url_token 91%N (tl url_token)
                (116%N :: 116%N :: 112%N :: 58%N :: 47%N :: [47%N]) s (x :: rest)
                eq_refl) as (s' & -> & Hrest).
    { intros a Ha. simpl in Ha.
      repeat (destruct Ha as [<- | Ha]; [discriminate|]). destruct Ha. }
    { exact Hs. }
    destruct (Hfirst s' x rest (eq_sym Hrest) Hx) as (y & tl' & -> & Hy).
    exists y, tl'. split; [exact Hy | left; reflexivity].
  - change (py "https://" ++ x :: rest)
      with (104%N :: (116%N :: 116%N :: 112%N :: 115%N :: 58%N :: 47%N :: [47%N])
                     ++ x :: rest) in H.
    inversion H as [[Hc Hs]]. clear H.
    destruct (re_sub_peel_list url_match url_token 91%N (tl url_token)
                (116%N :: 116%N :: 112%N :: 115%N :: 58%N :: 47%N :: [47%N]) s
                (x :: rest) eq_refl) as (s' & -> & Hrest).
    { intros a Ha. simpl in Ha.
      repeat (destruct Ha as [<- | Ha]; [discriminate|]). destruct Ha. }
    { exact Hs. }
    destruct (Hfirst s' x rest (eq_sym Hrest) Hx) as (y & tl' & -> & Hy).
    exists y, tl'. split; [exact Hy | right; reflexivity].
Qed.

Lemma has_match_url_token : forall t,
  has_match url_match (url_token ++ t) = has_match url_match t.
Proof.
  intro t.
  change (url_token ++ t) with (91%N :: 85%N :: 82%N :: 76%N :: 93%N :: t).
  cbn [has_match].
  repeat match goal with
         | |- context [hit url_match (?c :: ?r)] =>
           let H := fresh in
           destruct (hit url_match (c :: r)) eqn:H;
           [apply hit_url_first in H; discriminate|]
         end.
  reflexivity.
Qed.

(** After the URL step no URL is left. *)
Lemma redact_urls_clean : forall s, has_match url_match (redact_urls s) = false.
Proof.
  assert (H : forall s k,
             has_match url_match (re_sub_from url_match url_token k s) = false).
  { induction s as [|c s IH]; intro k; [reflexivity|].
    destruct k as [|k]; [| apply IH].
    cbn [re_sub_from].
    destruct (url_match (c :: s)) as [[|n] |] eqn:Hm.
    - cbn [has_match]. rewrite IH, orb_false_r.
      apply redact_urls_no_new_match. unfold hit. rewrite Hm. reflexivity.
    - rewrite has_match_url_token. apply IH.
    - cbn [has_match]. rewrite IH, orb_false_r.
      apply redact_urls_no_new_match. unfold hit. rewrite Hm. reflexivity. }
  intro s. apply H.
Qed.

(** *** The sensitive-word step *)

Lemma sensitive_words_good : forallb good_word sensitive_words = true.
Proof. vm_compute. reflexivity. Qed.

Lemma good_word_fresh : forall w p x,
  good_word w = true -> In p w -> In x redaction -> ci_char p x = false.
Proof.
  intros w p x Hw Hp Hx. destruct w as [|p0 w]; [discriminate|].
  unfold good_word in Hw. rewrite forallb_forall in Hw.
  specialize (Hw p Hp). unfold fresh_char in Hw. rewrite forallb_forall in Hw.
  specialize (Hw x Hx). apply negb_true_iff in Hw. exact Hw.
Qed.

Lemma hit_word : forall w s,
  good_word w = true -> hit (word_match w) s = ci_prefix w s.
Proof.
  intros w s Hw. unfold hit, word_match.
  destruct w as [|p w]; [discriminate|].
  destruct (ci_prefix (p :: w) s); reflexivity.
Qed.

Lemma good_word_length : forall w,
  good_word w = true -> length w = S (pred (length w)).
Proof. intros w H. destruct w; [discriminate | reflexivity]. Qed.

Lemma word_match_good : forall w s,
  good_word w = true ->
  word_match w s = if ci_prefix w s then Some (S (pred (length w))) else None.
Proof. intros w s H. destruct w; [discriminate | reflexivity]. Qed.

(** A word never matches at a character of the redaction token. *)
Lemma hit_word_token_char : forall w x s,
  good_word w = true -> In x redaction -> hit (word_match w) (x :: s) = false.
Proof.
  intros w x s Hw Hx. rewrite (hit_word w (x :: s) Hw).
  destruct w as [|p w]; [discriminate|]. cbn [ci_prefix].
  rewrite (good_word_fresh (p :: w) p x Hw (or_introl eq_refl) Hx). reflexivity.
Qed.

Section OneWord.

(** The word being replaced. *)
Variable w' : pystr.
Hypothesis good' : good_word w' = true.

Lemma redaction_head : redaction = 91%N :: tl redaction.
Proof. reflexivity. Qed.

(** A match of [w] in the output of a replacement step was already a match
    in its input: the characters it covers are copied ones. *)
Lemma ci_prefix_re_sub : forall w t,
  (forall p, In p w -> ci_char p 91 = false) ->
  ci_prefix w (re_sub (word_match w') redaction t) = true ->
  ci_prefix w t = true.
Proof.
  induction w as [|p w IH]; intros t Hw H; [reflexivity|].
  destruct (re_sub (word_match w') redaction t) as [|x u] eqn:Hr; [discriminate|].
  cbn [ci_prefix] in H. apply andb_true_iff in H. destruct H as [Hpx Hrest].
  assert (Hx : x <> 91%N).
  { intro E. subst x. rewrite (Hw p (or_introl eq_refl)) in Hpx. discriminate. }
  destruct (re_sub_peel (word_match w') redaction 91%N (tl redaction) x t u
              redaction_head Hx Hr) as (t1 & -> & _ & ->).
  cbn [ci_prefix]. rewrite Hpx. cbn [andb].
  apply IH; [| exact Hrest]. intros q Hq. apply Hw. right. exact Hq.
Qed.

Lemma has_match_token : forall w t,
  good_word w = true ->
  has_match (word_match w) (redaction ++ t) = has_match (word_match w) t.
Proof.
  intros w t Hw.
  change (redaction ++ t)
    with (91%N :: 25935%N :: 24863%N :: 20449%N :: 24687%N :: 93%N :: t).
  cbn [has_match].
  rewrite !(hit_word_token_char w _ _ Hw); cbn [orb]; try reflexivity;
    (change redaction with [91%N; 25935%N; 24863%N; 20449%N; 24687%N; 93%N];
     cbn [In]; tauto).
Qed.

Lemma word_miss_skipn : forall w t j,
  good_word w = true ->
  has_match (word_match w) t = false -> ci_prefix w (skipn j t) = false.
Proof.
  intros w t j Hw. revert j. induction t as [|c t IH]; intros j H.
  - destruct w; [discriminate|]. destruct j; reflexivity.
  - cbn [has_match] in H. apply orb_false_iff in H. destruct H as [Hhit Hrest].
    destruct j as [|j]; [| apply IH; exact Hrest].
    cbn [skipn]. rewrite <- (hit_word w (c :: t) Hw). exact Hhit.
Qed.

(** If [w] matches in the text only where [w'] does, the text after the
    replacement of [w'] holds no match of [w]. *)
Lemma re_sub_covered_clean : forall w t k,
  good_word w = true ->
  (forall j, ci_prefix w (skipn j (skipn k t)) = true ->
             ci_prefix w' (skipn j (skipn k t)) = true) ->
  has_match (word_match w) (re_sub_from (word_match w') redaction k t) = false.
Proof.
  intros w t k Hw. revert k. induction t as [|c t IH]; intros k Hcov; [reflexivity|].
  destruct k as [|k]; [| apply IH; exact Hcov].
  assert (Hshift : forall n j,
             ci_prefix w (skipn j (skipn n t)) = true ->
             ci_prefix w' (skipn j (skipn n t)) = true).
  { intros n j H. specialize (Hcov (S (j + n))). cbn [skipn] in Hcov.
    rewrite <- !skipn_skipn in Hcov. apply Hcov. exact H. }
  cbn [re_sub_from]. rewrite (word_match_good w' (c :: t) good').
  destruct (ci_prefix w' (c :: t)) eqn:Hhit'.
  - rewrite (has_match_token w _ Hw). apply IH. apply Hshift.
  - cbn [has_match]. rewrite (IH 0 (Hshift 0)), orb_false_r.
    rewrite (hit_word w _ Hw).
    destruct (ci_prefix w (c :: re_sub_from (word_match w') redaction 0 t)) eqn:Hhit;
      [| reflexivity].
    exfalso.
    assert (Hin : ci_prefix w (c :: t) = true).
    { destruct w as [|p w]; [discriminate|]. cbn [ci_prefix] in Hhit |- *.
      apply andb_true_iff in Hhit. destruct Hhit as [Hpc Hrest]. rewrite Hpc. cbn [andb].
      apply ci_prefix_re_sub; [| exact Hrest].
      intros q Hq. apply (good_word_fresh (p :: w) q 91 Hw); [right; exact Hq|].
      left. reflexivity. }
    specialize (Hcov 0). cbn [skipn] in Hcov. rewrite (Hcov Hin) in Hhit'. discriminate.
Qed.

(** After the replacement of [w'] no match of [w'] is left. *)
Lemma redact_word_clean : forall t,
  has_match (word_match w') (redact_word t w') = false.
Proof.
  intro t. unfold redact_word, re_sub.
  apply re_sub_covered_clean; [exact good' | intros j H; exact H].
Qed.

(** The replacement of [w'] brings no match of another word [w]. *)
Lemma redact_word_keeps_clean : forall w t,
  good_word w = true ->
  has_match (word_match w) t = false ->
  has_match (word_match w) (redact_word t w') = false.
Proof.
  intros w t Hw Hclean. unfold redact_word, re_sub.
  apply re_sub_covered_clean; [exact Hw|].
  intros j H. cbn [skipn] in H. rewrite (word_miss_skipn w t j Hw Hclean) in H.
  discriminate.
Qed.

(** **** URLs after the replacement *)

Lemma re_sub_token : forall t,
  re_sub (word_match w') redaction (redaction ++ t)
  = redaction ++ re_sub (word_match w') redaction t.
Proof.
  intro t.
  change (redaction ++ t)
    with (91%N :: 25935%N :: 24863%N :: 20449%N :: 24687%N :: 93%N :: t).
  repeat (rewrite re_sub_cons, (hit_word_token_char w' _ _ good');
          [| change redaction with [91%N; 25935%N; 24863%N; 20449%N; 24687%N; 93%N];
             cbn [In]; tauto]).
  reflexivity.
Qed.

(** A URL of the output that starts at a copied character: the input
    had a URL there, or the step wrote a token right after [://]. *)
Lemma url_at_re_sub : forall c t,
  url_at (c :: re_sub (word_match w') redaction t) ->
  (url_at (c :: t) -> url_before_token (c :: t)) ->
  url_before_token (c :: re_sub (word_match w') redaction t).
Proof.
  intros c t Hurl Huse.
  assert (Hbody : forall t2 x rest,
             url_char x = true ->
             re_sub (word_match w') redaction t2 = x :: rest ->
             (exists r, x :: rest = redaction ++ r)
             \/ (exists t3, t2 = x :: t3 /\ rest = re_sub (word_match w') redaction t3)).
  { intros t2 x rest Hx Hr. destruct t2 as [|d t3]; [discriminate|].
    rewrite re_sub_cons in Hr.
    destruct (hit (word_match w') (d :: t3)).
    - left. eexists. symmetry. exact Hr.
    - right. inversion Hr; subst. exists t3. split; reflexivity. }
  destruct Hurl as (x & rest & Hx & [H | H]).
  - change (py "http://" ++ x :: rest)
      with (104%N :: (116%N :: 116%N :: 112%N :: 58%N :: 47%N :: [47%N]) ++ x :: rest)
      in H.
    inversion H as [[Hc Hs]]. clear H. subst c.
    assert (Hout := Hs).
    destruct (re_sub_peel_list (word_match w') redaction 91%N (tl redaction)
                (116%N :: 116%N :: 112%N :: 58%N :: 47%N :: [47%N]) t (x :: rest)
                eq_refl) as (t2 & -> & Hrest).
    { intros a Ha. simpl in Ha.
      repeat (destruct Ha as [<- | Ha]; [discriminate|]). destruct Ha. }
    { exact Hs. }
    destruct (Hbody t2 x rest Hx (eq_sym Hrest)) as [(r & Hr) | (t3 & -> & Ht3)].
    + exists r. left. rewrite Hout, Hr. reflexivity.
    + destruct Huse as (r & [Hr | Hr]).
      { exists x, t3. split; [exact Hx | left; reflexivity]. }
      * change (py "http://" ++ redaction ++ r)
          with (104%N :: (116%N :: 116%N :: 112%N :: 58%N :: 47%N :: [47%N])
                         ++ redaction ++ r) in Hr.
        assert (E : x :: t3 = redaction ++ r).
        { apply (f_equal (skipn 7)) in Hr. exact Hr. }
        exists (re_sub (word_match w') redaction r). left.
        rewrite Hout, Hrest, E, re_sub_token. reflexivity.
      * exfalso. cbn in Hr. inversion Hr.
  - change (py "https://" ++ x :: rest)
      with (104%N :: (116%N :: 116%N :: 112%N :: 115%N :: 58%N :: 47%N :: [47%N])
                     ++ x :: rest) in H.
    inversion H as [[Hc Hs]]. clear H. subst c.
    assert (Hout := Hs).
    destruct (re_sub_peel_list (word_match w') redaction 91%N (tl redaction)
                (116%N :: 116%N :: 112%N :: 115%N :: 58%N :: 47%N :: [47%N]) t
                (x :: rest) eq_refl) as (t2 & -> & Hrest).
    { intros a Ha. simpl in Ha.
      repeat (destruct Ha as [<- | Ha]; [discriminate|]). destruct Ha. }
    { exact Hs. }
    destruct (Hbody t2 x rest Hx (eq_sym Hrest)) as [(r & Hr) | (t3 & -> & Ht3)].
    + exists r. right. rewrite Hout, Hr. reflexivity.
    + destruct Huse as (r & [Hr | Hr]).
      { exists x, t3. split; [exact Hx | right; reflexivity]. }
      * exfalso. cbn in Hr. inversion Hr.
      * change (py "https://" ++ redaction ++ r)
          with (104%N :: (116%N :: 116%N :: 112%N :: 115%N :: 58%N :: 47%N :: [47%N])
                         ++ redaction ++ r) in Hr.
        assert (E : x :: t3 = redaction ++ r).
        { apply (f_equal (skipn 8)) in Hr. exact Hr. }
        exists (re_sub (word_match w') redaction r). right.
        rewrite Hout, Hrest, E, re_sub_token. reflexivity.
Qed.

(** The step adds no URL except where it writes a token after [://]. *)
Lemma re_sub_urls : forall t k,
  (forall j, hit url_match (skipn j (skipn k t)) = true ->
             url_before_token (skipn j (skipn k t))) ->
  forall j,
    hit url_match (skipn j (re_sub_from (word_match w') redaction k t)) = true ->
    url_before_token (skipn j (re_sub_from (word_match w') redaction k t)).
Proof.
  induction t as [|c t IH]; intros k Hcov j Hj.
  - destruct k, j; discriminate.
  - destruct k as [|k]; [| apply (IH k); assumption].
    assert (Hshift : forall n i,
               hit url_match (skipn i (skipn n t)) = true ->
               url_before_token (skipn i (skipn n t))).
    { intros n i H. specialize (Hcov (S (i + n))). cbn [skipn] in Hcov.
      rewrite <- !skipn_skipn in Hcov. apply Hcov. exact H. }
    revert Hj. cbn [re_sub_from]. rewrite (word_match_good w' (c :: t) good').
    destruct (ci_prefix w' (c :: t)).
    + change (redaction ++ re_sub_from (word_match w') redaction (pred (length w')) t)
        with (91%N :: 25935%N :: 24863%N :: 20449%N :: 24687%N :: 93%N
              :: re_sub_from (word_match w') redaction (pred (length w')) t).
      do 6 (destruct j as [|j];
            [cbn [skipn]; intro Hj; apply hit_url_first in Hj; discriminate|]).
      cbn [skipn]. apply IH, Hshift.
    + destruct j as [|j]; cbn [skipn]; [| apply (IH 0), Hshift].
      intro Hj. apply url_at_re_sub; [apply hit_url_match; exact Hj|].
      intro Hat. apply (Hcov 0). apply hit_url_match. exact Hat.
Qed.

Lemma redact_word_urls : forall t,
  urls_only_before_tokens t -> urls_only_before_tokens (redact_word t w').
Proof.
  intros t Ht j. unfold redact_word, re_sub. apply re_sub_urls. exact Ht.
Qed.

(** **** Counting the tokens *)

Lemma token_count_token : forall t,
  token_count (redaction ++ t) = S (token_count t).
Proof.
  intro t. unfold token_count.
  change (redaction ++ t)
    with (91%N :: 25935%N :: 24863%N :: 20449%N :: 24687%N :: 93%N :: t).
  cbn [count_occurrences].
  change (starts_with redaction
            (91%N :: 25935%N :: 24863%N :: 20449%N :: 24687%N :: 93%N :: t))
    with (starts_with redaction (redaction ++ t)).
  unfold starts_with at 1. rewrite strip_prefix_refl.
  reflexivity.
Qed.

Lemma token_count_other : forall x t,
  x <> 91%N -> token_count (x :: t) = token_count t.
Proof.
  intros x t Hx. unfold token_count. cbn [count_occurrences].
  unfold starts_with. change redaction with (91%N :: tl redaction).
  cbn [strip_prefix]. destruct (91 =? x)%N eqn:E; [| reflexivity].
  apply N.eqb_eq in E. congruence.
Qed.

(** The characters under a match hold no token. *)
Lemma token_count_match : forall w t,
  (forall p, In p w -> ci_char p 91 = false) ->
  ci_prefix w t = true ->
  token_count t = token_count (skipn (length w) t).
Proof.
  induction w as [|p w IH]; intros t Hw H; [reflexivity|].
  destruct t as [|x t]; [discriminate|]. cbn [ci_prefix] in H.
  apply andb_true_iff in H. destruct H as [Hpx Hrest].
  cbn [length skipn]. rewrite token_count_other.
  - apply IH; [| exact Hrest]. intros q Hq. apply Hw. right. exact Hq.
  - intro E. subst x. rewrite (Hw p (or_introl eq_refl)) in Hpx. discriminate.
Qed.

(** The text after the first character of a token is the same before and
    after the replacement. *)
Lemma starts_with_re_sub : forall u t,
  (forall x, In x u -> In x redaction /\ x <> 91%N) ->
  starts_with u (re_sub (word_match w') redaction t) = starts_with u t.
Proof.
  induction u as [|x u IH]; intros t Hu; [reflexivity|].
  destruct (Hu x (or_introl eq_refl)) as [Hin Hx].
  destruct t as [|c t]; [reflexivity|].
  rewrite re_sub_cons. destruct (hit (word_match w') (c :: t)) eqn:Hhit.
  - rewrite redaction_head. unfold starts_with. cbn [app strip_prefix].
    destruct (x =? 91)%N eqn:E; [apply N.eqb_eq in E; congruence|].
    destruct (x =? c)%N eqn:E'; [| reflexivity].
    apply N.eqb_eq in E'. subst c.
    rewrite (hit_word_token_char w' x t good' Hin) in Hhit. discriminate.
  - unfold starts_with in *. cbn [strip_prefix].
    destruct (x =? c)%N; [| reflexivity].
    apply IH. intros y Hy. apply Hu. right. exact Hy.
Qed.

Lemma token_count_re_sub : forall t k,
  token_count (re_sub_from (word_match w') redaction k t)
  = token_count (skipn k t) + re_sub_count (word_match w') k t.
Proof.
  induction t as [|c t IH]; intro k; [destruct k; reflexivity|].
  destruct k as [|k]; [| apply IH].
  cbn [re_sub_from re_sub_count skipn]. rewrite (word_match_good w' (c :: t) good').
  destruct (ci_prefix w' (c :: t)) eqn:Hhit.
  - rewrite token_count_token, IH.
    rewrite (token_count_match w' (c :: t)); [| | exact Hhit].
    + pose proof (good_word_length w' good') as Hlen.
      destruct (length w') as [|n]; [discriminate|]. cbn [skipn pred]. lia.
    + intros q Hq. apply (good_word_fresh w' q 91 good' Hq). left. reflexivity.
  - specialize (IH 0). cbn [skipn] in IH.
    unfold token_count in *. cbn [count_occurrences]. rewrite IH.
    assert (Hsw : starts_with redaction (c :: re_sub_from (word_match w') redaction 0 t)
                  = starts_with redaction (c :: t)).
    { rewrite redaction_head. unfold starts_with. cbn [strip_prefix].
      destruct (91 =? c)%N; [| reflexivity].
      apply (starts_with_re_sub (tl redaction) t).
      intros x Hx. split; [right; exact Hx|].
      cbn in Hx. intro E. subst x.
      repeat (destruct Hx as [Hx | Hx]; [discriminate|]). destruct Hx. }
    rewrite Hsw. lia.
Qed.

Lemma token_count_redact_word : forall t,
  token_count (redact_word t w')
  = token_count t + re_sub_count (word_match w') 0 t.
Proof. intro t. unfold redact_word, re_sub. apply (token_count_re_sub t 0). Qed.

(** A match in the text makes at least one replacement, and without a
    replacement the text is unchanged. *)
Lemma re_sub_count_pos : forall t,
  has_match (word_match w') t = true -> 1 <= re_sub_count (word_match w') 0 t.
Proof.
  induction t as [|c t IH]; intro H; [discriminate|].
  cbn [has_match] in H. cbn [re_sub_count]. unfold hit in H.
  destruct (word_match w' (c :: t)) as [[|n] |]; cbn [orb] in H; try (apply IH; exact H).
  lia.
Qed.

Lemma re_sub_count_zero : forall t,
  re_sub_count (word_match w') 0 t = 0 -> redact_word t w' = t.
Proof.
  unfold redact_word, re_sub. induction t as [|c t IH]; intro H; [reflexivity|].
  cbn [re_sub_count] in H. cbn [re_sub_from].
  destruct (word_match w' (c :: t)) as [[|n] |]; try discriminate;
    rewrite (IH H); reflexivity.
Qed.

End OneWord.

(** **** The whole list of words *)

Lemma redact_words_clean : forall ws t w,
  forallb good_word ws = true ->
  good_word w = true ->
  In w ws \/ has_match (word_match w) t = false ->
  has_match (word_match w) (redact_words ws t) = false.
Proof.
  unfold redact_words.
  induction ws as [|w0 ws IH]; intros t w Hws Hw H.
  - destruct H as [[] | H]. exact H.
  - cbn [forallb] in Hws. apply andb_true_iff in Hws. destruct Hws as [Hw0 Hws].
    cbn [fold_left]. apply IH; [exact Hws | exact Hw |].
    destruct H as [[<- | Hin] | Hclean].
    + right. apply redact_word_clean. exact Hw0.
    + left. exact Hin.
    + right. apply redact_word_keeps_clean; assumption.
Qed.

Lemma redact_words_count : forall ws t,
  forallb good_word ws = true ->
  token_count (redact_words ws t) = token_count t + redactions ws t.
Proof.
  unfold redact_words.
  induction ws as [|w0 ws IH]; intros t Hws.
  - cbn [fold_left redactions]. lia.
  - cbn [forallb] in Hws. apply andb_true_iff in Hws. destruct Hws as [Hw0 Hws].
    cbn [fold_left redactions]. rewrite (IH _ Hws).
    rewrite (token_count_redact_word w0 Hw0). lia.
Qed.

Lemma redact_words_urls : forall ws t,
  forallb good_word ws = true ->
  urls_only_before_tokens t -> urls_only_before_tokens (redact_words ws t).
Proof.
  unfold redact_words.
  induction ws as [|w0 ws IH]; intros t Hws Ht; [exact Ht|].
  cbn [forallb] in Hws. apply andb_true_iff in Hws. destruct Hws as [Hw0 Hws].
  cbn [fold_left]. apply IH; [exact Hws|]. apply redact_word_urls; assumption.
Qed.

Lemma clean_urls_only : forall t,
  has_match url_match t = false -> urls_only_before_tokens t.
Proof.
  intros t Hclean j Hj. exfalso. revert j Hj.
  induction t as [|c t IH]; intros j Hj.
  - destruct j; discriminate.
  - cbn [has_match] in Hclean. apply orb_false_iff in Hclean.
    destruct Hclean as [Hc Ht]. destruct j as [|j].
    + cbn [skipn] in Hj. congruence.
    + exact (IH Ht j Hj).
Qed.

Lemma redactions_pos : forall ws t,
  (exists w, In w ws /\ has_match (word_match w) t = true) ->
  1 <= redactions ws t.
Proof.
  induction ws as [|w0 ws IH]; intros t (w & Hin & Hocc); [destruct Hin|].
  cbn [redactions].
  destruct (re_sub_count (word_match w0) 0 t) as [|n] eqn:Hcount; [| lia].
  cbn [Nat.add]. rewrite (re_sub_count_zero w0 t Hcount).
  apply IH. exists w. split; [| exact Hocc].
  destruct Hin as [<- | Hin]; [| exact Hin].
  pose proof (re_sub_count_pos w0 t Hocc). lia.
Qed.

(** C2 (amended). [filter_content] first replaces the URLs and then, word
    by word in list order and without regard to case, the sensitive words.
    The text after the URL step holds no match of the URL pattern, and the
    output matches it only at an [http://] or [https://] directly followed
    by a redaction token. If the text after the URL step holds a sensitive
    word, the output holds the redaction token; the output holds no
    sensitive word; and the number of redaction tokens of the output is the
    number already in the text after the URL step plus the number of
    replacements made, the occurrences of a word being the ones the scan
    finds in the text left by the words before it. *)
Theorem filter_content_redacts :
  forall content : pystr,
    filter_content content = redact_words sensitive_words (redact_urls content)
    /\ has_match url_match (redact_urls content) = false
    /\ urls_only_before_tokens (filter_content content)
    /\ ((exists w, In w sensitive_words
                   /\ has_match (word_match w) (redact_urls content) = true) ->
        1 <= token_count (filter_content content))
    /\ (forall w, In w sensitive_words ->
                  has_match (word_match w) (filter_content content) = false)
    /\ token_count (filter_content content)
       = token_count (redact_urls content)
         + redactions sensitive_words (redact_urls content).
Proof.
  intro content.
  assert (Hcount : token_count (filter_content content)
                   = token_count (redact_urls content)
                     + redactions sensitive_words (redact_urls content)).
  { apply redact_words_count. exact sensitive_words_good. }
  split; [reflexivity|]. split; [apply redact_urls_clean|].
  split; [|split; [|split]].
  - apply redact_words_urls; [exact sensitive_words_good|].
    apply clean_urls_only, redact_urls_clean.
  - intro Hocc. rewrite Hcount.
    pose proof (redactions_pos sensitive_words (redact_urls content) Hocc). lia.
  - intros w Hin. apply redact_words_clean.
    + exact sensitive_words_good.
    + pose proof sensitive_words_good as Hall. rewrite forallb_forall in Hall.
      apply Hall. exact Hin.
    + left. exact Hin.
  - exact Hcount.
Qed.

(** C2 as stated fails. A redaction token written directly after [http://]
    makes the output match the URL pattern again; and [api_key] holds two
    occurrences of listed words ([key] and [api_key]) but yields one
    token. *)
Lemma filter_content_counterexample :
  (has_match url_match (py "http://a.com http://密码") = true
   /\ filter_content (py "http://a.com http://密码") = py "[URL] http://[敏感信息]"
   /\ has_match url_match (filter_content (py "http://a.com http://密码")) = true)
  /\ (filter_content (py "api_key") = py "api_[敏感信息]"
      /\ word_occurrences (redact_urls (py "api_key")) = 2
      /\ token_count (filter_content (py "api_key")) = 1).
Proof. vm_compute. repeat split. Qed.

(** *** Concrete worlds *)

Definition demo_client : llm_client :=
  {| provider := OpenAI;
     client_api_key := py "sk";
     client_base_url := Some (py "https://api.chatanywhere.tech/v1") |}.

Definition demo_summarizer : summarizer :=
  {| llm_type := py "openai";
     client := Some demo_client;
     readme_db_path := py "database/readme_db";
     summary_output_path := py "knowledge_db/readme_summary" |}.

Definition demo_info : ReadmeInfo :=
  {| repo_name := py "a";
     file_path := py "database/readme_db/a/README.md";
     content := py "the key is at http://a.com";
     metadata := [(py "stars", py "7")] |}.

(** A language model that is out of reach. *)
Definition failing_chat (c : llm_client) (model prompt : pystr)
  : outcome (list (option pystr)) :=
  Raised (mkExn OtherException (py "Connection error.")).

Definition demo_dump (path : pystr) (data : json) : option exn := None.
Definition demo_getenv (name : pystr) : option pystr := None.
Definition demo_mkdir (path : pystr) : option exn := None.


Lemma unsupported_llm_type_witness :
  setup_llm demo_getenv (py "gemini") None = (Ok None, [])
  /\ exists self,
      init demo_getenv demo_mkdir (py "gemini") None
      = (Ok self, [EvMkdir (py "knowledge_db/readme_summary")])
      /\ generate_summary failing_chat self (py "text")
         = (Raise (mkExn ValueError (py "不支持的LLM类型: gemini")), []).
Proof.
  destruct (unsupported_llm_type demo_getenv demo_mkdir failing_chat (py "gemini") None)
    as (H1 & self & H2 & _ & _ & H3).
  - vm_compute. discriminate.
  - vm_compute. discriminate.
  - reflexivity.
  - split; [exact H1|]. exists self. split; [exact H2 | exact (H3 (py "text"))].
Defined.

End Summarizer.

(** * Error isolation in the two batch loops *)

Section BatchIsolation.

Variable requests_get : pystr -> dict -> dict -> outcome Collector.response.
Variable os_makedirs : pystr -> option exn.
Variable write_text : pystr -> pystr -> option exn.
Variable py_repr : json -> pystr.
Variable b64decode_utf8 : pystr -> outcome pystr.
Variable chat_completions_create :
  Summarizer.llm_client -> pystr -> pystr -> outcome (list (option pystr)).
Variable json_dump : pystr -> json -> option exn.
Variable cwd : pystr.

Abbreviation collect_loop :=
  (Collector.collect_loop requests_get os_makedirs write_text py_repr b64decode_utf8).
Abbreviation collect_one :=
  (Collector.collect_one requests_get os_makedirs write_text py_repr b64decode_utf8).
Abbreviation collect_body :=
  (Collector.collect_body requests_get os_makedirs write_text py_repr b64decode_utf8).
Abbreviation repo_trace :=
  (Collector.item_trace requests_get os_makedirs write_text py_repr b64decode_utf8).
Abbreviation collectedb :=
  (Collector.collectedb requests_get os_makedirs write_text py_repr b64decode_utf8).
Abbreviation process_loop := (Summarizer.process_loop chat_completions_create json_dump cwd).
Abbreviation process_one := (Summarizer.process_one chat_completions_create json_dump cwd).
Abbreviation process_body := (Summarizer.process_body chat_completions_create json_dump cwd).
Abbreviation readme_trace := (Summarizer.item_trace chat_completions_create json_dump cwd).
Abbreviation processedb := (Summarizer.processedb chat_completions_create json_dump cwd).

(** Error isolation where the code provides it. In the loop of
    [collect_all_readmes] over repository records that each are a JSON
    object with a name, and in the loop of [process_all_readmes] over
    README documents, an exception raised in the [try] block of one item
    ends that item's turn normally: the loop runs to its end, its
    trace is the concatenation of the traces of all the items in order, and
    the counters hold, for each item, its own outcome (one success or one
    failure per repository; one success per README whose block ran
    through). *)
Theorem batch_error_isolation :
  forall (collector : Collector.collector) (repos : list json)
         (summarizer : Summarizer.summarizer) (readmes : list Summarizer.ReadmeInfo),
    Forall Collector.has_name repos ->
    (exists st,
        collect_loop collector Collector.initial_state repos
        = (Ok st, flat_map (repo_trace collector) repos)
        /\ Collector.success_count st = length (filter (collectedb collector) repos)
        /\ Collector.failed_count st
           = length (filter (fun r => negb (collectedb collector r)) repos)
        /\ Collector.success_count st + Collector.failed_count st = length repos)
    /\ (forall repo,
          In repo repos ->
          collectedb collector repo = true
          <-> exists name path,
              Collector.collected requests_get os_makedirs write_text py_repr
                b64decode_utf8 collector repo name path)
    /\ (forall repo repo_name st e,
          In repo repos ->
          Collector.json_subscript repo (py "name") = (Ok repo_name, []) ->
          fst (collect_body collector st repo repo_name) = Raise e ->
          collect_one collector st repo
          = (Ok (Collector.failed_one st), snd (collect_body collector st repo repo_name)))
    /\ process_loop summarizer 0 readmes
       = (Ok (length (filter (processedb summarizer) readmes)),
          flat_map (readme_trace summarizer) readmes)
    /\ (forall info,
          In info readmes ->
          processedb summarizer info = true
          <-> exists t, process_body summarizer 0 info = (Ok 1, t))
    /\ (forall info n e,
          In info readmes ->
          fst (process_body summarizer n info) = Raise e ->
          process_one summarizer n info
          = (Ok n, snd (process_body summarizer n info))).
Proof.
  intros collector repos summarizer readmes Hnames.
  destruct (Collector.collect_loop_isolation requests_get os_makedirs write_text py_repr
              b64decode_utf8 collector repos Hnames) as (Hloop & Hmeaning & Hraise).
  destruct (Summarizer.process_loop_isolation chat_completions_create json_dump cwd
              summarizer readmes) as (Hploop & Hpmeaning & Hpraise).
  split; [exact Hloop|]. split; [exact Hmeaning|]. split; [exact Hraise|].
  split; [exact Hploop|]. split; [exact Hpmeaning | exact Hpraise].
Qed.

End BatchIsolation.

(** A batch in which the second repository has no README and the write of
    the first one fails, and a README whose summary cannot be generated. *)
Definition failing_write (path content : pystr) : option exn :=
  Some (mkExn OSError (py "No space left on device")).

Lemma batch_error_isolation_witness :
  (exists st,
      Collector.collect_loop Collector.demo_get Collector.demo_ok1 failing_write
        Collector.demo_repr Collector.demo_b64 Collector.demo_collector
        Collector.initial_state Collector.demo_repos
      = (Ok st,
         flat_map (Collector.item_trace Collector.demo_get Collector.demo_ok1 failing_write
                     Collector.demo_repr Collector.demo_b64 Collector.demo_collector)
           Collector.demo_repos)
      /\ Collector.success_count st + Collector.failed_count st = 2)
  /\ Summarizer.process_loop Summarizer.failing_chat Summarizer.demo_dump (py "/work")
       Summarizer.demo_summarizer 0 [Summarizer.demo_info]
     = (Ok 1,
        flat_map (Summarizer.item_trace Summarizer.failing_chat Summarizer.demo_dump
                    (py "/work") Summarizer.demo_summarizer)
          [Summarizer.demo_info]).
Proof.
  destruct (batch_error_isolation Collector.demo_get Collector.demo_ok1 failing_write
              Collector.demo_repr Collector.demo_b64 Summarizer.failing_chat
              Summarizer.demo_dump (py "/work") Collector.demo_collector
              Collector.demo_repos Summarizer.demo_summarizer [Summarizer.demo_info])
    as ((st & H1 & _ & _ & H2) & _ & _ & H3 & _).
  - repeat constructor; (eexists; eexists; split; reflexivity).
  - split; [exists st; split; [exact H1 | exact H2] | exact H3].
Defined.

(** ** The record that the [try] statement does not cover *)

(** A record of the listing without the key [name]. *)
Definition record_without_name : json := JObj [(py "id", JInt 2)].

(** An organisation whose listing holds the repository [a], a record
    without a name and the repository [b]; [a] and [b] have a README.md. *)
Definition nameless_listing_get (url : pystr) (hdrs params : dict)
  : outcome Collector.response :=
  if pystr_eqb url (py "https://api.github.com/orgs/datawhalechina/repos") then
    match dict_get params (py "page") with
    | Some (JInt 1) =>
      Returned (Collector.ok_response
                  (JArr [Collector.demo_repo "a"; record_without_name;
                         Collector.demo_repo "b"]))
    | _ => Returned (Collector.ok_response (JArr []))
    end
  else if pystr_eqb url
            (py "https://api.github.com/repos/datawhalechina/a/contents/README.md")
          || pystr_eqb url
               (py "https://api.github.com/repos/datawhalechina/b/contents/README.md")
  then Collector.readme_response "aGVsbG8="
  else Returned Collector.not_found.

(** The addresses of the requests of a trace, in order. *)
Definition requested_urls (t : list Collector.event) : list pystr :=
  flat_map (fun ev => match ev with
                      | Collector.EvGet url _ _ => [url]
                      | _ => []
                      end) t.

(** C5. The loop of the collector does not isolate every item. The
    subscript [repo['name']] stands before the [try] statement of the loop
    of [collect_all_readmes], so the exception it raises for a record
    without a name is not isolated. On the listing [a], nameless record, [b] the
    function raises [KeyError]: [a] has been collected, the README of [b]
    is never requested although [b] on its own is collected, and no run
    summary is written. The loop of [process_all_readmes], whose body
    stands inside the [try] statement as a whole, has no such item. *)
Theorem nameless_record_breaks_isolation :
  fst (Collector.collect_all_readmes nameless_listing_get Collector.demo_ok1
         Collector.demo_ok2 Collector.demo_dump (py "now") Collector.demo_repr
         Collector.demo_b64 5 Collector.demo_collector)
  = Raise (mkExn KeyError (py "name"))
  /\ requested_urls
       (snd (Collector.collect_all_readmes nameless_listing_get Collector.demo_ok1
               Collector.demo_ok2 Collector.demo_dump (py "now") Collector.demo_repr
               Collector.demo_b64 5 Collector.demo_collector))
     = [py "https://api.github.com/orgs/datawhalechina/repos";
        py "https://api.github.com/orgs/datawhalechina/repos";
        py "https://api.github.com/repos/datawhalechina/a/contents/README.md"]
  /\ Collector.summary_writes
       (snd (Collector.collect_all_readmes nameless_listing_get Collector.demo_ok1
               Collector.demo_ok2 Collector.demo_dump (py "now") Collector.demo_repr
               Collector.demo_b64 5 Collector.demo_collector))
     = []
  /\ Collector.collectedb nameless_listing_get Collector.demo_ok1 Collector.demo_ok2
       Collector.demo_repr Collector.demo_b64 Collector.demo_collector
       (Collector.demo_repo "b")
     = true
  /\ (forall chat json_dump cwd self n info,
        exists n' t,
          Summarizer.process_one chat json_dump cwd self n info = (Ok n', t)).
Proof.
  split; [vm_compute; reflexivity|]. split; [vm_compute; reflexivity|].
  split; [vm_compute; reflexivity|]. split; [vm_compute; reflexivity|].
  intros chat json_dump cwd self n info. rewrite Summarizer.process_one_eq.
  eexists. eexists. reflexivity.
Qed.

(** * Stage 3: the vector index builder *)

Module VectorIndex.

Record Document : Type := mkDocument {
  page_content : pystr;
  doc_metadata : dict
}.

(** The configuration held by a [RecursiveCharacterTextSplitter]. *)
Record splitter : Type := mkSplitter {
  sp_chunk_size : Z;
  sp_chunk_overlap : Z;
  sp_separators : list pystr
}.

Record loader : Type := mkLoader {
  docs_path : pystr;
  persist_path : pystr;
  chunk_size : Z;
  chunk_overlap : Z;
  text_splitter : splitter
}.

Inductive file_loader : Type :=
| PyMuPDFLoader (path : pystr)
| UnstructuredMarkdownLoader (path : pystr)
| TextLoader (path : pystr)
| JSONLoader (path : pystr).

(** An entry found by [docs_path.rglob("*")]. *)
Record fs_entry : Type := mkEntry {
  entry_path : pystr;
  is_file : bool
}.

Definition DEFAULT_DB_PATH : pystr := py "./knowledge_db".
Definition DEFAULT_PERSIST_PATH : pystr := py "./vector_db".
Definition default_chunk_size : Z := 500.
Definition default_chunk_overlap : Z := 150.

Definition separators : list pystr := [[10%N; 10%N]; [10%N]; [32%N]; []].

Definition supported_extensions : list pystr :=
  [py ".pdf"; py ".md"; py ".txt"; py ".json"].

(** [Path.name]: the text after the last [/]. *)
Definition path_name (p : pystr) : pystr :=
  fold_left (fun acc c => if (c =? 47)%N then [] else acc ++ [c]) p [].

(** The text before and after the last [.] of [s]. *)
Fixpoint last_dot (s : pystr) : option (pystr * pystr) :=
  match s with
  | [] => None
  | c :: s' =>
    match last_dot s' with
    | Some (before, after) => Some (c :: before, after)
    | None => if (c =? 46)%N then Some ([], s') else None
    end
  end.

(** [Path.suffix]: from the last [.] of the name on, when that dot is
    neither the first nor the last character of the name. *)
Definition path_suffix (p : pystr) : pystr :=
  match last_dot (path_name p) with
  | Some (_ :: _, a :: after) => 46%N :: a :: after
  | _ => []
  end.

(** [str.lower] on the letters A to Z; for the comparison with the four
    extensions below, which hold none of [i] and [k], this is what
    [suffix.lower()] decides. *)
Definition lower (s : pystr) : pystr :=
  map (fun c => if (65 <=? c)%N && (c <=? 90)%N then (c + 32)%N else c) s.

Definition str_in (s : pystr) (l : list pystr) : bool := existsb (pystr_eqb s) l.

(** ** The recursive splitter *)

(** Modelled from the spec: the splitter itself ([RecursiveCharacterTextSplitter]
    of the third-party library) is not part of the repository, which only
    configures and calls it. Section 4.3 describes it as a recursive-boundary
    splitter over a priority-ordered list of separators (paragraph break,
    line break, space, empty string, that is single characters when no
    separator of higher priority fits) that produces chunks of at most
    [chunk_size] characters with [chunk_overlap] characters of context
    repeated between consecutive chunks. A chunk is the text carried over
    from the chunk before it, followed by new text. *)
Record chunk : Type := mkChunk {
  carried : pystr;
  fresh : pystr
}.

Definition chunk_text (c : chunk) : pystr := carried c ++ fresh c.

Definition starts_with (p s : pystr) : bool := Summarizer.starts_with p s.

(** Modelled from the spec: the pieces of [t] that end after each
    occurrence of the separator [sep]. [rem] counts the characters of the
    current occurrence still to come, [cur_rev] is the piece being built. *)
Fixpoint split_after (sep : pystr) (rem : nat) (cur_rev t : pystr) : list pystr :=
  match t with
  | [] => match cur_rev with [] => [] | _ => [rev cur_rev] end
  | c :: t' =>
    let rem' := match rem with
                | O => if starts_with sep t then length sep else 0
                | _ => rem
                end in
    match rem' with
    | 1 => rev (c :: cur_rev) :: split_after sep 0 [] t'
    | _ => split_after sep (pred rem') (c :: cur_rev) t'
    end
  end.

(** Modelled from the spec: splitting on one separator; the empty
    separator splits into single characters. *)
Definition split_on (sep text : pystr) : list pystr :=
  match sep with
  | [] => map (fun c => [c]) text
  | _ => split_after sep 0 [] text
  end.

(** Modelled from the spec: the recursive search for boundaries. A text
    that fits in [size] is one piece; a longer one is split on the first
    separator and its pieces are split further on the separators that
    follow. *)
Fixpoint pieces (seps : list pystr) (size : Z) (text : pystr) : list pystr :=
  if (Z.of_nat (length text) <=? size)%Z
  then match text with [] => [] | _ => [text] end
  else match seps with
       | [] => [text]
       | sep :: rest => flat_map (pieces rest size) (split_on sep text)
       end.

Definition total (ps : list pystr) : Z := Z.of_nat (length (concat ps)).

(** Modelled from the spec: the pieces at the end of the finished chunk
    that are repeated at the head of the next one: the longest tail of at
    most [overlap] characters that leaves room for the piece of [n]
    characters that comes next. *)
Fixpoint drop_overlap (size overlap : Z) (n : nat) (cur : list pystr) : list pystr :=
  match cur with
  | [] => []
  | _ :: cur' =>
    if (total cur <=? overlap)%Z && (total cur + Z.of_nat n <=? size)%Z
    then cur
    else drop_overlap size overlap n cur'
  end.

(** The chunk made of the pieces [cur], the first [k] of which are carried
    over from the chunk before. *)
Definition close_chunk (k : nat) (cur : list pystr) : chunk :=
  {| carried := concat (firstn k cur); fresh := concat (skipn k cur) |}.

(** Modelled from the spec: pieces are gathered into a chunk as long as
    they fit in [size]; a piece that does not fit closes the chunk and
    opens the next one, which starts with the overlap. *)
Fixpoint merge (size overlap : Z) (cur : list pystr) (k : nat) (ps : list pystr)
  : list chunk :=
  match ps with
  | [] => match cur with [] => [] | _ => [close_chunk k cur] end
  | p :: rest =>
    if (total cur + Z.of_nat (length p) <=? size)%Z
    then merge size overlap (cur ++ [p]) k rest
    else match cur with
         | [] => merge size overlap [p] 0 rest
         | _ =>
           let kept := drop_overlap size overlap (length p) cur in
           close_chunk k cur :: merge size overlap (kept ++ [p]) (length kept) rest
         end
  end.

Definition spec_chunks (sp : splitter) (text : pystr) : list chunk :=
  merge (sp_chunk_size sp) (sp_chunk_overlap sp) [] 0
        (pieces (sp_separators sp) (sp_chunk_size sp) text).

(** Modelled from the spec: [split_text], the texts of the chunks. *)
Definition spec_split_text (sp : splitter) (text : pystr) : list pystr :=
  map chunk_text (spec_chunks sp text).

(** [suffix] is the end of [s]. *)
Definition is_suffix (suffix s : pystr) : Prop := exists front, s = front ++ suffix.

(** Each chunk starts with text that ends the chunk before it ([prev]),
    of at most [overlap] characters. *)
Fixpoint linked (overlap : Z) (prev : pystr) (cs : list chunk) : Prop :=
  match cs with
  | [] => True
  | c :: cs' =>
    (is_suffix (carried c) prev /\ (Z.of_nat (length (carried c)) <= overlap)%Z)
    /\ linked overlap (chunk_text c) cs'
  end.

(** The embedding function that [_get_llm_embedding] builds. *)
Inductive Embedding : Type :=
| OpenAIEmbeddings (openai_api_base openai_api_key : pystr).

(** The handle of a collection of the vector store. *)
Record Chroma : Type := mkChroma {
  db_collection_name : pystr;
  db_persist_directory : pystr;
  db_count : nat
}.

Inductive event : Type :=
| EvMkdir (path : pystr)
| EvLoad (l : file_loader)
| EvFromDocuments (documents : list Document) (embedding : option Embedding)
    (persist_directory collection_name : pystr)
| EvPersist (db : Chroma).

Section World.

(** [Path.mkdir(parents=True, exist_ok=True)] *)
Variable path_mkdir : pystr -> option exn.
(** What the constructor of the third-party splitter makes of its sizes:
    [None] when it accepts them. *)
Variable splitter_check : Z -> Z -> option exn.
(** [Path.exists()] and [Path.rglob("*")] *)
Variable path_exists : pystr -> bool.
Variable rglob : pystr -> list fs_entry.
(** [loader.load()] *)
Variable loader_load : file_loader -> outcome (list Document).
(** [text_splitter.split_text(text)] of the third-party splitter *)
Variable split_text : splitter -> pystr -> list pystr.
(** [Chroma.from_documents(documents=..., embedding=..., persist_directory=...,
    collection_name=...)]: embeds the documents and writes the collection *)
Variable chroma_from_documents :
  list Document -> option Embedding -> pystr -> pystr -> outcome Chroma.
(** [vector_db.persist()] *)
Variable chroma_persist : Chroma -> option exn.

Definition unit_outcome (o : option exn) : outcome unit :=
  match o with
  | None => Returned tt
  | Some e => Raised e
  end.

(** [RecursiveCharacterTextSplitter(chunk_size=..., chunk_overlap=...,
    separators=["\n\n", "\n", " ", ""])] *)
Definition new_splitter (size overlap : Z) : M event splitter :=
  match splitter_check size overlap with
  | Some e => raise e
  | None => ret {| sp_chunk_size := size;
                   sp_chunk_overlap := overlap;
                   sp_separators := separators |}
  end.

(** The constructor; an argument left out takes its default. *)
Definition init (docs_path_arg persist_path_arg : option pystr)
  (chunk_size_arg chunk_overlap_arg : option Z) : M event loader :=
  let docs := match docs_path_arg with Some p => p | None => DEFAULT_DB_PATH end in
  let persist :=
    match persist_path_arg with Some p => p | None => DEFAULT_PERSIST_PATH end in
  let size := match chunk_size_arg with Some n => n | None => default_chunk_size end in
  let overlap :=
    match chunk_overlap_arg with Some n => n | None => default_chunk_overlap end in
  call (EvMkdir persist) (unit_outcome (path_mkdir persist)) ;;;
  sp <- new_splitter size overlap ;;
  ret {| docs_path := docs;
         persist_path := persist;
         chunk_size := size;
         chunk_overlap := overlap;
         text_splitter := sp |}.

(** The loader that [main] builds. *)
Definition main_loader : M event loader :=
  init (Some (py "knowledge_db/readme_summary")) (Some (py "vector_db/chroma"))
       (Some 500%Z) (Some 150%Z).

(** [text_splitter.split_documents(documents)]: every chunk of a document
    carries the metadata of that document. *)
Definition split_documents (sp : splitter) (documents : list Document)
  : list Document :=
  flat_map (fun d => map (fun chunk => {| page_content := chunk;
                                          doc_metadata := doc_metadata d |})
                         (split_text sp (page_content d)))
           documents.

(** [doc.metadata["source"] = str(file_path)] *)
Definition tag_source (file_path : pystr) (d : Document) : Document :=
  {| page_content := page_content d;
     doc_metadata := dict_set (doc_metadata d) (py "source") (JStr file_path) |}.

Definition load_single_document (self : loader) (file_path : pystr)
  : M event (list Document) :=
  let suffix := lower (path_suffix file_path) in
  l <- (if pystr_eqb suffix (py ".pdf") then ret (PyMuPDFLoader file_path)
        else if pystr_eqb suffix (py ".md") then ret (UnstructuredMarkdownLoader file_path)
        else if pystr_eqb suffix (py ".txt") then ret (TextLoader file_path)
        else if pystr_eqb suffix (py ".json") then ret (JSONLoader file_path)
        else raise (mkExn ValueError (py "不支持的文件格式: " ++ path_suffix file_path))) ;;
  documents <- call (EvLoad l) (loader_load l) ;;
  let split_docs := split_documents (text_splitter self) documents in
  ret (map (tag_source file_path) split_docs).

(** One turn of the loop of [load_documents]. *)
Definition load_entry (self : loader) (documents : list Document) (entry : fs_entry)
  : M event (list Document) :=
  if is_file entry && str_in (lower (path_suffix (entry_path entry))) supported_extensions
  then
    try_except
      (docs <- load_single_document self (entry_path entry) ;;
       ret (documents ++ docs))
      any_exception
      (fun _ => ret documents)
  else ret documents.

Fixpoint load_entries (self : loader) (documents : list Document)
  (entries : list fs_entry) : M event (list Document) :=
  match entries with
  | [] => ret documents
  | entry :: rest =>
    documents' <- load_entry self documents entry ;;
    load_entries self documents' rest
  end.

Definition load_documents (self : loader) : M event (list Document) :=
  if path_exists (docs_path self)
  then load_entries self [] (rglob (docs_path self))
  else ret [].

(** The text of [f"文档：{documents}"] for the empty list. *)
Definition no_documents_message : pystr := py "文档：[]".

Definition create_vector_db (self : loader) (embedding_function : option Embedding)
  (collection_name : pystr) : M event Chroma :=
  documents <- load_documents self ;;
  match documents with
  | [] => raise (mkExn ValueError no_documents_message)
  | _ =>
    vector_db <- call (EvFromDocuments documents embedding_function (persist_path self)
                         collection_name)
                      (chroma_from_documents documents embedding_function
                         (persist_path self) collection_name) ;;
    call (EvPersist vector_db) (unit_outcome (chroma_persist vector_db)) ;;;
    ret vector_db
  end.

(** ** Properties of the index builder *)

(** The embedding and collection calls of a trace. *)
Definition index_events (t : list event) : list event :=
  filter (fun ev => match ev with
                    | EvFromDocuments _ _ _ _ | EvPersist _ => true
                    | _ => false
                    end) t.

Lemma load_single_document_cases : forall self file_path,
  exists t,
    index_events t = []
    /\ ((exists docs, load_single_document self file_path = (Ok docs, t))
        \/ (exists e, load_single_document self file_path = (Raise e, t))).
Proof.
  intros self file_path. unfold load_single_document.
  assert (Hload : forall l,
             exists t,
               index_events t = []
               /\ ((exists docs,
                      (documents <- call (EvLoad l) (loader_load l) ;;
                       ret (map (tag_source file_path)
                              (split_documents (text_splitter self) documents)))
                      = (Ok docs, t))
                   \/ (exists e,
                      (documents <- call (EvLoad l) (loader_load l) ;;
                       ret (map (tag_source file_path)
                              (split_documents (text_splitter self) documents)))
                      = (Raise e, t)))).
  { intro l. exists [EvLoad l]. split; [reflexivity|].
    destruct (loader_load l) as [documents | e]; [left | right]; eexists; reflexivity. }
  destruct (pystr_eqb (lower (path_suffix file_path)) (py ".pdf"));
    [destruct (Hload (PyMuPDFLoader file_path)) as (t & Ht & H); exists t; split;
     [exact Ht|]; cbn [bind ret];
     destruct H as [(d & H) | (e & H)]; rewrite H; [left | right]; eexists; reflexivity|].
  destruct (pystr_eqb (lower (path_suffix file_path)) (py ".md"));
    [destruct (Hload (UnstructuredMarkdownLoader file_path)) as (t & Ht & H); exists t;
     split; [exact Ht|]; cbn [bind ret];
     destruct H as [(d & H) | (e & H)]; rewrite H; [left | right]; eexists; reflexivity|].
  destruct (pystr_eqb (lower (path_suffix file_path)) (py ".txt"));
    [destruct (Hload (TextLoader file_path)) as (t & Ht & H); exists t; split;
     [exact Ht|]; cbn [bind ret];
     destruct H as [(d & H) | (e & H)]; rewrite H; [left | right]; eexists; reflexivity|].
  destruct (pystr_eqb (lower (path_suffix file_path)) (py ".json"));
    [destruct (Hload (JSONLoader file_path)) as (t & Ht & H); exists t; split;
     [exact Ht|]; cbn [bind ret];
     destruct H as [(d & H) | (e & H)]; rewrite H; [left | right]; eexists; reflexivity|].
  exists []. split; [reflexivity|]. right. eexists. reflexivity.
Qed.

(** What [_load_single_document] returns: the chunks of the documents of
    the file, tagged with the path of the file. *)
Lemma load_single_document_returns : forall self file_path chunks t,
  load_single_document self file_path = (Ok chunks, t) ->
  exists l documents,
    loader_load l = Returned documents
    /\ chunks = map (tag_source file_path)
                    (split_documents (text_splitter self) documents).
Proof.
  intros self file_path chunks t H. unfold load_single_document in H.
  assert (Hload : forall l,
             (documents <- call (EvLoad l) (loader_load l) ;;
              ret (map (tag_source file_path)
                     (split_documents (text_splitter self) documents)))
             = (Ok chunks, t) ->
             exists l documents,
               loader_load l = Returned documents
               /\ chunks = map (tag_source file_path)
                               (split_documents (text_splitter self) documents)).
  { intros l Hl. destruct (loader_load l) as [documents | e] eqn:E; [| discriminate].
    cbn in Hl. inversion Hl. exists l, documents. split; [exact E | reflexivity]. }
  destruct (pystr_eqb (lower (path_suffix file_path)) (py ".pdf"));
    [cbn [bind ret] in H; destruct (_ <- call _ _ ;; _) as [r0 t0] eqn:E;
     inversion H; subst; exact (Hload _ E)|].
  destruct (pystr_eqb (lower (path_suffix file_path)) (py ".md"));
    [cbn [bind ret] in H; destruct (_ <- call _ _ ;; _) as [r0 t0] eqn:E;
     inversion H; subst; exact (Hload _ E)|].
  destruct (pystr_eqb (lower (path_suffix file_path)) (py ".txt"));
    [cbn [bind ret] in H; destruct (_ <- call _ _ ;; _) as [r0 t0] eqn:E;
     inversion H; subst; exact (Hload _ E)|].
  destruct (pystr_eqb (lower (path_suffix file_path)) (py ".json"));
    [cbn [bind ret] in H; destruct (_ <- call _ _ ;; _) as [r0 t0] eqn:E;
     inversion H; subst; exact (Hload _ E)|].
  discriminate.
Qed.

(** A file that cannot be loaded is skipped. *)
Lemma load_entry_ok : forall self documents entry,
  exists documents' t,
    load_entry self documents entry = (Ok documents', t) /\ index_events t = [].
Proof.
  intros self documents entry. unfold load_entry.
  destruct (is_file entry
            && str_in (lower (path_suffix (entry_path entry))) supported_extensions);
    [| exists documents, []; split; reflexivity].
  destruct (load_single_document_cases self (entry_path entry))
    as (t & Ht & [(docs & H) | (e & H)]); rewrite H; cbn.
  - exists (documents ++ docs), (t ++ []). rewrite app_nil_r. split; [reflexivity | exact Ht].
  - exists documents, (t ++ []). rewrite app_nil_r. split; [reflexivity | exact Ht].
Qed.

Lemma index_events_app : forall t1 t2,
  index_events (t1 ++ t2) = index_events t1 ++ index_events t2.
Proof. intros t1 t2. apply filter_app. Qed.

Lemma load_entries_ok : forall self entries documents,
  exists documents' t,
    load_entries self documents entries = (Ok documents', t) /\ index_events t = [].
Proof.
  intros self entries. induction entries as [|entry rest IH]; intro documents.
  - exists documents, []. split; reflexivity.
  - cbn [load_entries].
    destruct (load_entry_ok self documents entry) as (d1 & t1 & H1 & Ht1).
    destruct (IH d1) as (d2 & t2 & H2 & Ht2).
    rewrite H1. cbn [bind]. rewrite H2.
    exists d2, (t1 ++ t2). split; [reflexivity|].
    rewrite index_events_app, Ht1, Ht2. reflexivity.
Qed.

(** [load_documents] always returns; it neither embeds nor writes. *)
Lemma load_documents_ok : forall self,
  exists documents t,
    load_documents self = (Ok documents, t) /\ index_events t = [].
Proof.
  intro self. unfold load_documents.
  destruct (path_exists (docs_path self)).
  - apply load_entries_ok.
  - exists [], []. split; reflexivity.
Qed.

(** C4. [create_vector_db] first loads the documents. When none is loaded
    it raises [ValueError], and its trace holds no embedding call and no
    write to the collection. When some are loaded the precondition error is
    not raised: the collection is built from exactly the loaded documents,
    then persisted, and the result is the one of these two calls. *)
Theorem create_vector_db_precondition :
  forall (self : loader) (embedding_function : option Embedding)
         (collection_name : pystr),
  exists documents t,
    load_documents self = (Ok documents, t)
    /\ index_events t = []
    /\ (documents = [] ->
        create_vector_db self embedding_function collection_name
        = (Raise (mkExn ValueError no_documents_message), t)
        /\ index_events
             (snd (create_vector_db self embedding_function collection_name)) = [])
    /\ (documents <> [] ->
        create_vector_db self embedding_function collection_name
        = match chroma_from_documents documents embedding_function (persist_path self)
                  collection_name with
          | Returned db =>
            (match chroma_persist db with None => Ok db | Some e => Raise e end,
             t ++ [EvFromDocuments documents embedding_function (persist_path self)
                     collection_name;
                   EvPersist db])
          | Raised e =>
            (Raise e,
             t ++ [EvFromDocuments documents embedding_function (persist_path self)
                     collection_name])
          end).
Proof.
  intros self embedding_function collection_name.
  destruct (load_documents_ok self) as (documents & t & Hload & Ht).
  exists documents, t. split; [exact Hload|]. split; [exact Ht|].
  unfold create_vector_db. rewrite Hload. cbn [bind]. split.
  - intros ->. cbn. rewrite app_nil_r. split; [reflexivity | exact Ht].
  - intro Hne. destruct documents as [|d documents]; [congruence|].
    destruct (chroma_from_documents (d :: documents) embedding_function
                (persist_path self) collection_name) as [db | e]; cbn; [| reflexivity].
    destruct (chroma_persist db); reflexivity.
Qed.

(** What the constructor stores. *)
Lemma init_stores : forall d p cs co self t,
  init d p cs co = (Ok self, t) ->
  chunk_size self = match cs with Some n => n | None => 500%Z end
  /\ chunk_overlap self = match co with Some n => n | None => 150%Z end
  /\ text_splitter self = {| sp_chunk_size := chunk_size self;
                             sp_chunk_overlap := chunk_overlap self;
                             sp_separators := separators |}.
Proof.
  intros d p cs co self t H. unfold init, new_splitter in H.
  destruct (path_mkdir _); [discriminate|]. cbn [unit_outcome call bind] in H.
  destruct (splitter_check _ _); [discriminate|]. cbn in H.
  inversion H; subst; clear H. cbn [chunk_size chunk_overlap text_splitter].
  repeat split.
Qed.

(** C9 (amended). The constructor stores the sizes it is given (or the
    defaults 500 and 150), in the loader and in its splitter, and compares
    them nowhere. A loader built with the default sizes satisfies
    [chunk_overlap < chunk_size], and so does the loader that [main]
    builds; for other arguments the inequality holds exactly when the
    arguments satisfy it. *)
Theorem chunk_configuration :
  forall (docs_path_arg persist_path_arg : option pystr)
         (chunk_size_arg chunk_overlap_arg : option Z) (self : loader)
         (t : list event),
    init docs_path_arg persist_path_arg chunk_size_arg chunk_overlap_arg = (Ok self, t) ->
    chunk_size self = match chunk_size_arg with Some n => n | None => 500%Z end
    /\ chunk_overlap self = match chunk_overlap_arg with Some n => n | None => 150%Z end
    /\ text_splitter self = {| sp_chunk_size := chunk_size self;
                               sp_chunk_overlap := chunk_overlap self;
                               sp_separators := separators |}
    /\ (chunk_size_arg = None -> chunk_overlap_arg = None ->
        (chunk_overlap self < chunk_size self)%Z)
    /\ (forall self' t',
          main_loader = (Ok self', t') -> (chunk_overlap self' < chunk_size self')%Z).
Proof.
  intros docs_path_arg persist_path_arg chunk_size_arg chunk_overlap_arg self t H.
  destruct (init_stores _ _ _ _ _ _ H) as (Hs & Ho & Hsp).
  split; [exact Hs|]. split; [exact Ho|]. split; [exact Hsp|]. split.
  - intros -> ->. rewrite Hs, Ho. reflexivity.
  - intros self' t' Hmain. unfold main_loader in Hmain.
    destruct (init_stores _ _ _ _ _ _ Hmain) as (Hs' & Ho' & _).
    rewrite Hs', Ho'. reflexivity.
Qed.

End World.

(** ** Properties of the splitter *)

Lemma split_after_concat : forall sep t rem cur_rev,
  concat (split_after sep rem cur_rev t) = rev cur_rev ++ t.
Proof.
  intros sep t. induction t as [|c t IH]; intros rem cur_rev.
  - destruct cur_rev; cbn [split_after concat]; rewrite ?app_nil_r; reflexivity.
  - cbn [split_after].
    destruct (match rem with
              | O => if starts_with sep (c :: t) then length sep else 0
              | S _ => rem
              end) as [|[|r]].
    + rewrite IH. cbn [rev]. rewrite <- app_assoc. reflexivity.
    + cbn [concat]. rewrite IH. cbn [rev app]. rewrite <- app_assoc. reflexivity.
    + rewrite IH. cbn [rev]. rewrite <- app_assoc. reflexivity.
Qed.

Lemma split_on_concat : forall sep text, concat (split_on sep text) = text.
Proof.
  intros sep text. destruct sep as [|x sep].
  - cbn [split_on]. induction text as [|c text IH]; [reflexivity|].
    cbn [map concat app]. rewrite IH. reflexivity.
  - cbn [split_on]. apply (split_after_concat (x :: sep) text 0 []).
Qed.

Lemma concat_flat_map_pieces : forall (f : pystr -> list pystr) (l : list pystr),
  (forall x, concat (f x) = x) -> concat (flat_map f l) = concat l.
Proof.
  intros f l Hf. induction l as [|x l IH]; [reflexivity|].
  cbn [flat_map concat]. rewrite concat_app, Hf, IH. reflexivity.
Qed.

Lemma pieces_unfold : forall seps size text,
  pieces seps size text
  = if (Z.of_nat (length text) <=? size)%Z
    then match text with [] => [] | _ => [text] end
    else match seps with
         | [] => [text]
         | sep :: rest => flat_map (pieces rest size) (split_on sep text)
         end.
Proof. intros seps size text. destruct seps; reflexivity. Qed.

(** The pieces are the text, cut. *)
Lemma pieces_concat : forall seps size text, concat (pieces seps size text) = text.
Proof.
  induction seps as [|sep rest IH]; intros size text; rewrite pieces_unfold;
    destruct (Z.of_nat (length text) <=? size)%Z;
    try (destruct text; cbn [concat]; rewrite ?app_nil_r; reflexivity).
  rewrite concat_flat_map_pieces; [apply split_on_concat | intro x; apply IH].
Qed.

(** With the empty separator in the list, every piece fits. *)
Lemma pieces_bound : forall seps size text p,
  In [] seps -> (1 <= size)%Z ->
  In p (pieces seps size text) -> (Z.of_nat (length p) <= size)%Z.
Proof.
  induction seps as [|sep rest IH]; intros size text p Hin Hsize Hp; [destruct Hin|].
  rewrite pieces_unfold in Hp.
  destruct (Z.of_nat (length text) <=? size)%Z eqn:Hfit.
  - apply Z.leb_le in Hfit. destruct text; [destruct Hp|].
    destruct Hp as [<- | []]. exact Hfit.
  - apply in_flat_map in Hp. destruct Hp as (q & Hq & Hp).
    destruct sep as [|x sep].
    + cbn [split_on] in Hq. apply in_map_iff in Hq. destruct Hq as (c & <- & _).
      rewrite pieces_unfold in Hp.
      replace (Z.of_nat (length [c]) <=? size)%Z with true in Hp
        by (symmetry; apply Z.leb_le; cbn; lia).
      destruct Hp as [<- | []]. cbn. lia.
    + apply (IH size q p); [| exact Hsize | exact Hp].
      destruct Hin as [Hin | Hin]; [discriminate | exact Hin].
Qed.

Lemma total_app : forall cur p,
  total (cur ++ [p]) = (total cur + Z.of_nat (length p))%Z.
Proof.
  intros cur p. unfold total. rewrite concat_app. cbn [concat].
  rewrite app_nil_r, length_app. lia.
Qed.

Lemma chunk_text_close : forall k cur, chunk_text (close_chunk k cur) = concat cur.
Proof.
  intros k cur. unfold chunk_text, close_chunk. cbn [carried fresh].
  rewrite <- concat_app, firstn_skipn. reflexivity.
Qed.

Lemma drop_overlap_suffix : forall size overlap n cur,
  exists front, cur = front ++ drop_overlap size overlap n cur.
Proof.
  intros size overlap n cur. induction cur as [|p cur IH].
  - exists []. reflexivity.
  - cbn [drop_overlap].
    destruct ((total (p :: cur) <=? overlap)%Z
              && (total (p :: cur) + Z.of_nat n <=? size)%Z).
    + exists []. reflexivity.
    + destruct IH as (front & IH). exists (p :: front). cbn [app]. f_equal. exact IH.
Qed.

Lemma drop_overlap_fits : forall size overlap n cur,
  drop_overlap size overlap n cur = []
  \/ ((total (drop_overlap size overlap n cur) <= overlap)%Z
      /\ (total (drop_overlap size overlap n cur) + Z.of_nat n <= size)%Z).
Proof.
  intros size overlap n cur. induction cur as [|p cur IH]; [left; reflexivity|].
  cbn [drop_overlap].
  destruct ((total (p :: cur) <=? overlap)%Z
            && (total (p :: cur) + Z.of_nat n <=? size)%Z) eqn:E.
  - right. apply andb_true_iff in E. destruct E as [E1 E2].
    apply Z.leb_le in E1. apply Z.leb_le in E2. split; assumption.
  - exact IH.
Qed.

Section Merge.

Variable size overlap : Z.
Hypothesis overlap_nonneg : (0 <= overlap)%Z.

(** The pieces kept for the overlap, with the piece that follows. *)
Lemma kept_fits : forall cur p,
  (Z.of_nat (length p) <= size)%Z ->
  (total (drop_overlap size overlap (length p) cur ++ [p]) <= size)%Z
  /\ (total (drop_overlap size overlap (length p) cur) <= overlap)%Z.
Proof.
  intros cur p Hp. rewrite total_app.
  destruct (drop_overlap_fits size overlap (length p) cur) as [-> | [H1 H2]].
  - unfold total. cbn. lia.
  - lia.
Qed.

(** Every chunk fits in [size]. *)
Lemma merge_bound : forall ps cur k c,
  (forall p, In p ps -> (Z.of_nat (length p) <= size)%Z) ->
  (total cur <= size)%Z ->
  In c (merge size overlap cur k ps) ->
  (Z.of_nat (length (chunk_text c)) <= size)%Z.
Proof.
  induction ps as [|p rest IH]; intros cur k c Hps Hcur Hc.
  - cbn [merge] in Hc. destruct cur as [|q cur]; [destruct Hc|].
    destruct Hc as [<- | []]. rewrite chunk_text_close. exact Hcur.
  - cbn [merge] in Hc.
    assert (Hp : (Z.of_nat (length p) <= size)%Z) by (apply Hps; left; reflexivity).
    assert (Hrest : forall q, In q rest -> (Z.of_nat (length q) <= size)%Z)
      by (intros q Hq; apply Hps; right; exact Hq).
    destruct (total cur + Z.of_nat (length p) <=? size)%Z eqn:Hfit.
    + apply Z.leb_le in Hfit.
      apply (IH (cur ++ [p]) k c Hrest); [rewrite total_app; exact Hfit | exact Hc].
    + destruct cur as [|q cur].
      * apply (IH [p] 0 c Hrest); [| exact Hc]. unfold total. cbn. rewrite app_nil_r. exact Hp.
      * destruct Hc as [<- | Hc]; [rewrite chunk_text_close; exact Hcur|].
        apply (IH _ _ c Hrest (proj1 (kept_fits (q :: cur) p Hp)) Hc).
Qed.

(** Each chunk starts with the overlap, which ends the chunk before it. *)
Lemma merge_linked : forall ps cur k prev,
  (forall p, In p ps -> (Z.of_nat (length p) <= size)%Z) ->
  (total cur <= size)%Z ->
  k <= length cur ->
  is_suffix (concat (firstn k cur)) prev ->
  (total (firstn k cur) <= overlap)%Z ->
  linked overlap prev (merge size overlap cur k ps).
Proof.
  induction ps as [|p rest IH]; intros cur k prev Hps Hcur Hk Hsuf Hov.
  - cbn [merge]. destruct cur as [|q cur]; [exact I|].
    cbn [linked close_chunk carried]. repeat split; assumption.
  - cbn [merge].
    assert (Hp : (Z.of_nat (length p) <= size)%Z) by (apply Hps; left; reflexivity).
    assert (Hrest : forall q, In q rest -> (Z.of_nat (length q) <= size)%Z)
      by (intros q Hq; apply Hps; right; exact Hq).
    destruct (total cur + Z.of_nat (length p) <=? size)%Z eqn:Hfit.
    + apply Z.leb_le in Hfit. apply IH; try assumption.
      * rewrite total_app. exact Hfit.
      * rewrite length_app. lia.
      * rewrite firstn_app, (proj2 (Nat.sub_0_le k (length cur)) Hk).
        cbn [firstn]. rewrite app_nil_r. exact Hsuf.
      * rewrite firstn_app, (proj2 (Nat.sub_0_le k (length cur)) Hk).
        cbn [firstn]. rewrite app_nil_r. exact Hov.
    + destruct cur as [|q cur].
      * apply IH; try assumption.
        -- unfold total. cbn. rewrite app_nil_r. exact Hp.
        -- cbn. lia.
        -- cbn [firstn concat]. destruct k; cbn [firstn concat] in Hsuf; exact Hsuf.
      * cbn [linked]. split.
        -- cbn [close_chunk carried]. split; assumption.
        -- rewrite chunk_text_close.
           destruct (kept_fits (q :: cur) p Hp) as [Hfits Hkept].
           apply IH; try assumption.
           ++ rewrite length_app. lia.
           ++ rewrite firstn_app, Nat.sub_diag, firstn_all. cbn [firstn].
              rewrite app_nil_r.
              destruct (drop_overlap_suffix size overlap (length p) (q :: cur))
                as (front & Hfront).
              exists (concat front). rewrite <- concat_app. f_equal. exact Hfront.
           ++ rewrite firstn_app, Nat.sub_diag, firstn_all. cbn [firstn].
              rewrite app_nil_r. exact Hkept.
Qed.

End Merge.

(** The new parts of the chunks are the pieces, in order. *)
Lemma merge_fresh : forall size overlap ps cur k,
  k <= length cur ->
  concat (map fresh (merge size overlap cur k ps)) = concat (skipn k cur) ++ concat ps.
Proof.
  intros size overlap. induction ps as [|p rest IH]; intros cur k Hk.
  - cbn [merge]. destruct cur as [|q cur].
    + destruct k; reflexivity.
    + cbn [map concat close_chunk fresh]. reflexivity.
  - cbn [merge].
    destruct (total cur + Z.of_nat (length p) <=? size)%Z.
    + rewrite IH by (rewrite length_app; lia).
      rewrite skipn_app, (proj2 (Nat.sub_0_le k (length cur)) Hk).
      cbn [skipn concat]. rewrite concat_app. cbn [concat].
      rewrite app_nil_r, <- app_assoc. reflexivity.
    + destruct cur as [|q cur].
      * rewrite IH by (cbn; lia). destruct k; cbn; rewrite ?app_nil_r; reflexivity.
      * cbn [map concat close_chunk fresh]. rewrite IH by (rewrite length_app; lia).
        rewrite skipn_app, Nat.sub_diag, skipn_all. cbn [skipn app concat].
        rewrite app_nil_r. reflexivity.
Qed.

(** The splitter on one text: every chunk has at most [chunk_size]
    characters, each chunk after the first starts with at most
    [chunk_overlap] characters that end the chunk before it, and the new
    parts of the chunks, put together, are the text. *)
Lemma spec_chunks_ok : forall sp text,
  In [] (sp_separators sp) ->
  (1 <= sp_chunk_size sp)%Z ->
  (0 <= sp_chunk_overlap sp)%Z ->
  (forall c, In c (spec_chunks sp text) ->
             (Z.of_nat (length (chunk_text c)) <= sp_chunk_size sp)%Z)
  /\ linked (sp_chunk_overlap sp) [] (spec_chunks sp text)
  /\ concat (map fresh (spec_chunks sp text)) = text.
Proof.
  intros sp text Hsep Hsize Hoverlap. unfold spec_chunks.
  assert (Hps : forall p, In p (pieces (sp_separators sp) (sp_chunk_size sp) text) ->
                          (Z.of_nat (length p) <= sp_chunk_size sp)%Z)
    by (intros p Hp; apply (pieces_bound _ _ _ _ Hsep Hsize Hp)).
  split; [|split].
  - intros c Hc. apply (merge_bound _ _ Hoverlap _ _ _ _ Hps) in Hc; [exact Hc|].
    unfold total. cbn. lia.
  - apply merge_linked; try assumption.
    + unfold total. cbn. lia.
    + cbn. lia.
    + exists []. reflexivity.
  - rewrite merge_fresh by (cbn; lia). cbn [skipn concat app]. apply pieces_concat.
Qed.

(** The chunk [c] of the document [d], as a document tagged with [file_path]. *)
Definition chunk_document (file_path : pystr) (d : Document) (c : chunk) : Document :=
  tag_source file_path {| page_content := chunk_text c; doc_metadata := doc_metadata d |}.

Lemma split_documents_chunks : forall sp file_path documents,
  map (tag_source file_path) (split_documents spec_split_text sp documents)
  = flat_map (fun d => map (chunk_document file_path d) (spec_chunks sp (page_content d)))
             documents.
Proof.
  intros sp file_path documents. unfold split_documents.
  induction documents as [|d documents IH]; [reflexivity|].
  cbn [flat_map]. rewrite map_app, IH. f_equal.
  unfold spec_split_text. rewrite !map_map. reflexivity.
Qed.

(** C8. For a loader built by the constructor with a chunk size of at
    least 1 and a chunk overlap of at least 0, and the splitter described
    by the specification: the chunks that [_load_single_document] returns
    for a file are the chunks of its documents, tagged with the path; every
    chunk has at most [chunk_size] characters; in each document every chunk
    after the first starts with at most [chunk_overlap] characters that end
    the chunk before it; and the new parts of the chunks of a document, put
    together, are its text. *)
Theorem chunk_bounds :
  forall (path_mkdir : pystr -> option exn) (splitter_check : Z -> Z -> option exn)
         (loader_load : file_loader -> outcome (list Document))
         (docs_path_arg persist_path_arg : option pystr)
         (chunk_size_arg chunk_overlap_arg : option Z)
         (self : loader) (t0 : list event)
         (file_path : pystr) (chunks : list Document) (t : list event),
    init path_mkdir splitter_check docs_path_arg persist_path_arg chunk_size_arg
         chunk_overlap_arg = (Ok self, t0) ->
    (1 <= chunk_size self)%Z ->
    (0 <= chunk_overlap self)%Z ->
    load_single_document loader_load spec_split_text self file_path = (Ok chunks, t) ->
    exists documents,
      chunks
      = flat_map (fun d => map (chunk_document file_path d)
                               (spec_chunks (text_splitter self) (page_content d)))
                 documents
      /\ (forall c, In c chunks ->
                    (Z.of_nat (length (page_content c)) <= chunk_size self)%Z)
      /\ (forall d, In d documents ->
                    linked (chunk_overlap self) []
                           (spec_chunks (text_splitter self) (page_content d))
                    /\ concat (map fresh (spec_chunks (text_splitter self)
                                            (page_content d)))
                       = page_content d).
Proof.
  intros path_mkdir splitter_check loader_load docs_path_arg persist_path_arg
    chunk_size_arg chunk_overlap_arg self t0 file_path chunks t Hinit Hsize Hoverlap Hload.
  destruct (init_stores path_mkdir splitter_check _ _ _ _ _ _ Hinit)
    as (_ & _ & Hsp).
  assert (Hok : forall text,
             (forall c, In c (spec_chunks (text_splitter self) text) ->
                        (Z.of_nat (length (chunk_text c)) <= chunk_size self)%Z)
             /\ linked (chunk_overlap self) [] (spec_chunks (text_splitter self) text)
             /\ concat (map fresh (spec_chunks (text_splitter self) text)) = text).
  { intro text. rewrite Hsp.
    apply (spec_chunks_ok {| sp_chunk_size := chunk_size self;
                             sp_chunk_overlap := chunk_overlap self;
                             sp_separators := separators |} text);
      cbn [sp_separators sp_chunk_size sp_chunk_overlap]; try assumption.
    right. right. right. left. reflexivity. }
  destruct (load_single_document_returns loader_load spec_split_text self file_path
              chunks t Hload) as (l & documents & _ & ->).
  exists documents. rewrite split_documents_chunks. split; [reflexivity|]. split.
  - intros c Hc. apply in_flat_map in Hc. destruct Hc as (d & _ & Hc).
    apply in_map_iff in Hc. destruct Hc as (ch & <- & Hch).
    cbn [chunk_document tag_source page_content].
    apply (proj1 (Hok (page_content d)) ch Hch).
  - intros d _. exact (proj2 (Hok (page_content d))).
Qed.

(** *** Concrete worlds *)

Definition demo_mkdir (path : pystr) : option exn := None.

(** A constructor check that accepts every pair of sizes. *)
Definition no_check (size overlap : Z) : option exn := None.

(** A constructor check that refuses a chunk overlap above the chunk size. *)
Definition refuse_larger_overlap (size overlap : Z) : option exn :=
  if (overlap >? size)%Z
  then Some (mkExn ValueError (py "Got a larger chunk overlap than chunk size"))
  else None.

Definition demo_text : pystr := py "ab cd ef gh ij kl mnopqrstuvwxyz01234".

Definition demo_load (l : file_loader) : outcome (list Document) :=
  Returned [{| page_content := demo_text; doc_metadata := [] |}].

Definition small_loader : loader :=
  {| docs_path := DEFAULT_DB_PATH;
     persist_path := DEFAULT_PERSIST_PATH;
     chunk_size := 10;
     chunk_overlap := 4;
     text_splitter := {| sp_chunk_size := 10;
                         sp_chunk_overlap := 4;
                         sp_separators := separators |} |}.

Definition small_chunks : list Document :=
  match fst (load_single_document demo_load spec_split_text small_loader
               (py "docs/a.txt")) with
  | Ok chunks => chunks
  | _ => []
  end.

Lemma chunk_bounds_witness :
  length small_chunks = 6
  /\ forall c, In c small_chunks -> (Z.of_nat (length (page_content c)) <= 10)%Z.
Proof.
  destruct (chunk_bounds demo_mkdir no_check demo_load None None (Some 10%Z) (Some 4%Z)
              small_loader [EvMkdir DEFAULT_PERSIST_PATH] (py "docs/a.txt") small_chunks
              [EvLoad (TextLoader (py "docs/a.txt"))])
    as (documents & _ & Hbound & _).
  - reflexivity.
  - simpl. lia.
  - simpl. lia.
  - vm_compute. reflexivity.
  - split; [vm_compute; reflexivity | exact Hbound].
Defined.

Definition default_loader : loader :=
  {| docs_path := DEFAULT_DB_PATH;
     persist_path := DEFAULT_PERSIST_PATH;
     chunk_size := 500;
     chunk_overlap := 150;
     text_splitter := {| sp_chunk_size := 500;
                         sp_chunk_overlap := 150;
                         sp_separators := separators |} |}.

Lemma chunk_configuration_witness :
  chunk_size default_loader = 500%Z
  /\ chunk_overlap default_loader = 150%Z
  /\ (chunk_overlap default_loader < chunk_size default_loader)%Z.
Proof.
  destruct (chunk_configuration demo_mkdir refuse_larger_overlap None None None None
              default_loader [EvMkdir DEFAULT_PERSIST_PATH])
    as (H1 & H2 & _ & H3 & _).
  - reflexivity.
  - split; [exact H1|]. split; [exact H2|]. apply H3; reflexivity.
Defined.

(** C9 as stated fails: the constructor accepts a chunk overlap equal to
    the chunk size, whether the splitter's constructor checks nothing or
    refuses only a larger overlap, and splitting is performed on the
    instance. *)
Lemma equal_sizes_accepted :
  exists self,
    init demo_mkdir no_check None None (Some 10%Z) (Some 10%Z)
    = (Ok self, [EvMkdir DEFAULT_PERSIST_PATH])
    /\ init demo_mkdir refuse_larger_overlap None None (Some 10%Z) (Some 10%Z)
       = (Ok self, [EvMkdir DEFAULT_PERSIST_PATH])
    /\ ~ (chunk_overlap self < chunk_size self)%Z
    /\ exists chunks,
        fst (load_single_document demo_load spec_split_text self (py "docs/a.txt"))
        = Ok chunks
        /\ length chunks = 16.
Proof.
  eexists. split; [reflexivity|]. split; [reflexivity|]. split.
  - cbn. lia.
  - eexists. split; [vm_compute; reflexivity | reflexivity].
Qed.

(** An existing but empty directory: [create_vector_db] raises before any
    call to the vector store. *)
Lemma create_vector_db_empty_directory :
  create_vector_db (fun _ => true) (fun _ => []) demo_load spec_split_text
    (fun docs emb dir name => Returned (mkChroma name dir (length docs)))
    (fun _ => None) default_loader None (py "knowledge_db")
  = (Raise (mkExn ValueError (py "文档：[]")), []).
Proof. reflexivity. Qed.

End VectorIndex.

(** * Standard output *)

(** What a run that prints does, in order: a library call of the stage, or
    a line written to the standard output. *)
Inductive output (E : Type) : Type :=
| Did (ev : E)
| Printed (text : pystr).

Arguments Did {E} ev.
Arguments Printed {E} text.

(** A computation of a stage, inside a run that also prints. *)
Definition did {E A : Type} (m : M E A) : M (output E) A := (fst m, map Did (snd m)).

(** [str(n)] for a number that is not negative. *)
Definition str_nat (n : nat) : pystr := py (NilZero.string_of_uint (Nat.to_uint n)).

(** [str(e)]: the message of the exception; for a [KeyError], whose
    [exn_str] is the key, the key between single quotes, which is how
    [repr] writes a key without quotes or escapes. *)
Definition str_exn (e : exn) : pystr :=
  match exn_cls e with
  | KeyError => py "'" ++ exn_str e ++ py "'"
  | _ => exn_str e
  end.

(** [except ValueError] *)
Definition is_value_error (e : exn) : bool :=
  match exn_cls e with
  | ValueError => true
  | _ => false
  end.

Section Console.

Context {E : Type}.

(** What writing a line to the standard output does: [None] when it
    succeeds, the exception otherwise (the text cannot be encoded, the
    stream is closed). *)
Variable stdout_write : pystr -> option exn.

(** [print(text)] *)
Definition print (text : pystr) : M (output E) unit :=
  call (Printed text)
       (match stdout_write text with
        | None => Returned tt
        | Some e => Raised e
        end).

(** The standard output takes every line. *)
Definition quiet : Prop := forall text, stdout_write text = None.

(** The lines printed by a trace, in order. *)
Definition printed (t : list (output E)) : list pystr :=
  flat_map (fun o => match o with
                     | Printed text => [text]
                     | Did _ => []
                     end) t.

(** The library calls of a trace, in order. *)
Definition calls (t : list (output E)) : list E :=
  flat_map (fun o => match o with
                     | Did ev => [ev]
                     | Printed _ => []
                     end) t.

Lemma print_cases : forall text,
  print text
  = (match stdout_write text with
     | None => Ok tt
     | Some e => Raise e
     end, [Printed text]).
Proof. intro text. unfold print. destruct (stdout_write text); reflexivity. Qed.

Lemma print_quiet : forall text,
  stdout_write text = None -> print text = (Ok tt, [Printed text]).
Proof. intros text H. rewrite print_cases, H. reflexivity. Qed.

(** What [print] raises is what the standard output raised. *)
Lemma print_raises : forall text e,
  fst (print text) = Raise e -> stdout_write text = Some e.
Proof.
  intros text e H. rewrite print_cases in H. cbn [fst] in H.
  destruct (stdout_write text); [congruence | discriminate].
Qed.

(** The only way out by an exception is a [print] that failed: the trace
    ends with the line the standard output refused. *)
Definition raised_by_print {A : Type} (m : M (output E) A) : Prop :=
  forall e, fst m = Raise e ->
            exists t text, snd m = t ++ [Printed text] /\ stdout_write text = Some e.

Lemma raised_by_print_ret : forall (A : Type) (a : A), raised_by_print (ret a).
Proof. intros A a e H. discriminate. Qed.

Lemma raised_by_print_print : forall text, raised_by_print (print text).
Proof.
  intros text e H. exists [], text. split.
  - rewrite print_cases. reflexivity.
  - apply print_raises. exact H.
Qed.

Lemma raised_by_print_bind : forall (A B : Type) (m : M (output E) A) (f : A -> M (output E) B),
  raised_by_print m -> (forall a, raised_by_print (f a)) -> raised_by_print (bind m f).
Proof.
  intros A B m f Hm Hf e. destruct m as [[a | e0 |] t]; cbn [bind].
  - specialize (Hf a e). destruct (f a) as [r t']. cbn [fst snd] in *.
    intro H. destruct (Hf H) as (t0 & text & -> & Hw).
    exists (t ++ t0), text. split; [apply app_assoc | exact Hw].
  - cbn [fst snd]. intro H. apply (Hm e). cbn [fst]. congruence.
  - discriminate.
Qed.

Lemma raised_by_print_quiet : forall (A : Type) (m : M (output E) A),
  quiet -> raised_by_print m -> forall e, fst m <> Raise e.
Proof.
  intros A m Hq Hm e H. destruct (Hm e H) as (t & text & _ & Hw).
  rewrite Hq in Hw. discriminate.
Qed.

Lemma raised_by_print_try : forall (A : Type) (m : M (output E) A) (h : exn -> M (output E) A),
  (forall e, raised_by_print (h e)) -> raised_by_print (try_except m any_exception h).
Proof.
  intros A m h Hh e. destruct m as [[a | e0 |] t]; cbn [try_except any_exception];
    try discriminate.
  specialize (Hh e0 e). destruct (h e0) as [r t']. cbn [fst snd] in *.
  intro H. destruct (Hh H) as (t0 & text & -> & Hw).
  exists (t ++ t0), text. split; [apply app_assoc | exact Hw].
Qed.

End Console.

Section Results.

Context {E : Type}.

Lemma bind_fst : forall (A B : Type) (m : M E A) (f : A -> M E B),
  fst (bind m f)
  = match fst m with
    | Ok a => fst (f a)
    | Raise e => Raise e
    | NoFuel => NoFuel
    end.
Proof.
  intros A B m f. destruct m as [[a | e |] t]; cbn [bind fst]; try reflexivity.
  destruct (f a); reflexivity.
Qed.

Lemma bind_snd : forall (A B : Type) (m : M E A) (f : A -> M E B),
  snd (bind m f)
  = match fst m with
    | Ok a => snd m ++ snd (f a)
    | _ => snd m
    end.
Proof.
  intros A B m f. destruct m as [[a | e |] t]; cbn [bind fst snd]; try reflexivity.
  destruct (f a); reflexivity.
Qed.

Lemma try_except_fst : forall (A : Type) (m : M E A) (h : exn -> M E A),
  fst (try_except m any_exception h)
  = match fst m with
    | Raise e => fst (h e)
    | r => r
    end.
Proof.
  intros A m h. destruct m as [[a | e |] t]; cbn [try_except any_exception fst];
    try reflexivity.
  destruct (h e); reflexivity.
Qed.

Lemma try_except_snd : forall (A : Type) (m : M E A) (h : exn -> M E A),
  snd (try_except m any_exception h)
  = match fst m with
    | Raise e => snd m ++ snd (h e)
    | _ => snd m
    end.
Proof.
  intros A m h. destruct m as [[a | e |] t]; cbn [try_except any_exception fst snd];
    try reflexivity.
  destruct (h e); reflexivity.
Qed.

Lemma bind_ret : forall (A B : Type) (a : A) (f : A -> M E B), bind (ret a) f = f a.
Proof. intros A B a f. unfold ret. cbn [bind]. destruct (f a); reflexivity. Qed.

Lemma did_fst : forall (A : Type) (m : M E A), fst (did m) = fst m.
Proof. reflexivity. Qed.

Lemma did_snd : forall (A : Type) (m : M E A), snd (did m) = map Did (snd m).
Proof. reflexivity. Qed.

Lemma print_snd : forall (w : pystr -> option exn) (text : pystr),
  snd (@print E w text) = [Printed text].
Proof. intros w text. rewrite print_cases. reflexivity. Qed.

Lemma print_fst : forall (w : pystr -> option exn) (text : pystr),
  fst (@print E w text)
  = match w text with
    | None => Ok tt
    | Some e => Raise e
    end.
Proof. intros w text. rewrite print_cases. reflexivity. Qed.

Lemma pair_split : forall (A : Type) (m : M E A) (r : res A) (t : list E),
  fst m = r -> snd m = t -> m = (r, t).
Proof. intros A m r t <- <-. destruct m; reflexivity. Qed.

Lemma print_fst_quiet : forall (w : pystr -> option exn) (text : pystr),
  w text = None -> fst (@print E w text) = Ok tt.
Proof. intros w text H. rewrite print_cases, H. reflexivity. Qed.

End Results.

(** One step of a run, on its result and on its trace. *)
Ltac run_step :=
  repeat progress
    (rewrite ?bind_fst, ?bind_snd, ?try_except_fst, ?try_except_snd, ?did_fst, ?did_snd,
       ?print_snd;
     cbn [fst snd ret]).

(** What a computation that returned went through. *)
Ltac bind_ok H :=
  rewrite bind_fst in H;
  match type of H with
  | match ?m with _ => _ end = _ =>
    let E := fresh "E" in destruct m eqn:E; try discriminate H
  end.

Lemma calls_did {E : Type} : forall t : list E, calls (map Did t) = t.
Proof. induction t as [|ev t IH]; [reflexivity|]. cbn. f_equal. exact IH. Qed.

Lemma printed_did {E : Type} : forall t : list E, printed (map Did t) = [].
Proof. induction t as [|ev t IH]; [reflexivity | exact IH]. Qed.

Lemma printed_app {E : Type} : forall t1 t2 : list (output E),
  printed (t1 ++ t2) = printed t1 ++ printed t2.
Proof. intros t1 t2. apply flat_map_app. Qed.

Lemma calls_app {E : Type} : forall t1 t2 : list (output E),
  calls (t1 ++ t2) = calls t1 ++ calls t2.
Proof. intros t1 t2. apply flat_map_app. Qed.

(** * The collector: constructor, edge cases and callers *)

Module CollectorRun.
Import Collector.

Section World.

Variable requests_get : pystr -> dict -> dict -> outcome response.
(** [os.getenv] when the process starts, before [load_dotenv()] has run *)
Variable os_getenv_startup : pystr -> option pystr.
(** [os.getenv] after [load_dotenv()] *)
Variable os_getenv : pystr -> option pystr.
Variable os_makedirs : pystr -> option exn.
Variable write_text : pystr -> pystr -> option exn.
Variable json_dump : pystr -> json -> option exn.
Variable strftime_now : pystr.
Variable py_repr : json -> pystr.
Variable b64decode_utf8 : pystr -> outcome pystr.
(** What writing a line to the standard output does *)
Variable stdout_write : pystr -> option exn.

Abbreviation say := (@print event stdout_write).
Abbreviation init := (Collector.init os_getenv os_makedirs).
Abbreviation org_repos_page := (Collector.org_repos_page requests_get).
Abbreviation org_repos_loop := (Collector.org_repos_loop requests_get).
Abbreviation get_organization_repos := (Collector.get_organization_repos requests_get).
Abbreviation page_ok := (Collector.page_ok requests_get).
Abbreviation get_repo_readme :=
  (Collector.get_repo_readme requests_get py_repr b64decode_utf8).
Abbreviation save_readme_to_file :=
  (Collector.save_readme_to_file os_makedirs write_text).
Abbreviation render_repo_info := (Collector.render_repo_info py_repr).
Abbreviation collect_body :=
  (Collector.collect_body requests_get os_makedirs write_text py_repr b64decode_utf8).
Abbreviation collect_one :=
  (Collector.collect_one requests_get os_makedirs write_text py_repr b64decode_utf8).
Abbreviation collect_loop :=
  (Collector.collect_loop requests_get os_makedirs write_text py_repr b64decode_utf8).
Abbreviation collect_repos :=
  (Collector.collect_repos requests_get os_makedirs write_text json_dump strftime_now
     py_repr b64decode_utf8).
Abbreviation collect_all_readmes :=
  (Collector.collect_all_readmes requests_get os_makedirs write_text json_dump
     strftime_now py_repr b64decode_utf8).
Abbreviation item_trace :=
  (Collector.item_trace requests_get os_makedirs write_text py_repr b64decode_utf8).
Abbreviation collectedb :=
  (Collector.collectedb requests_get os_makedirs write_text py_repr b64decode_utf8).
Abbreviation collected :=
  (Collector.collected requests_get os_makedirs write_text py_repr b64decode_utf8).
Abbreviation collection_summary := (Collector.collection_summary strftime_now).

(** ** The callers *)

(** [main()] of the collector. *)
Definition main (fuel : nat) : M (output event) (list (pystr * pystr)) :=
  try_except
    (collector <- did (init None) ;;
     result <- did (collect_all_readmes fuel collector) ;;
     say (py "README收集完成！") ;;;
     say (py "成功收集: " ++ str_nat (length result) ++ py "个仓库") ;;;
     say (py "文件保存位置: " ++ readme_dir collector) ;;;
     ret result)
    any_exception
    (fun e => say (py "错误: " ++ str_exn e) ;;; ret []).

(** One line of the preview of [test_repo_collector]:
    [print(f"  {i+1}. {repo['name']} - {repo.get('description', '无描述')}")]. *)
Definition preview_line (number : nat) (repo : json) : M (output event) unit :=
  name <- did (json_subscript repo (py "name")) ;;
  description <- did (format_field py_repr repo (py "description") (py "无描述")) ;;
  say (py "  " ++ str_nat number ++ py ". " ++ format_value py_repr name ++ py " - "
       ++ description).

(** [for i, repo in enumerate(repos[:5])]; [number] is [i+1]. *)
Fixpoint preview (number : nat) (repos : list json) : M (output event) unit :=
  match repos with
  | [] => ret tt
  | repo :: rest => preview_line number repo ;;; preview (S number) rest
  end.

(** The report of [test_repo_collector] on the README it was given. *)
Definition report_readme (test_repo : json) (readme_content : option pystr)
  : M (output event) unit :=
  match readme_content with
  | Some (c :: t) =>
    say (py "✅ 成功获取README，长度: " ++ str_nat (length (c :: t)) ++ py " 字符") ;;;
    say (py "前200个字符预览:") ;;;
    say (if 200 <? length (c :: t) then firstn 200 (c :: t) ++ py "..." else c :: t)
  | _ => say (py "⚠️  仓库 " ++ format_value py_repr test_repo ++ py " 没有找到README文件")
  end.

(** The [try] block of [test_repo_collector()]. The check of the token
    reads the environment of the process; the constructor is the first to
    call [load_dotenv()]. *)
Definition test_body (fuel : nat) : M (output event) bool :=
  match os_getenv_startup (py "TOKEN") with
  | Some (_ :: _) =>
    collector <- did (init None) ;;
    say (py "✅ 收集器初始化成功") ;;;
    say (py "📋 测试获取仓库列表...") ;;;
    repos <- did (get_organization_repos fuel collector) ;;
    match repos with
    | [] => say (py "❌ 未获取到任何仓库") ;;; ret false
    | first :: _ =>
      say (py "✅ 成功获取到 " ++ str_nat (length repos) ++ py " 个仓库") ;;;
      say (py "前5个仓库:") ;;;
      preview 1 (firstn 5 repos) ;;;
      test_repo <- did (json_subscript first (py "name")) ;;
      say (nl ++ py "📖 测试获取README: " ++ format_value py_repr test_repo) ;;;
      readme_content <- did (get_repo_readme collector test_repo) ;;
      report_readme test_repo readme_content ;;;
      say (nl ++ py "🎉 测试完成！收集器功能正常") ;;;
      ret true
    end
  | _ =>
    say (py "⚠️  警告: 未找到GitHub TOKEN环境变量") ;;;
    say (py "请在.env文件中配置TOKEN=your_github_token") ;;;
    say (py "或者设置环境变量: export TOKEN=your_github_token") ;;;
    ret false
  end.

(** [test_repo_collector()] of [test/test_collector.py]: the first line is
    printed before the [try] statement; of the two handlers, the one for
    [ValueError] comes first. *)
Definition test_repo_collector (fuel : nat) : M (output event) bool :=
  say (py "开始测试GitHub仓库收集器...") ;;;
  try_except
    (test_body fuel)
    any_exception
    (fun e =>
       if is_value_error e
       then say (py "❌ 配置错误: " ++ str_exn e) ;;; ret false
       else say (py "❌ 测试失败: " ++ str_exn e) ;;; ret false).

(** ** The constructor *)

(** No usable value: [None] or the empty string. *)
Definition missing (v : option pystr) : Prop := v = None \/ v = Some [].

Definition token_required : exn :=
  mkExn ValueError (py "GitHub token is required. Please set TOKEN environment variable.").

Lemma init_without_token : forall token_arg,
  missing token_arg -> missing (os_getenv (py "TOKEN")) ->
  init token_arg = (Raise token_required, []).
Proof.
  intros token_arg [-> | ->] [H | H]; unfold Collector.init; rewrite H; reflexivity.
Qed.

(** X1. The constructor takes the token from its argument and, when that is
    absent or empty, from the variable TOKEN. With no token at either place
    it raises [ValueError] before it creates the README directory. With a
    token it creates the directory [database/readme_db] (a failure of which
    it raises) and stores the token in the [Authorization] header as
    [token <value>]; a token given as argument wins over the variable. *)
Theorem init_token_resolution :
  forall token_arg : option pystr,
    (missing token_arg -> missing (os_getenv (py "TOKEN")) ->
     init token_arg = (Raise token_required, []))
    /\ (forall tok,
          tok <> [] ->
          token_arg = Some tok
          \/ (missing token_arg /\ os_getenv (py "TOKEN") = Some tok) ->
          exists self,
            init token_arg
            = (match os_makedirs (py "database/readme_db") with
               | None => Ok self
               | Some e => Raise e
               end,
               [EvMakedirs (py "database/readme_db")])
            /\ token self = tok
            /\ dict_get (headers self) (py "Authorization")
               = Some (JStr (py "token " ++ tok))
            /\ readme_dir self = py "database/readme_db").
Proof.
  intro token_arg. split; [apply init_without_token|].
  intros tok Hne Hsrc.
  destruct tok as [|c tok]; [congruence|].
  assert (Hinit : init token_arg
                  = (call (EvMakedirs (py "database/readme_db"))
                          (unit_outcome (os_makedirs (py "database/readme_db"))) ;;;
                     ret {| token := c :: tok;
                            headers := [(py "Authorization", JStr (py "token " ++ c :: tok));
                                        (py "Accept",
                                         JStr (py "application/vnd.github.v3+json"))];
                            base_url := py "https://api.github.com";
                            org_name := py "datawhalechina";
                            readme_dir := py "database/readme_db" |})).
  { destruct Hsrc as [-> | ([-> | ->] & Henv)]; unfold Collector.init;
      try rewrite Henv; reflexivity. }
  eexists. rewrite Hinit. split; [| split; [| split]].
  - destruct (os_makedirs (py "database/readme_db")); reflexivity.
  - reflexivity.
  - reflexivity.
  - reflexivity.
Qed.

(** ** The listing, when an exception is not a [RequestException] *)

Lemma org_repos_loop_prefix : forall self pages fuel page repos,
  (forall i p, nth_error pages i = Some p ->
               p <> [] /\ page_ok self (page + Z.of_nat i) p) ->
  org_repos_loop (length pages + fuel) self page repos
  = (fst (org_repos_loop fuel self (page + Z.of_nat (length pages))
            (repos ++ concat pages)),
     pages_trace self page (length pages)
     ++ snd (org_repos_loop fuel self (page + Z.of_nat (length pages))
               (repos ++ concat pages))).
Proof.
  intros self pages. induction pages as [|p pages IH]; intros fuel page repos Hpages.
  - cbn [length Nat.add concat pages_trace app]. rewrite Z.add_0_r, app_nil_r.
    destruct (org_repos_loop fuel self page repos). reflexivity.
  - destruct (Hpages 0 p eq_refl) as [Hne Hok]. cbn in Hok. rewrite Z.add_0_r in Hok.
    cbn [length Nat.add Collector.org_repos_loop].
    rewrite (org_repos_page_next requests_get self page repos p Hok Hne).
    cbn [bind]. rewrite (IH fuel (page + 1)%Z (repos ++ p)).
    + cbn [concat pages_trace]. rewrite <- app_assoc.
      replace (page + 1 + Z.of_nat (length pages))%Z
        with (page + Z.of_nat (S (length pages)))%Z by lia.
      reflexivity.
    + intros i q Hq. specialize (Hpages (S i) q Hq).
      replace (page + 1 + Z.of_nat i)%Z with (page + Z.of_nat (S i))%Z by lia.
      exact Hpages.
Qed.

(** The request for [page] ends in the exception [e]: raised by the call,
    raised by reading the body of a response that is no error, or the one
    that [extend] raises on a body that cannot be iterated. *)
Definition page_raises (self : collector) (page : Z) (e : exn) : Prop :=
  requests_get (org_repos_url self) (headers self) (org_repos_params page) = Raised e
  \/ (exists r,
        requests_get (org_repos_url self) (headers self) (org_repos_params page)
        = Returned r
        /\ is_error_status (status_code r) = false
        /\ (json_body r = Raised e
            \/ exists v, json_body r = Returned v /\ truthy v = true
                         /\ list_extend [] v = (Raise e, []))).

Lemma list_extend_raises : forall (repos : list json) v e,
  list_extend [] v = (Raise e, []) ->
  list_extend repos v = (Raise e, []).
Proof. intros repos v e H. destruct v; try discriminate; exact H. Qed.

Lemma org_repos_page_raises : forall self page repos e,
  page_raises self page e -> is_request_exception e = false ->
  org_repos_page self page repos = (Raise e, [org_repos_get self page]).
Proof.
  intros self page repos e Hraise Hcls. unfold Collector.org_repos_page, org_repos_get.
  destruct Hraise as [Hget | (r & Hget & Hst & [Hbody | (v & Hbody & Htruthy & Hext)])];
    rewrite Hget; cbn [call bind try_except].
  - rewrite Hcls. reflexivity.
  - unfold raise_for_status, response_json. rewrite Hst, Hbody. cbn.
    rewrite Hcls. reflexivity.
  - unfold raise_for_status, response_json. rewrite Hst, Hbody. cbn [bind ret].
    rewrite Htruthy. cbn [negb]. rewrite (list_extend_raises repos v e Hext). cbn.
    rewrite Hcls. reflexivity.
Qed.

(** X2. [get_organization_repos] catches [RequestException] only. When the
    pages 1 to N are served and the request for page N+1 ends in an
    exception of another class (raised by the call, by [response.json()],
    or by [extend] on a body that is no list), the function raises that
    exception after N+1 requests: the records of the N pages already read
    do not reach the caller. *)
Theorem listing_exception_escapes :
  forall (self : collector) (pages : list (list json)) (fuel : nat) (e : exn),
    (forall i p, nth_error pages i = Some p ->
                 p <> [] /\ page_ok self (Z.of_nat (S i)) p) ->
    page_raises self (Z.of_nat (S (length pages))) e ->
    is_request_exception e = false ->
    length pages < fuel ->
    get_organization_repos fuel self
    = (Raise e,
       pages_trace self 1 (length pages)
       ++ [org_repos_get self (Z.of_nat (S (length pages)))])
    /\ requested_pages (snd (get_organization_repos fuel self))
       = map Z.of_nat (seq 1 (S (length pages))).
Proof.
  intros self pages fuel e Hpages Hraise Hcls Hfuel.
  assert (Hrun : get_organization_repos fuel self
                 = (Raise e,
                    pages_trace self 1 (length pages)
                    ++ [org_repos_get self (Z.of_nat (S (length pages)))])).
  { unfold Collector.get_organization_repos.
    replace fuel with (length pages + S (fuel - S (length pages))) by lia.
    rewrite org_repos_loop_prefix.
    - replace (1 + Z.of_nat (length pages))%Z with (Z.of_nat (S (length pages))) by lia.
      cbn [Collector.org_repos_loop].
      rewrite (org_repos_page_raises self _ _ e Hraise Hcls). reflexivity.
    - intros i p Hp. replace (1 + Z.of_nat i)%Z with (Z.of_nat (S i)) by lia. auto. }
  split; [exact Hrun|]. rewrite Hrun. cbn [snd].
  rewrite requested_pages_trace.
  replace (S (length pages)) with (length pages + 1) by lia.
  rewrite seq_app, map_app. cbn [seq map Nat.add]. f_equal.
  - rewrite <- seq_shift, map_map. apply map_ext. intro i. lia.
  - f_equal. lia.
Qed.

(** ** One repository *)

Lemma collect_one_named : forall self st fields v,
  dict_get fields (py "name") = Some v ->
  collect_one self st (JObj fields)
  = try_except (collect_body self st (JObj fields) v) any_exception
      (fun _ => ret (failed_one st)).
Proof.
  intros self st fields v Hname. unfold Collector.collect_one.
  cbn [json_subscript]. rewrite Hname. cbn [bind ret].
  destruct (try_except _ _ _) as [r0 t0]. reflexivity.
Qed.

(** X3. A repository for which no README is found, or whose README is
    empty, counts as a failure: the turn ends normally after the README
    requests and the pause of 0.2 s, no directory is created and no file is
    written. *)
Theorem empty_readme_counts_as_failure :
  forall (self : collector) (st : collect_state) (fields : list (pystr * json))
         (v : json) (requests : list event),
    dict_get fields (py "name") = Some v ->
    get_repo_readme self v = (Ok None, requests)
    \/ get_repo_readme self v = (Ok (Some []), requests) ->
    collect_one self st (JObj fields)
    = (Ok (failed_one st), requests ++ [EvSleep 200]).
Proof.
  intros self st fields v requests Hname Hreadme.
  rewrite (collect_one_named self st fields v Hname). unfold Collector.collect_body.
  destruct Hreadme as [H | H]; rewrite H; reflexivity.
Qed.

(** ** A record without a name *)

Lemma collect_loop_app : forall self l1 l2 st,
  collect_loop self st (l1 ++ l2)
  = (st' <- collect_loop self st l1 ;; collect_loop self st' l2).
Proof.
  intros self l1. induction l1 as [|r l1 IH]; intros l2 st.
  - cbn [app Collector.collect_loop bind ret].
    destruct (collect_loop self st l2). reflexivity.
  - cbn [app Collector.collect_loop].
    destruct (collect_one self st r) as [[st1 | e |] t1]; cbn [bind]; try reflexivity.
    rewrite IH.
    destruct (collect_loop self st1 l1) as [[st2 | e |] t2]; cbn [bind]; try reflexivity.
    destruct (collect_loop self st2 l2) as [r3 t3]. rewrite app_assoc. reflexivity.
Qed.

Lemma json_subscript_nameless : forall repo,
  ~ has_name repo ->
  exists e,
    json_subscript repo (py "name") = (Raise e, [])
    /\ (exn_cls e = KeyError \/ exn_cls e = TypeError)
    /\ (forall fields, repo = JObj fields -> e = mkExn KeyError (py "name")).
Proof.
  intros repo Hno.
  destruct repo as [ | b | n | m x | s | items | fields];
    try (eexists; split; [reflexivity|]; split; [right; reflexivity|];
         intros f Hf; discriminate).
  cbn [json_subscript].
  destruct (dict_get fields (py "name")) as [v |] eqn:Hname.
  - exfalso. apply Hno. exists fields, v. split; [reflexivity | exact Hname].
  - eexists. split; [reflexivity|]. split; [left; reflexivity|].
    intros f Hf. reflexivity.
Qed.

(** X4. The subscript [repo['name']] stands outside the [try] statement of
    the loop. A record without a name (an object that lacks the key, or a
    value that is no object) ends [collect_all_readmes] with [KeyError] or
    [TypeError]: the records before it have been processed, the records
    after it are not, and no run summary is written. *)
Theorem nameless_record_aborts :
  forall (self : collector) (before after : list json) (repo : json),
    Forall has_name before ->
    ~ has_name repo ->
    exists e,
      collect_repos self (before ++ repo :: after)
      = (Raise e, flat_map (item_trace self) before)
      /\ (exn_cls e = KeyError \/ exn_cls e = TypeError)
      /\ (forall fields, repo = JObj fields -> e = mkExn KeyError (py "name"))
      /\ summary_writes (snd (collect_repos self (before ++ repo :: after))) = [].
Proof.
  intros self before after repo Hnames Hno.
  destruct (json_subscript_nameless repo Hno) as (e & Hsub & Hcls & Hkey).
  exists e.
  assert (Hrun : collect_repos self (before ++ repo :: after)
                 = (Raise e, flat_map (item_trace self) before)).
  { destruct (collect_loop_spec requests_get os_makedirs write_text py_repr
                b64decode_utf8 self before initial_state Hnames) as (st & Hloop & _).
    assert (Hloop' : collect_loop self initial_state (before ++ repo :: after)
                     = (Raise e, flat_map (item_trace self) before)).
    { rewrite collect_loop_app, Hloop. cbn [bind Collector.collect_loop].
      unfold Collector.collect_one. rewrite Hsub. cbn [bind].
      rewrite app_nil_r. reflexivity. }
    unfold Collector.collect_repos.
    destruct (before ++ repo :: after) as [|r0 l0] eqn:E;
      [destruct before; discriminate|].
    rewrite Hloop'. reflexivity. }
  split; [exact Hrun|]. split; [exact Hcls|]. split; [exact Hkey|].
  rewrite Hrun. cbn [snd].
  apply (summary_writes_items requests_get os_makedirs write_text py_repr b64decode_utf8).
  exact Hnames.
Qed.

(** ** Where the README is written *)

Lemma ends_with_char_app : forall c x y,
  y <> [] -> ends_with_char c (x ++ y) = ends_with_char c y.
Proof.
  intros c x y Hy. unfold ends_with_char. rewrite rev_app_distr.
  destruct (rev y) as [|z zs] eqn:E; [| reflexivity].
  apply (f_equal (@rev N)) in E. rewrite rev_involutive in E. contradiction.
Qed.

Lemma os_path_join_plain : forall a b,
  a <> [] -> ends_with_char 47 a = false -> starts_with_char 47 b = false ->
  os_path_join a b = a ++ 47%N :: b.
Proof.
  intros a b Ha Hend Hb. unfold os_path_join. rewrite Hb, Hend.
  destruct a; [congruence | reflexivity].
Qed.

(** X5. [save_readme_to_file] creates the directory of the repository and
    then writes the file; the failure of either step is raised to the
    caller, and nothing is written when the directory cannot be created.
    For a plain name (not empty, no slash at either end) the file is
    [<readme_dir>/<name>/README.md]. For a name that starts with a slash
    [os.path.join] drops the README directory: the file is placed under
    the name itself. *)
Theorem save_readme_to_file_path :
  forall (self : collector) (name content : pystr),
    save_readme_to_file self (JStr name) content
    = match os_makedirs (os_path_join (readme_dir self) name) with
      | Some e => (Raise e, [EvMakedirs (os_path_join (readme_dir self) name)])
      | None =>
        (match write_text (readme_path self name) content with
         | None => Ok (readme_path self name)
         | Some e => Raise e
         end,
         [EvMakedirs (os_path_join (readme_dir self) name);
          EvWriteText (readme_path self name) content])
      end
    /\ (readme_dir self <> [] -> ends_with_char 47 (readme_dir self) = false ->
        name <> [] -> starts_with_char 47 name = false ->
        ends_with_char 47 name = false ->
        readme_path self name
        = readme_dir self ++ py "/" ++ name ++ py "/README.md")
    /\ (starts_with_char 47 name = true ->
        os_path_join (readme_dir self) name = name
        /\ readme_path self name = os_path_join name (py "README.md")).
Proof.
  intros self name content. split; [| split].
  - unfold Collector.save_readme_to_file. fold (readme_path self name).
    destruct (os_makedirs (os_path_join (readme_dir self) name)); [reflexivity|].
    destruct (write_text (readme_path self name) content); reflexivity.
  - intros Hdir Hdend Hname Hstart Hend. unfold readme_path.
    rewrite (os_path_join_plain (readme_dir self) name Hdir Hdend Hstart).
    rewrite os_path_join_plain.
    + rewrite <- app_assoc. reflexivity.
    + destruct (readme_dir self); discriminate.
    + change (readme_dir self ++ 47%N :: name) with (readme_dir self ++ [47%N] ++ name).
      rewrite app_assoc, ends_with_char_app; assumption.
    + reflexivity.
  - intro Hstart.
    assert (H : os_path_join (readme_dir self) name = name)
      by (unfold os_path_join; rewrite Hstart; reflexivity).
    split; [exact H|]. unfold readme_path. rewrite H. reflexivity.
Qed.

(** ** The whole run *)

(** X6. [collect_all_readmes] from end to end, when the listing serves the
    non-empty pages 1 to N (N at least 1) of named records and then stops:
    the listing requests come first, then the repositories are processed
    in the order of the listing, then the summary is written, once. The
    function returns the map of the collected repositories when the
    summary file can be written and raises the error of that write
    otherwise, although the README files are on disk by then. *)
Theorem collect_all_readmes_end_to_end :
  forall (self : collector) (pages : list (list json)) (fuel : nat),
    (forall i p, nth_error pages i = Some p ->
                 p <> [] /\ page_ok self (Z.of_nat (S i)) p) ->
    (page_ok self (Z.of_nat (S (length pages))) []
     \/ request_fails requests_get self (Z.of_nat (S (length pages)))) ->
    length pages < fuel ->
    pages <> [] ->
    Forall has_name (concat pages) ->
    exists paths,
      collect_all_readmes fuel self
      = (match json_dump (summary_path self)
                 (collection_summary (concat pages) paths) with
         | None => Ok paths
         | Some e => Raise e
         end,
         (pages_trace self 1 (length pages)
          ++ [org_repos_get self (Z.of_nat (S (length pages)))])
         ++ flat_map (item_trace self) (concat pages)
         ++ [EvJsonDump (summary_path self) (collection_summary (concat pages) paths)])
      /\ (forall name path,
            dict_get paths name = Some path
            <-> exists repo, In repo (concat pages) /\ collected self repo name path).
Proof.
  intros self pages fuel Hpages Hstop Hfuel Hne Hnames.
  destruct (collect_loop_spec requests_get os_makedirs write_text py_repr b64decode_utf8
              self (concat pages) initial_state Hnames) as (st & Hloop & _ & _ & Hp).
  exists (file_paths st). split.
  - unfold Collector.collect_all_readmes, Collector.get_organization_repos.
    rewrite (org_repos_loop_pages requests_get self pages fuel 1%Z []).
    + replace (1 + Z.of_nat (length pages))%Z with (Z.of_nat (S (length pages))) by lia.
      cbn [app bind].
      assert (Hsome : concat pages <> []).
      { destruct pages as [|p pages]; [congruence|].
        destruct (Hpages 0 p eq_refl) as [Hp0 _].
        cbn [concat]. destruct p; [congruence | discriminate]. }
      unfold Collector.collect_repos.
      destruct (concat pages) as [|r0 l0] eqn:E; [congruence|].
      rewrite Hloop. cbn [bind]. unfold save_collection_summary.
      destruct (json_dump _ _); cbn; rewrite ?app_nil_r; reflexivity.
    + intros i p Hp0. replace (1 + Z.of_nat i)%Z with (Z.of_nat (S i)) by lia. auto.
    + replace (1 + Z.of_nat (length pages))%Z with (Z.of_nat (S (length pages))) by lia.
      exact Hstop.
    + exact Hfuel.
  - intros name path. rewrite Hp.
    + split; [intros [H | H]; [exact H | discriminate] | intro H; left; exact H].
    + intros n p H. discriminate.
Qed.

(** X25. A listing that fails at its first request (a refused token, a
    network error) is not told apart from an organisation without
    repositories: [collect_all_readmes] returns the empty map after that
    single request, raises nothing and writes nothing, no run summary
    either. *)
Theorem failed_listing_yields_empty_run :
  forall (self : collector) (fuel : nat),
    page_ok self 1 [] \/ request_fails requests_get self 1 ->
    0 < fuel ->
    get_organization_repos fuel self = (Ok [], [org_repos_get self 1])
    /\ collect_all_readmes fuel self = (Ok [], [org_repos_get self 1]).
Proof.
  intros self fuel Hstop Hfuel.
  assert (Hlist : get_organization_repos fuel self = (Ok [], [org_repos_get self 1])).
  { unfold Collector.get_organization_repos.
    rewrite (org_repos_loop_pages requests_get self [] fuel 1%Z []).
    - reflexivity.
    - intros i p Hp. destruct i; discriminate.
    - exact Hstop.
    - exact Hfuel. }
  split; [exact Hlist|].
  unfold Collector.collect_all_readmes. rewrite Hlist. reflexivity.
Qed.

(** ** The map of collected files *)

Lemma dict_set_keys {A : Type} : forall (d : list (pystr * A)) k v,
  dict_keys (dict_set d k v)
  = match dict_get d k with
    | Some _ => dict_keys d
    | None => dict_keys d ++ [k]
    end.
Proof.
  induction d as [|[k0 v0] d IH]; intros k v; [reflexivity|].
  cbn [dict_set dict_get]. destruct (pystr_eqb k0 k) eqn:E; [reflexivity|].
  unfold dict_keys in *. cbn [map fst]. rewrite IH.
  destruct (dict_get d k); reflexivity.
Qed.

Lemma dict_get_none_keys {A : Type} : forall (d : list (pystr * A)) k,
  dict_get d k = None -> ~ In k (dict_keys d).
Proof.
  induction d as [|[k0 v0] d IH]; intros k H; [intros []|].
  cbn [dict_get] in H. destruct (pystr_eqb k0 k) eqn:E; [discriminate|].
  apply pystr_eqb_neq in E. intros [Hk | Hk]; [cbn in Hk; congruence|].
  exact (IH k H Hk).
Qed.

Lemma dict_set_nodup {A : Type} : forall (d : list (pystr * A)) k v,
  NoDup (dict_keys d) -> NoDup (dict_keys (dict_set d k v)).
Proof.
  intros d k v Hd. rewrite dict_set_keys.
  destruct (dict_get d k) eqn:E; [exact Hd|].
  apply NoDup_app; [exact Hd | repeat constructor; intros [] | ].
  intros x Hx [Hk | []]. subst x. exact (dict_get_none_keys d k E Hx).
Qed.

Lemma dict_set_length {A : Type} : forall (d : list (pystr * A)) k v,
  length (dict_set d k v) <= S (length d).
Proof.
  induction d as [|[k0 v0] d IH]; intros k v; [cbn; lia|].
  cbn [dict_set]. destruct (pystr_eqb k0 k); cbn [length]; [lia|].
  specialize (IH k v). lia.
Qed.

Lemma collect_loop_distinct : forall self repos st0,
  Forall has_name repos ->
  NoDup (dict_keys (file_paths st0)) ->
  length (file_paths st0) <= success_count st0 ->
  exists st t,
    collect_loop self st0 repos = (Ok st, t)
    /\ NoDup (dict_keys (file_paths st))
    /\ length (file_paths st) <= success_count st
    /\ success_count st + failed_count st
       = success_count st0 + failed_count st0 + length repos.
Proof.
  intros self repos. induction repos as [|repo repos IH]; intros st0 Hnames Hnd Hlen.
  - exists st0, []. cbn [length]. repeat split; try assumption. lia.
  - inversion Hnames as [|? ? (fields & v & -> & Hname) Hrest]; subst.
    cbn [Collector.collect_loop].
    destruct (collect_one_cases requests_get os_makedirs write_text py_repr
                b64decode_utf8 self fields v Hname)
      as (k & tail & _ & [(name & path & _ & Hone) | (_ & Hone)]); rewrite Hone;
      cbn [bind].
    + destruct (IH (collected_one st0 name path) Hrest) as (st & t & Hloop & H1 & H2 & H3).
      * cbn [file_paths collected_one]. apply dict_set_nodup. exact Hnd.
      * cbn [file_paths success_count collected_one].
        pose proof (dict_set_length (file_paths st0) name path). lia.
      * rewrite Hloop. eexists. eexists. split; [reflexivity|].
        split; [exact H1|]. split; [exact H2|].
        cbn [success_count failed_count collected_one length] in *. lia.
    + destruct (IH (failed_one st0) Hrest) as (st & t & Hloop & H1 & H2 & H3).
      * exact Hnd.
      * exact Hlen.
      * rewrite Hloop. eexists. eexists. split; [reflexivity|].
        split; [exact H1|]. split; [exact H2|].
        cbn [success_count failed_count failed_one length] in *. lia.
Qed.

(** X7. The map of collected files is keyed by repository name, so it holds
    every name once, and it can hold fewer entries than the loop counted
    successes (two records of one name share an entry). The number of
    failures in the run summary, the number of records minus the size of
    the map, is therefore never below the number of failed turns, and
    equals it exactly when the map is as large as the count of successes. *)
Theorem file_paths_distinct_names :
  forall (self : collector) (repos : list json),
    Forall has_name repos ->
    exists st t failed,
      collect_loop self initial_state repos = (Ok st, t)
      /\ NoDup (dict_keys (file_paths st))
      /\ length (file_paths st) <= success_count st
      /\ json_field (collection_summary repos (file_paths st)) (py "failed_collections")
         = Some (JInt failed)
      /\ (Z.of_nat (failed_count st) <= failed)%Z
      /\ (failed = Z.of_nat (failed_count st)
          <-> length (file_paths st) = success_count st).
Proof.
  intros self repos Hnames.
  destruct (collect_loop_distinct self repos initial_state Hnames)
    as (st & t & Hloop & Hnd & Hlen & Hsum).
  - constructor.
  - cbn. lia.
  - exists st, t, (Z.of_nat (length repos) - Z.of_nat (length (file_paths st)))%Z.
    cbn [success_count failed_count initial_state] in Hsum.
    split; [exact Hloop|]. split; [exact Hnd|]. split; [exact Hlen|].
    split; [reflexivity|]. split; lia.
Qed.

(** ** The test script and [main] *)

Abbreviation quiet := (quiet stdout_write).

Ltac print_cases_tac :=
  repeat (match goal with
          | |- context [print stdout_write ?x] =>
            rewrite (print_cases stdout_write x); destruct (stdout_write x)
          | |- context [is_value_error ?e] => destruct (is_value_error e)
          end;
          cbn [bind try_except any_exception ret fst snd app]).

Lemma preview_line_named : forall number repo u,
  fst (preview_line number repo) = Ok u -> has_name repo.
Proof.
  intros number repo u H. unfold preview_line in H.
  bind_ok H. rewrite did_fst in E.
  destruct repo as [ | b | n | m x | s | items | fields]; try discriminate E.
  cbn [json_subscript] in E.
  destruct (dict_get fields (py "name")) as [v |] eqn:Hname; [| discriminate E].
  exists fields, v. split; [reflexivity | exact Hname].
Qed.

Lemma preview_named : forall repos number u,
  fst (preview number repos) = Ok u -> Forall has_name repos.
Proof.
  induction repos as [|repo repos IH]; intros number u H; [constructor|].
  cbn [preview] in H. bind_ok H. constructor.
  - exact (preview_line_named number repo _ E).
  - exact (IH (S number) u H).
Qed.

Lemma preview_quiet : forall repos number,
  quiet -> Forall has_name repos -> fst (preview number repos) = Ok tt.
Proof.
  induction repos as [|repo repos IH]; intros number Hq Hall; [reflexivity|].
  inversion Hall as [|? ? (fields & v & -> & Hname) Hrest]; subst.
  cbn [preview]. rewrite bind_fst. unfold preview_line at 1.
  rewrite bind_fst, did_fst. cbn [json_subscript]. rewrite Hname. cbn [ret fst].
  destruct (format_field_ok py_repr fields (py "description") (py "无描述")) as (x & Hx).
  rewrite bind_fst, did_fst, Hx. cbn [fst].
  rewrite print_fst_quiet by apply Hq.
  apply IH; assumption.
Qed.

Lemma report_readme_quiet : forall test_repo readme_content,
  quiet -> fst (report_readme test_repo readme_content) = Ok tt.
Proof.
  intros test_repo readme_content Hq. unfold report_readme.
  destruct readme_content as [[|c t] |];
    repeat (rewrite bind_fst; rewrite print_fst_quiet by apply Hq; cbn [fst]);
    apply print_fst_quiet, Hq.
Qed.

(** What a passing run of the [try] block went through. *)
Lemma test_body_passes : forall fuel,
  fst (test_body fuel) = Ok true ->
  exists tok collector t first rest,
    os_getenv_startup (py "TOKEN") = Some tok /\ tok <> []
    /\ init None = (Ok collector, t)
    /\ fst (get_organization_repos fuel collector) = Ok (first :: rest)
    /\ Forall has_name (firstn 5 (first :: rest)).
Proof.
  intros fuel H. unfold test_body in H.
  destruct (os_getenv_startup (py "TOKEN")) as [[|c tok] |] eqn:Henv.
  - repeat bind_ok H; try discriminate H.
  - bind_ok H. rewrite did_fst in E.
    destruct (init None) as [r t] eqn:Hinit. cbn [fst] in E. subst r.
    do 3 bind_ok H.
    match goal with
    | Hl : fst (did (get_organization_repos _ _)) = Ok ?r |- _ =>
      rewrite did_fst in Hl; rename Hl into Hlist; destruct r as [|first rest]
    end.
    { repeat bind_ok H; try discriminate H. }
    do 3 bind_ok H.
    match goal with
    | Hp : fst (preview _ _) = Ok _ |- _ => rename Hp into Hprev
    end.
    exists (c :: tok), a, t, first, rest.
    split; [reflexivity|]. split; [discriminate|]. split; [reflexivity|].
    split; [exact Hlist|]. exact (preview_named _ _ _ Hprev).
  - repeat bind_ok H; try discriminate H.
Qed.

Lemma test_body_quiet : forall fuel tok collector t first rest,
  quiet ->
  os_getenv_startup (py "TOKEN") = Some tok -> tok <> [] ->
  init None = (Ok collector, t) ->
  fst (get_organization_repos fuel collector) = Ok (first :: rest) ->
  Forall has_name (firstn 5 (first :: rest)) ->
  fst (test_body fuel) = Ok true.
Proof.
  intros fuel tok collector t first rest Hq Henv Hne Hinit Hlist Hall.
  unfold test_body. rewrite Henv. destruct tok as [|c tok]; [congruence|].
  rewrite bind_fst, did_fst, Hinit. cbn [fst].
  do 2 (rewrite bind_fst; rewrite print_fst_quiet by apply Hq).
  rewrite bind_fst, did_fst, Hlist.
  do 2 (rewrite bind_fst; rewrite print_fst_quiet by apply Hq).
  rewrite bind_fst, (preview_quiet _ 1 Hq Hall).
  assert (Hfirst : has_name first) by (inversion Hall; assumption).
  destruct Hfirst as (fields & v & -> & Hname).
  rewrite bind_fst, did_fst. cbn [json_subscript]. rewrite Hname. cbn [ret fst].
  rewrite bind_fst; rewrite print_fst_quiet by apply Hq.
  destruct (get_repo_readme_ok requests_get py_repr b64decode_utf8 collector v)
    as (r & k & Hr).
  rewrite bind_fst, did_fst, Hr. cbn [fst].
  rewrite bind_fst, (report_readme_quiet v r Hq).
  rewrite bind_fst; rewrite print_fst_quiet by apply Hq.
  reflexivity.
Qed.

(** X8. The only exception that leaves the test script is one raised by
    [print] itself (the first line is printed outside the [try] statement,
    and both handlers print): the trace then ends with the line that the
    standard output refused, and with a standard output that takes every
    line the script never raises. The script reads TOKEN from the environment of
    the process before anything has loaded the [.env] file: when the
    variable is unset or empty there, neither the constructor nor a request
    is run and the verdict is not [True], whatever the [.env] file holds;
    with a standard output that takes every line the verdict is [False]
    after the four lines shown. A verdict [True] means that the variable is
    set, the constructor succeeded, the listing returned at least one record
    and the first five records have a name; with a standard output that
    takes every line these conditions are also enough. Whether the first
    repository has a README does not matter. *)
Theorem test_repo_collector_verdict :
  forall fuel : nat,
    raised_by_print stdout_write (test_repo_collector fuel)
    /\ (quiet -> forall e, fst (test_repo_collector fuel) <> Raise e)
    /\ (missing (os_getenv_startup (py "TOKEN")) ->
        calls (snd (test_repo_collector fuel)) = []
        /\ fst (test_repo_collector fuel) <> Ok true
        /\ (quiet ->
            test_repo_collector fuel
            = (Ok false,
               [Printed (py "开始测试GitHub仓库收集器...");
                Printed (py "⚠️  警告: 未找到GitHub TOKEN环境变量");
                Printed (py "请在.env文件中配置TOKEN=your_github_token");
                Printed (py "或者设置环境变量: export TOKEN=your_github_token")])))
    /\ (fst (test_repo_collector fuel) = Ok true ->
        exists tok collector t first rest,
          os_getenv_startup (py "TOKEN") = Some tok /\ tok <> []
          /\ init None = (Ok collector, t)
          /\ fst (get_organization_repos fuel collector) = Ok (first :: rest)
          /\ Forall has_name (firstn 5 (first :: rest)))
    /\ (quiet ->
        (exists tok collector t first rest,
           os_getenv_startup (py "TOKEN") = Some tok /\ tok <> []
           /\ init None = (Ok collector, t)
           /\ fst (get_organization_repos fuel collector) = Ok (first :: rest)
           /\ Forall has_name (firstn 5 (first :: rest))) ->
        fst (test_repo_collector fuel) = Ok true).
Proof.
  intro fuel.
  assert (Hprint : raised_by_print stdout_write (test_repo_collector fuel)).
  { unfold test_repo_collector.
    apply raised_by_print_bind; [apply raised_by_print_print|]. intros _.
    apply raised_by_print_try. intro e.
    destruct (is_value_error e);
      (apply raised_by_print_bind;
       [apply raised_by_print_print | intros _; apply raised_by_print_ret]). }
  split; [exact Hprint|].
  split; [intro Hq; exact (raised_by_print_quiet stdout_write _ _ Hq Hprint)|].
  split; [| split].
  - intro Hmiss.
    assert (Hbody : test_body fuel
                    = (say (py "⚠️  警告: 未找到GitHub TOKEN环境变量") ;;;
                       say (py "请在.env文件中配置TOKEN=your_github_token") ;;;
                       say (py "或者设置环境变量: export TOKEN=your_github_token") ;;;
                       ret false)).
    { unfold test_body. destruct Hmiss as [-> | ->]; reflexivity. }
    unfold test_repo_collector. rewrite Hbody.
    split; [| split].
    + print_cases_tac; reflexivity.
    + print_cases_tac; discriminate.
    + intro Hq. rewrite !(print_quiet stdout_write) by apply Hq. reflexivity.
  - unfold test_repo_collector. intro H. bind_ok H.
    rewrite try_except_fst in H.
    destruct (fst (test_body fuel)) as [b | e |] eqn:Hbody.
    + subst. apply test_body_passes. rewrite Hbody. exact H.
    + destruct (is_value_error e); bind_ok H; discriminate H.
    + discriminate H.
  - intros Hq (tok & collector & t & first & rest & Henv & Hne & Hinit & Hlist & Hall).
    unfold test_repo_collector.
    rewrite bind_fst; rewrite print_fst_quiet by apply Hq.
    rewrite try_except_fst.
    rewrite (test_body_quiet fuel tok collector t first rest Hq Henv Hne Hinit Hlist Hall).
    reflexivity.
Qed.

(** X9. The only exception that leaves [main] of the collector is one
    raised by the [print] of its handler: the trace then ends with the line
    that the standard output refused, and with a standard output that takes
    every line [main] never raises. Whatever else fails (no token, the
    README directory, a record without a name, the write of the run summary,
    the print of a result line), the handler prints the error and, when that
    line is taken, [main] returns the empty map, also when README files
    have been written by then. When the constructor and the collection
    succeed and the standard output takes every line, [main] returns the map
    of [collect_all_readmes]. Without a token no request is made and the
    README directory is not created. *)
Theorem main_contains_exceptions :
  forall fuel : nat,
    raised_by_print stdout_write (main fuel)
    /\ (quiet -> forall e, fst (main fuel) <> Raise e)
    /\ (missing (os_getenv (py "TOKEN")) ->
        main fuel
        = (match stdout_write (py "错误: " ++ exn_str token_required) with
           | None => Ok []
           | Some e => Raise e
           end,
           [Printed (py "错误: " ++ exn_str token_required)]))
    /\ (forall collector t paths t',
          init None = (Ok collector, t) ->
          collect_all_readmes fuel collector = (Ok paths, t') ->
          calls (snd (main fuel)) = t ++ t'
          /\ (quiet ->
              main fuel
              = (Ok paths,
                 map Did (t ++ t')
                 ++ [Printed (py "README收集完成！");
                     Printed (py "成功收集: " ++ str_nat (length paths) ++ py "个仓库");
                     Printed (py "文件保存位置: " ++ readme_dir collector)])))
    /\ (forall collector t e t',
          init None = (Ok collector, t) ->
          collect_all_readmes fuel collector = (Raise e, t') ->
          main fuel
          = (match stdout_write (py "错误: " ++ str_exn e) with
             | None => Ok []
             | Some e' => Raise e'
             end,
             map Did (t ++ t') ++ [Printed (py "错误: " ++ str_exn e)])).
Proof.
  intro fuel.
  assert (Hprint : raised_by_print stdout_write (main fuel)).
  { unfold main. apply raised_by_print_try. intro e.
    apply raised_by_print_bind;
      [apply raised_by_print_print | intros _; apply raised_by_print_ret]. }
  split; [exact Hprint|].
  split; [intro Hq; exact (raised_by_print_quiet stdout_write _ _ Hq Hprint)|].
  split; [| split].
  - intro Hmiss. unfold main.
    rewrite (init_without_token None (or_introl eq_refl) Hmiss).
    cbn [did fst snd map bind try_except any_exception].
    change (str_exn token_required) with (exn_str token_required).
    rewrite print_cases. destruct (stdout_write _); reflexivity.
  - intros collector t paths t' Hinit Hrun. split.
    + unfold main. run_step. rewrite Hinit. run_step. rewrite Hrun. run_step.
      repeat (rewrite print_fst;
              match goal with
              | |- context [stdout_write ?x] => destruct (stdout_write x)
              end; run_step);
        rewrite ?calls_app, ?calls_did; cbn [calls flat_map app];
        rewrite ?app_nil_r; reflexivity.
    + intro Hq. apply pair_split; unfold main; run_step; rewrite Hinit; run_step;
        rewrite Hrun; run_step; rewrite !print_fst_quiet by apply Hq; run_step;
        rewrite ?print_fst_quiet by apply Hq; run_step; [reflexivity|].
      rewrite map_app, <- !app_assoc. reflexivity.
  - intros collector t e t' Hinit Hrun.
    apply pair_split; unfold main; run_step; rewrite Hinit; run_step;
      rewrite Hrun; run_step.
    + rewrite print_fst. destruct (stdout_write _); reflexivity.
    + rewrite print_fst. rewrite map_app.
      destruct (stdout_write _); cbn; rewrite ?app_nil_r; reflexivity.
Qed.

End World.

(** ** Concrete worlds *)

(** Page 1 holds the repositories [a] and [b]; the body of page 2 cannot
    be decoded, and the decoder raises an exception that is no
    [RequestException]. *)
Definition undecodable : exn := mkExn ValueError (py "Expecting value").

Definition undecodable_get (url : pystr) (hdrs params : dict) : outcome response :=
  match dict_get params (py "page") with
  | Some (JInt 1) => Returned (ok_response (JArr demo_repos))
  | _ => Returned {| status_code := 200; reason := py "OK";
                     json_body := Raised undecodable |}
  end.

Lemma listing_exception_escapes_witness :
  fst (get_organization_repos undecodable_get 5 demo_collector) = Raise undecodable
  /\ requested_pages (snd (get_organization_repos undecodable_get 5 demo_collector))
     = [1%Z; 2%Z].
Proof.
  destruct (listing_exception_escapes undecodable_get demo_collector [demo_repos] 5
              undecodable) as (H1 & H2).
  - intros i p Hp. destruct i as [|[|i]]; simpl in Hp; inversion Hp; subst.
    split; [discriminate|].
    exists (ok_response (JArr demo_repos)). repeat split.
  - right. eexists. split; [reflexivity|]. split; [reflexivity|]. left. reflexivity.
  - reflexivity.
  - simpl. lia.
  - split; [rewrite H1; reflexivity | exact H2].
Defined.

(** A token that the API refuses. *)
Definition unauthorized_get (url : pystr) (hdrs params : dict) : outcome response :=
  Returned {| status_code := 401; reason := py "Unauthorized";
              json_body := Returned (JObj [(py "message", JStr (py "Bad credentials"))]) |}.

Lemma failed_listing_yields_empty_run_witness :
  collect_all_readmes unauthorized_get demo_ok1 demo_ok2 demo_dump (py "now") demo_repr
    demo_b64 5 demo_collector
  = (Ok [], [org_repos_get demo_collector 1]).
Proof.
  destruct (failed_listing_yields_empty_run unauthorized_get demo_ok1 demo_ok2 demo_dump
              (py "now") demo_repr demo_b64 demo_collector 5) as (_ & H).
  - right. right. eexists. split; [reflexivity|]. left. reflexivity.
  - lia.
  - exact H.
Defined.

(** The README.md of [a] exists and is empty. *)
Definition empty_b64 (s : pystr) : outcome pystr := Returned [].

Lemma empty_readme_counts_as_failure_witness :
  collect_one demo_get demo_ok1 demo_ok2 demo_repr empty_b64 demo_collector
    initial_state (demo_repo "a")
  = (Ok (failed_one initial_state),
     [readme_get demo_repr demo_collector (JStr (py "a")) (py "README.md");
      EvSleep 200]).
Proof.
  apply (empty_readme_counts_as_failure demo_get demo_ok1 demo_ok2 demo_repr empty_b64
           demo_collector initial_state
           [(py "name", JStr (py "a")); (py "stargazers_count", JInt 7)]
           (JStr (py "a"))
           [readme_get demo_repr demo_collector (JStr (py "a")) (py "README.md")]).
  - reflexivity.
  - right. reflexivity.
Defined.

(** A listing whose second record has no name. *)
Definition nameless : json := JObj [(py "id", JInt 2)].

Lemma nameless_record_aborts_witness :
  exists e,
    collect_repos demo_get demo_ok1 demo_ok2 demo_dump (py "now") demo_repr demo_b64
      demo_collector ([demo_repo "a"] ++ nameless :: [demo_repo "b"])
    = (Raise e,
       flat_map (item_trace demo_get demo_ok1 demo_ok2 demo_repr demo_b64 demo_collector)
         [demo_repo "a"])
    /\ e = mkExn KeyError (py "name").
Proof.
  destruct (nameless_record_aborts demo_get demo_ok1 demo_ok2 demo_dump (py "now")
              demo_repr demo_b64 demo_collector [demo_repo "a"] [demo_repo "b"] nameless)
    as (e & H1 & _ & H3 & _).
  - repeat constructor. eexists. eexists. split; reflexivity.
  - intros (fields & v & Hf & Hv). inversion Hf; subst fields. discriminate.
  - exists e. split; [exact H1 | exact (H3 _ eq_refl)].
Defined.

Lemma collect_all_readmes_end_to_end_witness :
  exists paths,
    fst (collect_all_readmes demo_get demo_ok1 demo_ok2 demo_dump (py "now") demo_repr
           demo_b64 5 demo_collector)
    = Ok paths.
Proof.
  destruct (collect_all_readmes_end_to_end demo_get demo_ok1 demo_ok2 demo_dump
              (py "now") demo_repr demo_b64 demo_collector [demo_repos] 5)
    as (paths & H & _).
  - intros i p Hp. destruct i as [|[|i]]; simpl in Hp; inversion Hp; subst.
    split; [discriminate|].
    exists (ok_response (JArr demo_repos)). repeat split.
  - left. exists (ok_response (JArr [])). repeat split.
  - simpl. lia.
  - discriminate.
  - repeat constructor; (eexists; eexists; split; reflexivity).
  - exists paths. rewrite H. reflexivity.
Defined.

(** Two records of the name [a]: two successes, one entry in the map, and a
    run summary that reports one failure although no turn failed. *)
Definition twins : list json := [demo_repo "a"; demo_repo "a"].

Lemma file_paths_distinct_names_witness :
  exists st t failed,
    collect_loop demo_get demo_ok1 demo_ok2 demo_repr demo_b64 demo_collector
      initial_state twins
    = (Ok st, t)
    /\ NoDup (dict_keys (file_paths st))
    /\ (Z.of_nat (failed_count st) <= failed)%Z.
Proof.
  destruct (file_paths_distinct_names demo_get demo_ok1 demo_ok2 (py "now") demo_repr
              demo_b64 demo_collector twins)
    as (st & t & failed & H1 & H2 & _ & _ & H5 & _).
  - repeat constructor; (eexists; eexists; split; reflexivity).
  - exists st, t, failed. split; [exact H1|]. split; [exact H2 | exact H5].
Defined.

Example twins_counts :
  exists st t,
    collect_loop demo_get demo_ok1 demo_ok2 demo_repr demo_b64 demo_collector
      initial_state twins
    = (Ok st, t)
    /\ success_count st = 2 /\ failed_count st = 0 /\ length (file_paths st) = 1
    /\ json_field (collection_summary (py "now") twins (file_paths st))
         (py "failed_collections")
       = Some (JInt 1).
Proof. eexists. eexists. split; [reflexivity|]. repeat split. Qed.

(** An organisation whose repositories have no README at all. *)
Definition empty_readmes_get (url : pystr) (hdrs params : dict) : outcome response :=
  if pystr_eqb url (py "https://api.github.com/orgs/datawhalechina/repos") then
    match dict_get params (py "page") with
    | Some (JInt 1) => Returned (ok_response (JArr demo_repos))
    | _ => Returned (ok_response (JArr []))
    end
  else Returned not_found.

(** TOKEN is set in the [.env] file only: the constructor finds it, the
    test script does not. *)
Definition no_env (name : pystr) : option pystr := None.
Definition dotenv_token (name : pystr) : option pystr :=
  if pystr_eqb name (py "TOKEN") then Some (py "t") else None.

(** A standard output that takes every line, and one with an ASCII
    encoding, where a line with any other character raises
    [UnicodeEncodeError], a [ValueError]. *)
Definition any_console (text : pystr) : option exn := None.

Definition ascii_refuses : exn := mkExn ValueError (py "'ascii' codec can't encode characters").

Definition ascii_console (text : pystr) : option exn :=
  if forallb (fun c => (c <? 128)%N) text then None else Some ascii_refuses.

Example test_repo_collector_ignores_dotenv :
  init dotenv_token demo_ok1 None
  = (Ok demo_collector, [EvMakedirs (py "database/readme_db")])
  /\ test_repo_collector demo_get no_env dotenv_token demo_ok1 demo_repr demo_b64
       any_console 5
     = (Ok false,
        [Printed (py "开始测试GitHub仓库收集器...");
         Printed (py "⚠️  警告: 未找到GitHub TOKEN环境变量");
         Printed (py "请在.env文件中配置TOKEN=your_github_token");
         Printed (py "或者设置环境变量: export TOKEN=your_github_token")]).
Proof. split; vm_compute; reflexivity. Qed.

Example test_repo_collector_passes_without_readme :
  fst (test_repo_collector empty_readmes_get dotenv_token dotenv_token demo_ok1 demo_repr
         demo_b64 any_console 5)
  = Ok true
  /\ printed (snd (test_repo_collector empty_readmes_get dotenv_token dotenv_token demo_ok1
                     demo_repr demo_b64 any_console 5))
     = [py "开始测试GitHub仓库收集器...";
        py "✅ 收集器初始化成功";
        py "📋 测试获取仓库列表...";
        py "✅ 成功获取到 2 个仓库";
        py "前5个仓库:";
        py "  1. a - 无描述";
        py "  2. b - 无描述";
        nl ++ py "📖 测试获取README: a";
        py "⚠️  仓库 a 没有找到README文件";
        nl ++ py "🎉 测试完成！收集器功能正常"].
Proof. split; vm_compute; reflexivity. Qed.

(** On a standard output with an ASCII encoding the first line of the test
    script, printed before the [try] statement, raises; so does the error
    line of [main] when there is no token. *)
Example test_repo_collector_ascii_console :
  test_repo_collector demo_get dotenv_token dotenv_token demo_ok1 demo_repr demo_b64
    ascii_console 5
  = (Raise ascii_refuses, [Printed (py "开始测试GitHub仓库收集器...")]).
Proof. vm_compute. reflexivity. Qed.

Example main_ascii_console :
  main demo_get no_env demo_ok1 demo_ok2 demo_dump (py "now") demo_repr demo_b64
    ascii_console 5
  = (Raise ascii_refuses,
     [Printed (py "错误: GitHub token is required. Please set TOKEN environment variable.")]).
Proof. vm_compute. reflexivity. Qed.

End CollectorRun.

(** * The summarizer: metadata, reading, prompts and counts *)

Module SummarizerRun.
Import Summarizer.

(** ** extract_metadata *)

(** [s.split('\n')] *)
Fixpoint split_lines (s : pystr) : list pystr :=
  match s with
  | [] => [[]]
  | c :: s' =>
    if (c =? 10)%N then [] :: split_lines s'
    else match split_lines s' with
         | line :: rest => (c :: line) :: rest
         | [] => [[c]]
         end
  end.

(** [m in s] *)
Fixpoint contains (m s : pystr) : bool :=
  starts_with m s
  || match s with
     | [] => false
     | _ :: s' => contains m s'
     end.

(** The text after the first [c] of [s]: [s.split(c, 1)[1]] when [c in s]. *)
Fixpoint after_first (c : N) (s : pystr) : option pystr :=
  match s with
  | [] => None
  | x :: s' => if (x =? c)%N then Some s' else after_first c s'
  end.

(** [line.split(':', 1)[1].strip() if ':' in line else ''] *)
Definition line_value (line : pystr) : pystr :=
  match after_first 58 line with
  | Some v => py_strip v
  | None => []
  end.

(** The body of [for line in lines[:20]]. *)
Definition scan_line (metadata : list (pystr * pystr)) (line : pystr)
  : list (pystr * pystr) :=
  if contains (py "仓库描述") line
  then dict_set metadata (py "description") (line_value line)
  else if contains (py "仓库地址") line
  then dict_set metadata (py "url") (line_value line)
  else if contains (py "创建时间") line
  then dict_set metadata (py "created_at") (line_value line)
  else if contains (py "更新时间") line
  then dict_set metadata (py "updated_at") (line_value line)
  else if contains (py "主要语言") line
  then dict_set metadata (py "language") (line_value line)
  else if contains (py "Star数") line
  then dict_set metadata (py "stars") (line_value line)
  else metadata.

Definition extract_metadata (content : pystr) : list (pystr * pystr) :=
  fold_left scan_line (firstn 20 (split_lines content)) [].

(** *** Observations *)

Definition metadata_keys : list pystr :=
  [py "description"; py "url"; py "created_at"; py "updated_at"; py "language";
   py "stars"].

Definition labels : list pystr :=
  [py "仓库描述"; py "仓库地址"; py "创建时间"; py "更新时间"; py "主要语言"; py "Star数"].

(** [v] holds no line break. *)
Definition single_line (v : pystr) : bool := forallb (fun c => negb (c =? 10)%N) v.

(** [v] holds none of the labels that [extract_metadata] looks for. *)
Definition no_label (v : pystr) : bool := forallb (fun m => negb (contains m v)) labels.

(** A value that can stand in a line of the header without being taken
    for another line. *)
Definition tame (v : pystr) : bool := single_line v && no_label v.

(** The number of line breaks of [s]. *)
Definition line_breaks (s : pystr) : nat :=
  length (filter (fun c => (c =? 10)%N) s).

(** [q] may be the start of an occurrence of [m]: one is a prefix of the
    other. *)
Fixpoint compatible (m q : pystr) : bool :=
  match m, q with
  | [], _ => true
  | _, [] => true
  | x :: m', y :: q' => (x =? y)%N && compatible m' q'
  end.

(** No occurrence of [m] starts inside [pre], whatever follows [pre]. *)
Fixpoint straddle_free (m pre : pystr) : bool :=
  match pre with
  | [] => true
  | _ :: pre' => negb (compatible m pre) && straddle_free m pre'
  end.

(** The text [f"{v}"] of the field [k] of a repository record, as
    [render_repo_info] prints it. *)
Definition field_text (py_repr : json -> pystr) (fields : list (pystr * json))
  (k default : pystr) : pystr :=
  match dict_get fields k with
  | Some x => Collector.format_value py_repr x
  | None => default
  end.

(** *** The keys and the twenty lines *)

Lemma scan_line_keys : forall metadata line,
  scan_line metadata line = metadata
  \/ exists k v, In k metadata_keys /\ scan_line metadata line = dict_set metadata k v.
Proof.
  intros metadata line. unfold scan_line.
  repeat match goal with
         | |- context [if contains ?m line then _ else _] =>
           destruct (contains m line);
           [right; eexists; eexists; split; [| reflexivity]; cbn; tauto|]
         end.
  left. reflexivity.
Qed.

Lemma fold_scan_keys : forall lines metadata,
  NoDup (dict_keys metadata) ->
  (forall k, In k (dict_keys metadata) -> In k metadata_keys) ->
  NoDup (dict_keys (fold_left scan_line lines metadata))
  /\ (forall k, In k (dict_keys (fold_left scan_line lines metadata)) ->
                In k metadata_keys).
Proof.
  induction lines as [|line lines IH]; intros metadata Hnd Hin; [split; assumption|].
  cbn [fold_left]. apply IH.
  - destruct (scan_line_keys metadata line) as [-> | (k & v & _ & ->)]; [exact Hnd|].
    apply CollectorRun.dict_set_nodup. exact Hnd.
  - intros k0 Hk0.
    destruct (scan_line_keys metadata line) as [E | (k & v & Hk & E)]; rewrite E in Hk0.
    + apply Hin. exact Hk0.
    + rewrite CollectorRun.dict_set_keys in Hk0.
      destruct (dict_get metadata k); [apply Hin; exact Hk0|].
      apply in_app_or in Hk0. destruct Hk0 as [H | [<- | []]]; [apply Hin; exact H | exact Hk].
Qed.

Lemma split_lines_nonempty : forall s, split_lines s <> [].
Proof.
  destruct s as [|c s]; cbn; [discriminate|].
  destruct (c =? 10)%N; [discriminate|]. destruct (split_lines s); discriminate.
Qed.

Lemma firstn_split_lines : forall a b n,
  n <= line_breaks a ->
  firstn n (split_lines (a ++ b)) = firstn n (split_lines a).
Proof.
  induction a as [|c a IH]; intros b n Hn.
  - cbn in Hn. replace n with 0 by lia. reflexivity.
  - unfold line_breaks in Hn. cbn [filter app split_lines] in *.
    destruct (c =? 10)%N.
    + destruct n as [|n]; [reflexivity|]. cbn [firstn]. f_equal.
      apply IH. cbn [length] in Hn. unfold line_breaks. lia.
    + destruct n as [|n]; [reflexivity|].
      specialize (IH b (S n) Hn).
      destruct (split_lines (a ++ b)) as [|l ls] eqn:E1;
        [exfalso; exact (split_lines_nonempty _ E1)|].
      destruct (split_lines a) as [|l' ls'] eqn:E2;
        [exfalso; exact (split_lines_nonempty _ E2)|].
      cbn [firstn] in *. inversion IH. reflexivity.
Qed.

(** X10. [extract_metadata] yields a map with at most the six keys
    description, url, created_at, updated_at, language and stars, each at
    most once, and reads the first twenty lines only: the text that follows
    the twentieth line break has no influence on the result. *)
Theorem extract_metadata_scope :
  forall content : pystr,
    NoDup (dict_keys (extract_metadata content))
    /\ (forall k, In k (dict_keys (extract_metadata content)) -> In k metadata_keys)
    /\ length (extract_metadata content) <= 6
    /\ (forall head rest,
          content = head ++ rest -> 20 <= line_breaks head ->
          extract_metadata content = extract_metadata head).
Proof.
  intro content.
  destruct (fold_scan_keys (firstn 20 (split_lines content)) [])
    as (Hnd & Hin); [constructor | intros k [] |].
  split; [exact Hnd|]. split; [exact Hin|]. split.
  - replace (length (extract_metadata content))
      with (length (dict_keys (extract_metadata content)))
      by (unfold dict_keys; apply length_map).
    change 6 with (length metadata_keys).
    apply NoDup_incl_length; [exact Hnd | exact Hin].
  - intros head rest -> Hbreaks. unfold extract_metadata.
    rewrite (firstn_split_lines head rest 20 Hbreaks). reflexivity.
Qed.

(** *** The header written by the collector *)

Lemma split_lines_line : forall a rest,
  single_line a = true -> split_lines (a ++ 10%N :: rest) = a :: split_lines rest.
Proof.
  induction a as [|c a IH]; intros rest Ha; [reflexivity|].
  cbn [single_line forallb] in Ha. apply andb_true_iff in Ha. destruct Ha as [Hc Ha].
  apply negb_true_iff in Hc. cbn [app split_lines]. rewrite Hc, (IH rest Ha). reflexivity.
Qed.

Lemma split_lines_last : forall s, split_lines (s ++ [10%N]) = split_lines s ++ [[]].
Proof.
  induction s as [|c s IH]; [reflexivity|].
  cbn [app split_lines]. rewrite IH. destruct (c =? 10)%N; [reflexivity|].
  destruct (split_lines s) as [|l ls] eqn:E; [exfalso; exact (split_lines_nonempty _ E)|].
  reflexivity.
Qed.

Lemma single_line_app : forall a b,
  single_line a = true -> single_line b = true -> single_line (a ++ b) = true.
Proof.
  intros a b Ha Hb. unfold single_line in *. rewrite forallb_app, Ha, Hb. reflexivity.
Qed.

Lemma strip_prefix_incompatible : forall m q v,
  compatible m q = false -> strip_prefix m (q ++ v) = None.
Proof.
  induction m as [|x m IH]; intros q v H; [discriminate|].
  destruct q as [|y q]; [discriminate|].
  cbn [compatible] in H. cbn [app strip_prefix].
  destruct (x =? y)%N; [| reflexivity]. apply IH. exact H.
Qed.

Lemma contains_straddle_free : forall m pre v,
  straddle_free m pre = true -> contains m (pre ++ v) = contains m v.
Proof.
  intros m pre v. induction pre as [|c pre IH]; intro H; [reflexivity|].
  cbn [straddle_free] in H. apply andb_true_iff in H. destruct H as [Hc Hpre].
  apply negb_true_iff in Hc.
  change ((c :: pre) ++ v) with (c :: pre ++ v) at 1. cbn [contains].
  unfold starts_with at 1.
  change (c :: pre ++ v) with ((c :: pre) ++ v).
  rewrite (strip_prefix_incompatible m (c :: pre) v Hc). cbn [orb]. apply IH. exact Hpre.
Qed.

Lemma strip_prefix_app_some : forall m s r v,
  strip_prefix m s = Some r -> strip_prefix m (s ++ v) = Some (r ++ v).
Proof.
  induction m as [|x m IH]; intros s r v H.
  - inversion H. reflexivity.
  - destruct s as [|y s]; [discriminate|]. cbn [strip_prefix app] in *.
    destruct (x =? y)%N; [| discriminate]. apply IH. exact H.
Qed.

Lemma contains_prefix : forall m pre v,
  contains m pre = true -> contains m (pre ++ v) = true.
Proof.
  intros m pre v. induction pre as [|c pre IH]; intro H.
  - cbn [contains] in H. rewrite orb_false_r in H. unfold starts_with in H.
    destruct m as [|x m]; [| discriminate].
    destruct v; reflexivity.
  - cbn [contains] in H. apply orb_true_iff in H.
    change ((c :: pre) ++ v) with (c :: pre ++ v). cbn [contains].
    destruct H as [H | H].
    + unfold starts_with in *. change (c :: pre ++ v) with ((c :: pre) ++ v).
      destruct (strip_prefix m (c :: pre)) as [r |] eqn:E; [| discriminate].
      rewrite (strip_prefix_app_some m (c :: pre) r v E). reflexivity.
    + rewrite (IH H). apply orb_true_r.
Qed.

Lemma after_first_app : forall c pre r v,
  after_first c pre = Some r -> after_first c (pre ++ v) = Some (r ++ v).
Proof.
  intros c pre r v. induction pre as [|x pre IH]; intro H; [discriminate|].
  cbn [after_first app] in *. destruct (x =? c)%N.
  - inversion H. reflexivity.
  - apply IH. exact H.
Qed.

Lemma no_label_each : forall v,
  no_label v = true ->
  contains (py "仓库描述") v = false /\ contains (py "仓库地址") v = false
  /\ contains (py "创建时间") v = false /\ contains (py "更新时间") v = false
  /\ contains (py "主要语言") v = false /\ contains (py "Star数") v = false.
Proof.
  intros v H. unfold no_label, labels in H. cbn [forallb] in H.
  repeat (apply andb_true_iff in H; destruct H as [?H H]).
  repeat match goal with
         | H : negb _ = true |- _ => apply negb_true_iff in H
         end.
  repeat split; assumption.
Qed.

Lemma scan_line_no_label : forall metadata line,
  no_label line = true -> scan_line metadata line = metadata.
Proof.
  intros metadata line H.
  destruct (no_label_each line H) as (H1 & H2 & H3 & H4 & H5 & H6).
  unfold scan_line. rewrite H1, H2, H3, H4, H5, H6. reflexivity.
Qed.

Lemma fold_scan_no_label : forall lines metadata,
  Forall (fun l => no_label l = true) lines ->
  fold_left scan_line lines metadata = metadata.
Proof.
  induction lines as [|l lines IH]; intros metadata H; [reflexivity|].
  inversion H; subst. cbn [fold_left]. rewrite scan_line_no_label by assumption.
  apply IH. assumption.
Qed.

(** A line [prefix ++ v] in which no label starts inside the prefix and [v]
    holds none. *)
Lemma no_label_after_prefix : forall pre v,
  forallb (fun m => straddle_free m pre) labels = true ->
  no_label v = true -> no_label (pre ++ v) = true.
Proof.
  intros pre v Hpre Hv. unfold no_label in *.
  rewrite forallb_forall in *. intros m Hm.
  rewrite (contains_straddle_free m pre v (Hpre m Hm)). apply Hv. exact Hm.
Qed.

Ltac skip_label :=
  match goal with
  | Hv : contains ?m ?v = false |- context [contains ?m (?pre ++ ?v)] =>
    rewrite (contains_straddle_free m pre v eq_refl), Hv
  end.

Ltac take_label :=
  match goal with
  | |- context [contains ?m (?pre ++ ?v)] =>
    rewrite (contains_prefix m pre v eq_refl)
  end;
  unfold line_value;
  match goal with
  | |- context [after_first 58 (?pre ++ ?v)] =>
    rewrite (after_first_app 58 pre [32%N] v eq_refl)
  end;
  reflexivity.

Lemma scan_description : forall metadata v,
  scan_line metadata (py "**仓库描述**: " ++ v)
  = dict_set metadata (py "description") (py_strip v).
Proof. intros metadata v. unfold scan_line. take_label. Qed.

Lemma scan_url : forall metadata v,
  no_label v = true ->
  scan_line metadata (py "**仓库地址**: " ++ v) = dict_set metadata (py "url") (py_strip v).
Proof.
  intros metadata v H. destruct (no_label_each v H) as (H1 & H2 & H3 & H4 & H5 & H6).
  unfold scan_line. repeat skip_label. take_label.
Qed.

Lemma scan_created_at : forall metadata v,
  no_label v = true ->
  scan_line metadata (py "**创建时间**: " ++ v)
  = dict_set metadata (py "created_at") (py_strip v).
Proof.
  intros metadata v H. destruct (no_label_each v H) as (H1 & H2 & H3 & H4 & H5 & H6).
  unfold scan_line. repeat skip_label. take_label.
Qed.

Lemma scan_updated_at : forall metadata v,
  no_label v = true ->
  scan_line metadata (py "**更新时间**: " ++ v)
  = dict_set metadata (py "updated_at") (py_strip v).
Proof.
  intros metadata v H. destruct (no_label_each v H) as (H1 & H2 & H3 & H4 & H5 & H6).
  unfold scan_line. repeat skip_label. take_label.
Qed.

Lemma scan_language : forall metadata v,
  no_label v = true ->
  scan_line metadata (py "**主要语言**: " ++ v)
  = dict_set metadata (py "language") (py_strip v).
Proof.
  intros metadata v H. destruct (no_label_each v H) as (H1 & H2 & H3 & H4 & H5 & H6).
  unfold scan_line. repeat skip_label. take_label.
Qed.

Lemma scan_stars : forall metadata v,
  no_label v = true ->
  scan_line metadata (py "**Star数**: " ++ v) = dict_set metadata (py "stars") (py_strip v).
Proof.
  intros metadata v H. destruct (no_label_each v H) as (H1 & H2 & H3 & H4 & H5 & H6).
  unfold scan_line. repeat skip_label. take_label.
Qed.

Lemma split_lines_field : forall pre v rest,
  single_line pre = true -> single_line v = true ->
  split_lines (pre ++ v ++ Collector.nl ++ rest) = (pre ++ v) :: split_lines rest.
Proof.
  intros pre v rest Hpre Hv. rewrite app_assoc.
  apply split_lines_line. apply single_line_app; assumption.
Qed.

Lemma Forall_firstn {A : Type} : forall (P : A -> Prop) n l,
  Forall P l -> Forall P (firstn n l).
Proof.
  intros P n. induction n as [|n IH]; intros l H; [constructor|].
  destruct H; cbn [firstn]; constructor; auto.
Qed.

Lemma format_field_text : forall py_repr fields k default,
  Collector.format_field py_repr (JObj fields) k default
  = (Ok (field_text py_repr fields k default), []).
Proof.
  intros py_repr fields k default. unfold Collector.format_field, field_text.
  destruct (dict_get fields k); reflexivity.
Qed.

(** X11. The header of the collector and [extract_metadata] fit together.
    The text that [collect_all_readmes] renders for a README file (a
    header with the six fields of the repository record, then the README
    itself) gives, under [extract_metadata], the six fields with the
    surrounding white space removed, in the order description, url, created_at, updated_at,
    language, stars. This holds when the name and the fields are single
    lines that hold none of the six labels (the description may hold them)
    and none of the first nine lines of the README itself holds a label:
    these lines are among the twenty that are scanned. *)
Theorem metadata_round_trip :
  forall (py_repr : json -> pystr) (fields : list (pystr * json))
         (name readme : pystr),
    tame name = true ->
    single_line (field_text py_repr fields (py "description") (py "无描述")) = true ->
    tame (field_text py_repr fields (py "html_url") []) = true ->
    tame (field_text py_repr fields (py "created_at") []) = true ->
    tame (field_text py_repr fields (py "updated_at") []) = true ->
    tame (field_text py_repr fields (py "language") (py "未知")) = true ->
    tame (field_text py_repr fields (py "stargazers_count") (py "0")) = true ->
    Forall (fun l => no_label l = true) (firstn 9 (split_lines readme)) ->
    exists content,
      Collector.render_repo_info py_repr (JObj fields) (JStr name) readme
      = (Ok content, [])
      /\ extract_metadata content
         = [(py "description",
             py_strip (field_text py_repr fields (py "description") (py "无描述")));
            (py "url", py_strip (field_text py_repr fields (py "html_url") []));
            (py "created_at", py_strip (field_text py_repr fields (py "created_at") []));
            (py "updated_at", py_strip (field_text py_repr fields (py "updated_at") []));
            (py "language",
             py_strip (field_text py_repr fields (py "language") (py "未知")));
            (py "stars",
             py_strip (field_text py_repr fields (py "stargazers_count") (py "0")))].
Proof.
  intros py_repr fields name readme Hname Hd Hu Hc Hp Hl Hs Hreadme.
  unfold tame in *.
  apply andb_true_iff in Hname, Hu, Hc, Hp, Hl, Hs.
  destruct Hname as [Hn1 Hn2], Hu as [Hu1 Hu2], Hc as [Hc1 Hc2], Hp as [Hp1 Hp2],
           Hl as [Hl1 Hl2], Hs as [Hs1 Hs2].
  eexists. split.
  - unfold Collector.render_repo_info. rewrite !format_field_text. cbn [bind ret app].
    reflexivity.
  - unfold extract_metadata. cbn [Collector.format_value].
    rewrite (split_lines_field (py "# ") name _ eq_refl Hn1).
    change (split_lines (Collector.nl ++ ?r)) with ([] :: split_lines r).
    rewrite (split_lines_field (py "**仓库描述**: ") _ _ eq_refl Hd).
    rewrite (split_lines_field (py "**仓库地址**: ") _ _ eq_refl Hu1).
    rewrite (split_lines_field (py "**创建时间**: ") _ _ eq_refl Hc1).
    rewrite (split_lines_field (py "**更新时间**: ") _ _ eq_refl Hp1).
    rewrite (split_lines_field (py "**主要语言**: ") _ _ eq_refl Hl1).
    rewrite (split_lines_field (py "**Star数**: ") _ _ eq_refl Hs1).
    change (split_lines (Collector.nl ++ ?r)) with ([] :: split_lines r).
    change (py "---" ++ Collector.nl ++ ?r) with (py "---" ++ 10%N :: r).
    rewrite (split_lines_line (py "---") _ eq_refl).
    change (split_lines (Collector.nl ++ ?r)) with ([] :: split_lines r).
    change (readme ++ Collector.nl) with (readme ++ [10%N]).
    rewrite split_lines_last.
    do 11 rewrite firstn_cons. cbn [fold_left].
    rewrite (scan_line_no_label [] (py "# " ++ name))
      by (apply no_label_after_prefix; [reflexivity | exact Hn2]).
    rewrite (scan_line_no_label [] []) by reflexivity.
    rewrite scan_description, (scan_url _ _ Hu2), (scan_created_at _ _ Hc2),
      (scan_updated_at _ _ Hp2), (scan_language _ _ Hl2), (scan_stars _ _ Hs2).
    rewrite (scan_line_no_label _ []) by reflexivity.
    rewrite (scan_line_no_label _ (py "---")) by reflexivity.
    rewrite (scan_line_no_label _ []) by reflexivity.
    rewrite fold_scan_no_label; [reflexivity|].
    rewrite firstn_app. apply Forall_app. split; [exact Hreadme|].
    apply Forall_firstn. repeat constructor.
Qed.

Lemma metadata_round_trip_witness :
  exists content,
    Collector.render_repo_info Collector.demo_repr (Collector.demo_repo "a")
      (JStr (py "a")) (py "hello")
    = (Ok content, [])
    /\ extract_metadata content
       = [(py "description", py "无描述"); (py "url", []); (py "created_at", []);
          (py "updated_at", []); (py "language", py "未知"); (py "stars", py "?")].
Proof.
  destruct (metadata_round_trip Collector.demo_repr
              [(py "name", JStr (py "a")); (py "stargazers_count", JInt 7)]
              (py "a") (py "hello"))
    as (content & H1 & H2); try reflexivity.
  - repeat constructor.
  - exists content. split; [exact H1 | rewrite H2; reflexivity].
Defined.

(** A README whose first line reads [Star数: 100] takes the place of the
    star count of the header. *)
Example readme_line_overrides_header :
  exists content,
    Collector.render_repo_info Collector.demo_repr (Collector.demo_repo "a")
      (JStr (py "a")) (py "Star数: 100")
    = (Ok content, [])
    /\ dict_get (extract_metadata content) (py "stars") = Some (py "100").
Proof. eexists. split; reflexivity. Qed.

(** ** filter_content on clean text, and the prompt *)

(** No listed sensitive word occurs in [t], in any letter case. *)
Definition no_sensitive_word (t : pystr) : Prop :=
  forall w, In w sensitive_words -> has_match (word_match w) t = false.

(** No character of [w] matches a line break. *)
Definition nl_free (w : pystr) : bool := forallb (fun p => negb (ci_char p 10)) w.

Lemma re_sub_no_match : forall m repl s,
  has_match m s = false -> re_sub m repl s = s.
Proof.
  intros m repl. unfold re_sub. induction s as [|c s IH]; intro H; [reflexivity|].
  cbn [has_match] in H. apply orb_false_iff in H. destruct H as [Hhit Hrest].
  cbn [re_sub_from]. unfold hit in Hhit.
  destruct (m (c :: s)) as [[|k] |]; try discriminate; rewrite (IH Hrest); reflexivity.
Qed.

Lemma redact_words_no_match : forall ws t,
  (forall w, In w ws -> has_match (word_match w) t = false) ->
  redact_words ws t = t.
Proof.
  unfold redact_words. induction ws as [|w ws IH]; intros t H; [reflexivity|].
  cbn [fold_left]. unfold redact_word at 2.
  rewrite (re_sub_no_match _ _ t (H w (or_introl eq_refl))).
  apply IH. intros w' Hw'. apply H. right. exact Hw'.
Qed.

(** The number of occurrences of the character [c] in [s]. *)
Definition count_char (c : N) (s : pystr) : nat := length (filter (N.eqb c) s).

Lemma count_char_app : forall c a b,
  count_char c (a ++ b) = count_char c a + count_char c b.
Proof. intros c a b. unfold count_char. rewrite filter_app, length_app. reflexivity. Qed.

Lemma count_char_cons : forall c x s,
  count_char c (x :: s) = (if (c =? x)%N then 1 else 0) + count_char c s.
Proof. intros c x s. unfold count_char. cbn [filter]. destruct (c =? x)%N; reflexivity. Qed.

(** A replacement text without [c] brings no [c] into the output. *)
Lemma re_sub_from_count : forall m repl c s k,
  count_char c repl = 0 ->
  count_char c (re_sub_from m repl k s) <= count_char c s.
Proof.
  intros m repl c s. induction s as [|x s IH]; intros k Hrepl; [destruct k; cbn; lia|].
  rewrite count_char_cons. destruct k as [|k]; cbn [re_sub_from].
  - destruct (m (x :: s)) as [[|n] |].
    + rewrite count_char_cons. specialize (IH 0 Hrepl). lia.
    + rewrite count_char_app, Hrepl. specialize (IH n Hrepl). lia.
    + rewrite count_char_cons. specialize (IH 0 Hrepl). lia.
  - specialize (IH k Hrepl). lia.
Qed.

(** The replacement of a URL takes away its first letter, [h]. *)
Lemma redact_urls_count : forall s,
  has_match url_match s = true ->
  count_char 104 (redact_urls s) < count_char 104 s.
Proof.
  unfold redact_urls, re_sub. induction s as [|x s IH]; intro H; [discriminate|].
  cbn [has_match] in H. rewrite count_char_cons. cbn [re_sub_from].
  destruct (hit url_match (x :: s)) eqn:Hhit.
  - pose proof (hit_url_first x s Hhit) as Hx. subst x.
    unfold hit in Hhit. destruct (url_match (104%N :: s)) as [[|n] |]; try discriminate.
    rewrite count_char_app.
    pose proof (re_sub_from_count url_match url_token 104 s n eq_refl).
    change (count_char 104 url_token) with 0. cbn. lia.
  - cbn [orb] in H. specialize (IH H). unfold hit in Hhit.
    destruct (url_match (x :: s)) as [[|n] |]; try discriminate;
      rewrite count_char_cons; lia.
Qed.

Lemma redact_words_count_char : forall ws t,
  count_char 104 (redact_words ws t) <= count_char 104 t.
Proof.
  unfold redact_words. induction ws as [|w ws IH]; intro t; [apply Nat.le_refl|].
  cbn [fold_left]. specialize (IH (redact_word t w)).
  pose proof (re_sub_from_count (word_match w) redaction 104 t 0 eq_refl) as H.
  unfold redact_word, re_sub in *. lia.
Qed.

(** X12. [filter_content] returns a text as it is exactly when the text
    holds no URL and no sensitive word: a clean text passes unchanged, and
    a text with a URL or a sensitive word never comes back the same. *)
Theorem filter_content_keeps_clean_text :
  forall content : pystr,
    filter_content content = content
    <-> has_match url_match content = false /\ no_sensitive_word content.
Proof.
  intro content. split.
  - intro Hfix. split.
    + destruct (has_match url_match content) eqn:Hurl; [| reflexivity].
      exfalso. pose proof (redact_urls_count content Hurl) as H1.
      pose proof (redact_words_count_char sensitive_words (redact_urls content)) as H2.
      fold (filter_content content) in H2. rewrite Hfix in H2. lia.
    + intros w Hw. rewrite <- Hfix.
      pose proof sensitive_words_good as Hg.
      apply redact_words_clean; [exact Hg | | left; exact Hw].
      rewrite forallb_forall in Hg. apply Hg. exact Hw.
  - intros [Hurl Hwords]. unfold filter_content, redact_urls.
    rewrite (re_sub_no_match _ _ content Hurl).
    apply redact_words_no_match. exact Hwords.
Qed.

Example filter_content_clean_example :
  filter_content (py "A course on large language models.")
  = py "A course on large language models.".
Proof. reflexivity. Qed.

Lemma ci_prefix_line_break : forall w a b,
  nl_free w = true -> ci_prefix w (a ++ 10%N :: b) = ci_prefix w a.
Proof.
  induction w as [|p w IH]; intros a b Hw; [reflexivity|].
  cbn [nl_free forallb] in Hw. apply andb_true_iff in Hw. destruct Hw as [Hp Hw].
  apply negb_true_iff in Hp.
  destruct a as [|c a]; cbn [app ci_prefix].
  - rewrite Hp. reflexivity.
  - rewrite (IH a b Hw). reflexivity.
Qed.

Lemma has_match_line_break : forall w a b,
  good_word w = true -> nl_free w = true ->
  has_match (word_match w) (a ++ 10%N :: b)
  = has_match (word_match w) a || has_match (word_match w) b.
Proof.
  intros w a b Hg Hw. induction a as [|c a IH].
  - cbn [app has_match orb]. rewrite (hit_word w _ Hg).
    pose proof (ci_prefix_line_break w [] b Hw) as E. cbn [app] in E. rewrite E.
    destruct w; [discriminate | reflexivity].
  - cbn [app has_match]. rewrite IH, !(hit_word w _ Hg).
    change (c :: a ++ 10%N :: b) with ((c :: a) ++ 10%N :: b).
    rewrite (ci_prefix_line_break w (c :: a) b Hw). rewrite orb_assoc. reflexivity.
Qed.

Lemma sensitive_words_nl_free : forallb nl_free sensitive_words = true.
Proof. vm_compute. reflexivity. Qed.

(** The prompt is the content between two fixed texts, separated from it
    by line breaks; neither text holds a sensitive word. *)
Lemma summary_prompt_clean : forall content,
  no_sensitive_word content -> no_sensitive_word (summary_prompt content).
Proof.
  intros content Hc w Hw.
  pose proof sensitive_words_good as Hg. rewrite forallb_forall in Hg.
  pose proof sensitive_words_nl_free as Hn. rewrite forallb_forall in Hn.
  assert (Hshape : exists front back,
             summary_prompt content = front ++ 10%N :: content ++ 10%N :: back
             /\ (forall w, In w sensitive_words ->
                           has_match (word_match w) front = false
                           /\ has_match (word_match w) back = false)).
  { unfold summary_prompt.
    match goal with
    | |- exists front back, py ?a ++ content ++ py ?b = _ /\ _ =>
      let va := eval vm_compute in (removelast (py a)) in
      let vb := eval vm_compute in (tl (py b)) in
      exists va, vb; split;
      [change (py a) with (va ++ [10%N]); change (py b) with (10%N :: vb);
       rewrite <- app_assoc; reflexivity |]
    end.
    intros w0 Hw0. cbn in Hw0.
    repeat (destruct Hw0 as [<- | Hw0]; [split; vm_compute; reflexivity|]).
    destruct Hw0. }
  destruct Hshape as (front & back & -> & Hfb).
  destruct (Hfb w Hw) as [Hf Hb].
  rewrite (has_match_line_break w front _ (Hg w Hw) (Hn w Hw)), Hf. cbn [orb].
  rewrite (has_match_line_break w content back (Hg w Hw) (Hn w Hw)), (Hc w Hw), Hb.
  reflexivity.
Qed.

Lemma filter_content_no_sensitive_word : forall content,
  no_sensitive_word (filter_content content).
Proof.
  intros content w Hw. unfold filter_content.
  pose proof sensitive_words_good as Hg.
  apply redact_words_clean; [exact Hg | | left; exact Hw].
  rewrite forallb_forall in Hg. apply Hg. exact Hw.
Qed.

(** ** White space around the summary *)

(** [t] neither starts nor ends with white space. *)
Definition trimmed (t : pystr) : Prop :=
  match t with
  | [] => True
  | c :: _ => is_space c = false
  end
  /\ match rev t with
     | [] => True
     | c :: _ => is_space c = false
     end.

Lemma lstrip_spec : forall s,
  exists a,
    s = a ++ lstrip s
    /\ forallb is_space a = true
    /\ match lstrip s with
       | [] => True
       | c :: _ => is_space c = false
       end.
Proof.
  induction s as [|c s (a & Hs & Ha & Hhead)].
  - exists []. repeat split.
  - cbn [lstrip]. destruct (is_space c) eqn:E.
    + exists (c :: a). cbn [app forallb]. rewrite E, Ha, <- Hs. repeat split. exact Hhead.
    + exists []. repeat split. exact E.
Qed.

Lemma forallb_rev {A : Type} : forall (f : A -> bool) l,
  forallb f l = true -> forallb f (rev l) = true.
Proof.
  intros f l H. rewrite forallb_forall in *. intros x Hx. apply H, in_rev. exact Hx.
Qed.

Lemma py_strip_spec : forall s,
  exists before after,
    s = before ++ py_strip s ++ after
    /\ forallb is_space before = true
    /\ forallb is_space after = true
    /\ trimmed (py_strip s).
Proof.
  intro s. unfold py_strip.
  destruct (lstrip_spec s) as (a & Hs & Ha & Hhead).
  destruct (lstrip_spec (rev (lstrip s))) as (b & Hr & Hb & Htail).
  exists a, (rev b).
  assert (Ht : lstrip s = rev (lstrip (rev (lstrip s))) ++ rev b).
  { rewrite <- rev_app_distr, <- Hr, rev_involutive. reflexivity. }
  split; [rewrite <- Ht; exact Hs|]. split; [exact Ha|].
  split; [apply forallb_rev; exact Hb|].
  unfold trimmed. rewrite rev_involutive. split; [| exact Htail].
  destruct (rev (lstrip (rev (lstrip s)))) as [|c r] eqn:E; [exact I|].
  rewrite Ht in Hhead. exact Hhead.
Qed.

(** ** The world of the summarizer, with the README directory *)

(** The prompts of the language-model calls of a trace, and the files of
    its summary writes. *)
Definition prompts (t : list event) : list pystr :=
  flat_map (fun ev => match ev with
                      | EvChat _ _ prompt => [prompt]
                      | _ => []
                      end) t.


Section World.

Variable os_getenv : pystr -> option pystr.
Variable path_mkdir : pystr -> option exn.
Variable chat_completions_create :
  llm_client -> pystr -> pystr -> outcome (list (option pystr)).
Variable json_dump : pystr -> json -> option exn.
Variable cwd : pystr.
(** [Path.exists()]: the answer, or the exception of the file system (a
    directory on the way that may not be searched, for one) *)
Variable path_exists : pystr -> outcome bool.
(** [Path.iterdir()]: the paths of the entries, or the exception of the
    listing, raised before the first entry is given *)
Variable iterdir : pystr -> outcome (list pystr).
(** [Path.is_dir()] *)
Variable path_is_dir : pystr -> outcome bool.
(** [open(path, 'r', encoding='utf-8').read()] *)
Variable read_text : pystr -> outcome pystr.
(** [BeautifulSoup(markdown.markdown(content), 'html.parser').get_text()] *)
Variable html_text : pystr -> outcome pystr.

Abbreviation setup_llm := (Summarizer.setup_llm os_getenv).
Abbreviation init := (Summarizer.init os_getenv path_mkdir).
Abbreviation llm_request := (Summarizer.llm_request chat_completions_create).
Abbreviation generate_summary := (Summarizer.generate_summary chat_completions_create).
Abbreviation save_summary := (Summarizer.save_summary json_dump cwd).
Abbreviation summary_data := (Summarizer.summary_data cwd).
Abbreviation process_body :=
  (Summarizer.process_body chat_completions_create json_dump cwd).
Abbreviation process_one :=
  (Summarizer.process_one chat_completions_create json_dump cwd).
Abbreviation process_loop :=
  (Summarizer.process_loop chat_completions_create json_dump cwd).
Abbreviation process_all_readmes :=
  (fun files => Summarizer.process_all_readmes chat_completions_create json_dump files cwd).
Abbreviation item_trace := (Summarizer.item_trace chat_completions_create json_dump cwd).
Abbreviation processedb := (Summarizer.processedb chat_completions_create json_dump cwd).

Definition lift {A : Type} (o : outcome A) : M event A :=
  match o with
  | Returned a => ret a
  | Raised e => raise e
  end.

(** *** read_readme_files *)

(** The body of [for repo_dir in self.readme_db_path.iterdir()]: the two
    questions to the file system are asked outside the [try] statement. *)
Definition read_entry (readme_files : list ReadmeInfo) (repo_dir : pystr)
  : M event (list ReadmeInfo) :=
  is_dir <- lift (path_is_dir repo_dir) ;;
  if is_dir : bool then
    let readme_path := os_path_join repo_dir (py "README.md") in
    found <- lift (path_exists readme_path) ;;
    if found : bool then
      try_except
        (content <- lift (read_text readme_path) ;;
         let metadata := extract_metadata content in
         text <- lift (html_text content) ;;
         ret (readme_files
              ++ [{| repo_name := VectorIndex.path_name repo_dir;
                     file_path := readme_path;
                     content := text;
                     metadata := metadata |}]))
        any_exception
        (fun _ => ret readme_files)
    else ret readme_files
  else ret readme_files.

Fixpoint read_entries (readme_files : list ReadmeInfo) (entries : list pystr)
  : M event (list ReadmeInfo) :=
  match entries with
  | [] => ret readme_files
  | repo_dir :: rest =>
    readme_files' <- read_entry readme_files repo_dir ;;
    read_entries readme_files' rest
  end.

Definition read_readme_files (self : summarizer) : M event (list ReadmeInfo) :=
  found <- lift (path_exists (readme_db_path self)) ;;
  if found : bool then
    entries <- lift (iterdir (readme_db_path self)) ;;
    read_entries [] entries
  else ret [].

(** [main()] of the summarizer, for the backend and the key that the
    command line gives. *)
Definition main (llm_type_arg : pystr) (api_key_arg : option pystr) : M event unit :=
  try_except
    (summarizer <- init llm_type_arg api_key_arg ;;
     readme_files <- read_readme_files summarizer ;;
     process_all_readmes readme_files summarizer ;;;
     ret tt)
    any_exception
    (fun _ => ret tt).

(** What the loop asks about an entry: whether it is a directory, and then
    whether it holds a README.md. *)
Definition has_readme (repo_dir : pystr) : outcome bool :=
  match path_is_dir repo_dir with
  | Returned true => path_exists (os_path_join repo_dir (py "README.md"))
  | answer => answer
  end.

(** What [read_readme_files] makes of one entry: the record of a directory
    whose README.md exists, can be read and can be converted to text. *)
Definition readable (repo_dir : pystr) : list ReadmeInfo :=
  let readme_path := os_path_join repo_dir (py "README.md") in
  match has_readme repo_dir with
  | Returned true =>
    match read_text readme_path with
    | Returned raw =>
      match html_text raw with
      | Returned text =>
        [{| repo_name := VectorIndex.path_name repo_dir;
            file_path := readme_path;
            content := text;
            metadata := extract_metadata raw |}]
      | Raised _ => []
      end
    | Raised _ => []
    end
  | _ => []
  end.

Lemma read_entry_eq : forall readme_files repo_dir,
  read_entry readme_files repo_dir
  = (match has_readme repo_dir with
     | Returned _ => Ok (readme_files ++ readable repo_dir)
     | Raised e => Raise e
     end, []).
Proof.
  intros readme_files repo_dir. unfold read_entry, readable, has_readme.
  destruct (path_is_dir repo_dir) as [[|] | e]; cbn;
    [| rewrite app_nil_r; reflexivity | reflexivity].
  destruct (path_exists _) as [[|] | e]; cbn;
    [| rewrite app_nil_r; reflexivity | reflexivity].
  destruct (read_text _) as [raw | e]; cbn; [| rewrite app_nil_r; reflexivity].
  destruct (html_text raw) as [text | e]; cbn; [reflexivity|].
  rewrite app_nil_r. reflexivity.
Qed.

(** The questions about every entry are answered. *)
Definition answered (entries : list pystr) : Prop :=
  Forall (fun repo_dir => exists answer, has_readme repo_dir = Returned answer) entries.

Lemma read_entries_eq : forall entries readme_files,
  answered entries ->
  read_entries readme_files entries
  = (Ok (readme_files ++ flat_map readable entries), []).
Proof.
  induction entries as [|repo_dir rest IH]; intros readme_files Hall.
  - cbn. rewrite app_nil_r. reflexivity.
  - inversion Hall as [|? ? (answer & Hans) Hrest]; subst.
    cbn [read_entries flat_map]. rewrite read_entry_eq, Hans. cbn [bind].
    rewrite (IH _ Hrest), app_assoc. reflexivity.
Qed.

Lemma read_entries_raises : forall before readme_files repo_dir after e,
  answered before ->
  has_readme repo_dir = Raised e ->
  read_entries readme_files (before ++ repo_dir :: after) = (Raise e, []).
Proof.
  induction before as [|d before IH]; intros readme_files repo_dir after e Hall Hraise.
  - cbn [app read_entries]. rewrite read_entry_eq, Hraise. reflexivity.
  - inversion Hall as [|? ? (answer & Hans) Hrest]; subst.
    cbn [app read_entries]. rewrite read_entry_eq, Hans. cbn [bind].
    rewrite (IH _ repo_dir after e Hrest Hraise). reflexivity.
Qed.

(** [read_entries] returns or raises, with an empty trace. *)
Lemma read_entries_cases : forall entries readme_files,
  (exists files, read_entries readme_files entries = (Ok files, []))
  \/ (exists e, read_entries readme_files entries = (Raise e, [])).
Proof.
  induction entries as [|repo_dir rest IH]; intro readme_files.
  - left. eexists. reflexivity.
  - cbn [read_entries]. rewrite read_entry_eq.
    destruct (has_readme repo_dir) as [answer | e]; cbn [bind].
    + destruct (IH (readme_files ++ readable repo_dir)) as [(files & H) | (e & H)];
        rewrite H; [left | right]; eexists; reflexivity.
    + right. eexists. reflexivity.
Qed.

Lemma read_readme_files_cases : forall self,
  (exists files, read_readme_files self = (Ok files, []))
  \/ (exists e, read_readme_files self = (Raise e, [])).
Proof.
  intro self. unfold read_readme_files.
  destruct (path_exists (readme_db_path self)) as [[|] | e]; cbn.
  - destruct (iterdir (readme_db_path self)) as [entries | e]; cbn.
    + destruct (read_entries_cases entries []) as [(files & H) | (e & H)];
        rewrite H; [left | right]; eexists; reflexivity.
    + right. eexists. reflexivity.
  - left. eexists. reflexivity.
  - right. eexists. reflexivity.
Qed.

(** X13. In [read_readme_files] a README that cannot be read or converted
    costs only its own record; the questions to the file system
    ([exists()], [iterdir()], [is_dir()]) are asked outside the [try]
    statement, and an exception of one of them ends the scan and is raised,
    the records read by then being lost. When the README directory does not
    exist the result is empty. When the listing and the questions about
    its entries are answered, the result holds, in the order of the
    listing, one record for each entry that is a directory with a README.md
    that can be read and converted to text; the record is named after the
    directory, and its metadata is extracted from the text of the file as
    read, before the conversion. *)
Theorem read_readme_files_isolation :
  forall self : summarizer,
    (path_exists (readme_db_path self) = Returned false ->
     read_readme_files self = (Ok [], []))
    /\ (forall entries,
          path_exists (readme_db_path self) = Returned true ->
          iterdir (readme_db_path self) = Returned entries ->
          answered entries ->
          read_readme_files self = (Ok (flat_map readable entries), []))
    /\ (forall e,
          path_exists (readme_db_path self) = Raised e
          \/ (path_exists (readme_db_path self) = Returned true
              /\ iterdir (readme_db_path self) = Raised e) ->
          read_readme_files self = (Raise e, []))
    /\ (forall before repo_dir after e,
          path_exists (readme_db_path self) = Returned true ->
          iterdir (readme_db_path self) = Returned (before ++ repo_dir :: after) ->
          answered before ->
          has_readme repo_dir = Raised e ->
          read_readme_files self = (Raise e, []))
    /\ (forall repo_dir info,
          In info (readable repo_dir) ->
          path_is_dir repo_dir = Returned true
          /\ repo_name info = VectorIndex.path_name repo_dir
          /\ file_path info = os_path_join repo_dir (py "README.md")
          /\ exists raw,
              read_text (file_path info) = Returned raw
              /\ html_text raw = Returned (content info)
              /\ metadata info = extract_metadata raw)
    /\ (forall repo_dir,
          (path_is_dir repo_dir = Returned false
           \/ path_exists (os_path_join repo_dir (py "README.md")) = Returned false
           \/ (exists e,
                 read_text (os_path_join repo_dir (py "README.md")) = Raised e)
           \/ (exists raw e,
                 read_text (os_path_join repo_dir (py "README.md")) = Returned raw
                 /\ html_text raw = Raised e)) ->
          readable repo_dir = []).
Proof.
  intro self. split; [| split; [| split; [| split; [| split]]]].
  - intro H. unfold read_readme_files. rewrite H. reflexivity.
  - intros entries Hx Hl Hall. unfold read_readme_files. rewrite Hx, Hl. cbn [lift bind ret].
    rewrite (read_entries_eq entries [] Hall). reflexivity.
  - intros e [Hx | (Hx & Hl)]; unfold read_readme_files; rewrite Hx; [reflexivity|].
    rewrite Hl. reflexivity.
  - intros before repo_dir after e Hx Hl Hall Hraise.
    unfold read_readme_files. rewrite Hx, Hl. cbn [lift bind ret].
    rewrite (read_entries_raises before [] repo_dir after e Hall Hraise). reflexivity.
  - intros repo_dir info Hin. unfold readable, has_readme in Hin.
    destruct (path_is_dir repo_dir) as [[|] | e0]; try destruct Hin.
    destruct (path_exists _) as [[|] | e0]; try destruct Hin.
    destruct (read_text _) as [raw | e0] eqn:Hraw; [| destruct Hin].
    destruct (html_text raw) as [text | e0] eqn:Htext; [| destruct Hin].
    destruct Hin as [<- | []]. cbn [repo_name file_path content metadata].
    split; [reflexivity|]. split; [reflexivity|]. split; [reflexivity|].
    exists raw. split; [exact Hraw|]. split; [exact Htext | reflexivity].
  - intros repo_dir H. unfold readable, has_readme.
    destruct H as [H | [H | [(e & H) | (raw & e & H & H')]]].
    + rewrite H. reflexivity.
    + rewrite H. destruct (path_is_dir repo_dir) as [[|] | e]; reflexivity.
    + rewrite H. destruct (path_is_dir repo_dir) as [[|] | e0]; try reflexivity.
      destruct (path_exists _) as [[|] | e0]; reflexivity.
    + rewrite H, H'. destruct (path_is_dir repo_dir) as [[|] | e0]; try reflexivity.
      destruct (path_exists _) as [[|] | e0]; reflexivity.
Qed.

(** *** The calls of the language model *)

Lemma prompts_app : forall t1 t2, prompts (t1 ++ t2) = prompts t1 ++ prompts t2.
Proof. intros t1 t2. apply flat_map_app. Qed.


(** [generate_summary] issues at most one call, with the prompt made of
    the content it is given, and writes nothing. *)
Lemma generate_summary_trace : forall self content,
  snd (generate_summary self content) = []
  \/ exists c model,
      snd (generate_summary self content) = [EvChat c model (summary_prompt content)].
Proof.
  intros self content.
  assert (Hreq : forall model,
             snd (try_except (llm_request self model content) any_exception
                    (fun e => ret (failure_summary e))) = []
             \/ exists c,
                 snd (try_except (llm_request self model content) any_exception
                        (fun e => ret (failure_summary e)))
                 = [EvChat c model (summary_prompt content)]).
  { intro model. unfold Summarizer.llm_request, self_client.
    destruct (client self) as [c |]; [| left; reflexivity].
    right. exists c. cbn [bind ret].
    destruct (chat_completions_create c model (summary_prompt content))
      as [[|[text |] rest] | e]; reflexivity. }
  unfold Summarizer.generate_summary, generate_summary_zhipuai, generate_summary_openai.
  destruct (pystr_eqb (llm_type self) (py "zhipuai")).
  - destruct (Hreq (py "glm-4")) as [H | (c & H)]; [left; exact H | right; eauto].
  - destruct (pystr_eqb (llm_type self) (py "openai")); [| left; reflexivity].
    destruct (Hreq (py "gpt-3.5-turbo")) as [H | (c & H)]; [left; exact H | right; eauto].
Qed.

Lemma item_trace_eq : forall self info,
  item_trace self info
  = snd (generate_summary self (filter_content (content info)))
    ++ match fst (generate_summary self (filter_content (content info))) with
       | Ok summary =>
         [EvJsonDump (summary_file self (repo_name info))
            (summary_data self (repo_name info) summary (metadata info))]
       | _ => []
       end.
Proof.
  intros self info. unfold Summarizer.item_trace, Summarizer.process_one,
    Summarizer.process_body.
  destruct (generate_summary self (filter_content (content info))) as [[summary | e |] t];
    cbn [bind fst snd].
  - rewrite save_summary_total. reflexivity.
  - cbn. reflexivity.
  - cbn. rewrite app_nil_r. reflexivity.
Qed.

Lemma item_prompts : forall self info,
  prompts (item_trace self info) = []
  \/ prompts (item_trace self info) = [summary_prompt (filter_content (content info))].
Proof.
  intros self info. rewrite item_trace_eq, prompts_app.
  assert (Htail : prompts
                    (match fst (generate_summary self (filter_content (content info))) with
                     | Ok summary =>
                       [EvJsonDump (summary_file self (repo_name info))
                          (summary_data self (repo_name info) summary (metadata info))]
                     | _ => []
                     end) = [])
    by (destruct (fst _); reflexivity).
  rewrite Htail, app_nil_r.
  destruct (generate_summary_trace self (filter_content (content info)))
    as [H | (c & model & H)]; rewrite H; [left | right]; reflexivity.
Qed.

(** X14. No listed sensitive word reaches the language model. Every prompt
    that [process_all_readmes] sends is the fixed request text around the
    filtered content of one README of the batch, and no prompt holds a
    sensitive word, in any letter case: the fixed text holds none, the
    filtered content holds none, and none can form across the line breaks
    that separate the two. *)
Theorem prompts_hold_no_sensitive_word :
  forall (readme_files : list ReadmeInfo) (self : summarizer),
    Forall no_sensitive_word (prompts (snd (process_all_readmes readme_files self)))
    /\ (forall prompt,
          In prompt (prompts (snd (process_all_readmes readme_files self))) ->
          exists info,
            In info readme_files
            /\ prompt = summary_prompt (filter_content (content info))).
Proof.
  intros readme_files self.
  assert (Hsrc : forall prompt,
             In prompt (prompts (snd (process_all_readmes readme_files self))) ->
             exists info,
               In info readme_files
               /\ prompt = summary_prompt (filter_content (content info))).
  { rewrite process_all_readmes_trace.
    induction readme_files as [|info rest IH]; intros prompt Hin; [destruct Hin|].
    cbn [flat_map] in Hin. rewrite prompts_app in Hin. apply in_app_or in Hin.
    destruct Hin as [Hin | Hin].
    - exists info. split; [left; reflexivity|].
      destruct (item_prompts self info) as [H | H]; rewrite H in Hin;
        [destruct Hin | destruct Hin as [<- | []]; reflexivity].
    - destruct (IH prompt Hin) as (i & Hi & Hp). exists i. split; [right; exact Hi | exact Hp]. }
  split; [| exact Hsrc].
  apply Forall_forall. intros prompt Hin.
  destruct (Hsrc prompt Hin) as (info & _ & ->).
  apply summary_prompt_clean, filter_content_no_sensitive_word.
Qed.

(** *** What the count counts *)





(** *** The text of the summary *)

(** X16. When the language model answers, [generate_summary] returns the
    text of the first choice without the white space around it: the text
    of the model is the summary between two runs of white space, and the
    summary neither starts nor ends with white space. *)
Theorem generate_summary_trimmed :
  forall (self : summarizer) (content : pystr) (c : llm_client) (text : pystr)
         (rest : list (option pystr)),
    supported self ->
    client self = Some c ->
    chat_completions_create c (model_of self) (summary_prompt content)
    = Returned (Some text :: rest) ->
    exists summary before after,
      generate_summary self content
      = (Ok summary, [EvChat c (model_of self) (summary_prompt content)])
      /\ text = before ++ summary ++ after
      /\ forallb is_space before = true
      /\ forallb is_space after = true
      /\ trimmed summary.
Proof.
  intros self content c text rest Hs Hc Hchat.
  destruct (py_strip_spec text) as (before & after & Htext & Hb & Ha & Htrim).
  exists (py_strip text), before, after.
  split; [| repeat split; assumption || apply Htrim].
  rewrite (generate_summary_supported chat_completions_create self content Hs).
  unfold Summarizer.llm_request, self_client. rewrite Hc. cbn [bind ret].
  rewrite Hchat. reflexivity.
Qed.

(** *** The credential and [main] *)

(** The variable that holds the key of a backend. *)
Definition key_variable (llm_type : pystr) : pystr :=
  if pystr_eqb llm_type (py "zhipuai") then py "ZHIPUAI_API_KEY" else py "OPENAI_API_KEY".

(** The client that [setup_llm] builds for a backend and a key. *)
Definition client_for (llm_type key : pystr) : llm_client :=
  if pystr_eqb llm_type (py "zhipuai")
  then {| provider := ZhipuAI; client_api_key := key; client_base_url := None |}
  else {| provider := OpenAI; client_api_key := key;
          client_base_url := Some (py "https://api.chatanywhere.tech/v1") |}.

Definition backend (llm_type : pystr) : Prop :=
  llm_type = py "zhipuai" \/ llm_type = py "openai".

Lemma setup_llm_without_key : forall llm_type api_key,
  backend llm_type ->
  CollectorRun.missing api_key ->
  CollectorRun.missing (os_getenv (key_variable llm_type)) ->
  exists e,
    setup_llm llm_type api_key = (Raise e, [EvGetenv (key_variable llm_type)])
    /\ exn_cls e = ValueError.
Proof.
  intros llm_type api_key [-> | ->] [-> | ->] [H | H];
    unfold Summarizer.setup_llm, resolve_api_key; cbn [pystr_eqb];
    change (key_variable (py "zhipuai")) with (py "ZHIPUAI_API_KEY") in *;
    change (key_variable (py "openai")) with (py "OPENAI_API_KEY") in *;
    cbn; rewrite H; eexists; split; reflexivity.
Qed.

(** X17. The key of the backend is the argument [api_key] when it is given
    and not empty, and then the environment is not consulted; otherwise it
    is the variable ZHIPUAI_API_KEY or OPENAI_API_KEY, by backend. With
    neither, the constructor raises [ValueError] right after that lookup,
    before the output directory is created. The openai client is built
    for the base URL [https://api.chatanywhere.tech/v1]. *)
Theorem api_key_resolution :
  forall (llm_type : pystr) (api_key : option pystr),
    backend llm_type ->
    (forall key, key <> [] -> api_key = Some key ->
       setup_llm llm_type api_key = (Ok (Some (client_for llm_type key)), []))
    /\ (forall key, key <> [] -> CollectorRun.missing api_key ->
          os_getenv (key_variable llm_type) = Some key ->
          setup_llm llm_type api_key
          = (Ok (Some (client_for llm_type key)), [EvGetenv (key_variable llm_type)]))
    /\ (CollectorRun.missing api_key ->
        CollectorRun.missing (os_getenv (key_variable llm_type)) ->
        exists e,
          init llm_type api_key = (Raise e, [EvGetenv (key_variable llm_type)])
          /\ exn_cls e = ValueError)
    /\ (forall key,
          client_for (py "zhipuai") key
          = {| provider := ZhipuAI; client_api_key := key; client_base_url := None |}
          /\ client_for (py "openai") key
             = {| provider := OpenAI; client_api_key := key;
                  client_base_url := Some (py "https://api.chatanywhere.tech/v1") |}).
Proof.
  intros llm_type api_key Hb. split; [| split; [| split]].
  - intros key Hne ->. destruct key as [|c key]; [congruence|].
    destruct Hb as [-> | ->]; reflexivity.
  - intros key Hne Hmiss Henv. destruct key as [|c key]; [congruence|].
    destruct Hb as [-> | ->], Hmiss as [-> | ->];
      unfold Summarizer.setup_llm, resolve_api_key; cbn [pystr_eqb];
      change (key_variable (py "zhipuai")) with (py "ZHIPUAI_API_KEY") in *;
      change (key_variable (py "openai")) with (py "OPENAI_API_KEY") in *;
      cbn; rewrite Henv; reflexivity.
  - intros Hmiss Henv.
    destruct (setup_llm_without_key llm_type api_key Hb Hmiss Henv) as (e & Hsetup & Hcls).
    exists e. split; [| exact Hcls]. unfold Summarizer.init. rewrite Hsetup. reflexivity.
  - intro key. split; reflexivity.
Qed.

(** X18. [main] of the summarizer never raises. Without a key for the
    backend it ends right after the lookup of the variable: no directory
    is created, no README is read, no call is made. With a summarizer
    built, it processes the README files that [read_readme_files] returns,
    one after the other, and nothing when [read_readme_files] raises: when
    the listing and the questions about its entries are answered, these are
    the readable README files of the directory in the order of the listing,
    and none when the directory does not exist. *)
Theorem summarizer_main_run :
  forall (llm_type : pystr) (api_key : option pystr),
    backend llm_type ->
    (forall e, fst (main llm_type api_key) <> Raise e)
    /\ (CollectorRun.missing api_key ->
        CollectorRun.missing (os_getenv (key_variable llm_type)) ->
        main llm_type api_key = (Ok tt, [EvGetenv (key_variable llm_type)]))
    /\ (forall self t,
          init llm_type api_key = (Ok self, t) ->
          main llm_type api_key
          = (Ok tt,
             t ++ flat_map (item_trace self)
                    (match fst (read_readme_files self) with
                     | Ok readme_files => readme_files
                     | _ => []
                     end)))
    /\ (forall self t,
          init llm_type api_key = (Ok self, t) ->
          main llm_type api_key
          = (Ok tt,
             t ++ flat_map (item_trace self)
                    (match path_exists (readme_db_path self),
                           iterdir (readme_db_path self) with
                     | Returned true, Returned entries =>
                       if forallb (fun repo_dir => match has_readme repo_dir with
                                                   | Returned _ => true
                                                   | Raised _ => false
                                                   end) entries
                       then flat_map readable entries
                       else []
                     | _, _ => []
                     end))).
Proof.
  intros llm_type api_key Hb.
  assert (Hrun : forall self t,
             init llm_type api_key = (Ok self, t) ->
             main llm_type api_key
             = (Ok tt,
                t ++ flat_map (item_trace self)
                       (match fst (read_readme_files self) with
                        | Ok readme_files => readme_files
                        | _ => []
                        end))).
  { intros self t Hinit. unfold main. rewrite Hinit. cbn [bind].
    destruct (read_readme_files_cases self) as [(files & H) | (e & H)]; rewrite H;
      cbn [bind app fst try_except any_exception ret flat_map];
      [| rewrite !app_nil_r; reflexivity].
    unfold Summarizer.process_all_readmes.
    destruct files as [|i0 files]; [cbn; rewrite app_nil_r; reflexivity|].
    rewrite process_loop_spec. cbn. rewrite !app_nil_r. reflexivity. }
  split; [| split; [| split; [exact Hrun|]]].
  - intro e.
    destruct (init llm_type api_key) as [[self | e0 |] t] eqn:Hinit.
    + rewrite (Hrun self t eq_refl). discriminate.
    + unfold main. rewrite Hinit. discriminate.
    + unfold main. rewrite Hinit. discriminate.
  - intros Hmiss Henv.
    destruct (setup_llm_without_key llm_type api_key Hb Hmiss Henv) as (e & Hsetup & _).
    unfold main, Summarizer.init. rewrite Hsetup. reflexivity.
  - intros self t Hinit. rewrite (Hrun self t Hinit). do 3 f_equal.
    unfold read_readme_files.
    destruct (path_exists (readme_db_path self)) as [[|] | e]; try reflexivity.
    destruct (iterdir (readme_db_path self)) as [entries | e]; [| reflexivity].
    cbn [lift bind ret].
    destruct (forallb _ entries) eqn:Hall.
    + rewrite read_entries_eq; [reflexivity|].
      apply Forall_forall. intros d Hd.
      rewrite forallb_forall in Hall. specialize (Hall d Hd).
      destruct (has_readme d) as [answer | e]; [exists answer; reflexivity | discriminate].
    + destruct (read_entries_cases entries []) as [(files & H) | (e & H)];
        rewrite H; [| reflexivity].
      exfalso. revert Hall H. generalize (@nil ReadmeInfo).
      induction entries as [|d rest IH]; intros acc Hall H; [discriminate|].
      cbn [forallb] in Hall. cbn [read_entries] in H. rewrite read_entry_eq in H.
      destruct (has_readme d) as [answer | e]; [| discriminate].
      cbn [andb bind] in *.
      destruct (read_entries (acc ++ readable d) rest) as [r t0] eqn:Hrest.
      apply (IH (acc ++ readable d) Hall). rewrite Hrest.
      cbn [app] in H. exact H.
Qed.

End World.

(** ** Concrete worlds *)



(** A model that answers with white space around its text. *)
Definition padded_chat (c : llm_client) (model prompt : pystr)
  : outcome (list (option pystr)) :=
  Returned [Some (py "  A course.
")].

Lemma generate_summary_trimmed_witness :
  exists summary before after,
    generate_summary padded_chat demo_summarizer (py "text")
    = (Ok summary, [EvChat demo_client (py "gpt-3.5-turbo") (summary_prompt (py "text"))])
    /\ py "  A course.
" = before ++ summary ++ after
    /\ trimmed summary.
Proof.
  destruct (generate_summary_trimmed padded_chat demo_summarizer (py "text") demo_client
              (py "  A course.
") []) as (summary & before & after & H1 & H2 & _ & _ & H5).
  - right. reflexivity.
  - reflexivity.
  - reflexivity.
  - exists summary, before, after. split; [exact H1|]. split; [exact H2 | exact H5].
Defined.

Example generate_summary_trimmed_value :
  fst (generate_summary padded_chat demo_summarizer (py "text")) = Ok (py "A course.").
Proof. reflexivity. Qed.

Lemma api_key_resolution_witness :
  exists e,
    init demo_getenv demo_mkdir (py "openai") None
    = (Raise e, [EvGetenv (py "OPENAI_API_KEY")])
    /\ exn_cls e = ValueError.
Proof.
  destruct (api_key_resolution demo_getenv demo_mkdir (py "openai") None)
    as (_ & _ & H & _).
  - right. reflexivity.
  - apply H; left; reflexivity.
Defined.

Lemma summarizer_main_run_witness :
  main demo_getenv demo_mkdir failing_chat demo_dump (py "/work")
    (fun _ => Returned true) (fun _ => Returned []) (fun _ => Returned true)
    (fun _ => Returned []) (fun _ => Returned []) (py "openai") None
  = (Ok tt, [EvGetenv (py "OPENAI_API_KEY")]).
Proof.
  destruct (summarizer_main_run demo_getenv demo_mkdir failing_chat demo_dump (py "/work")
              (fun _ => Returned true) (fun _ => Returned []) (fun _ => Returned true)
              (fun _ => Returned []) (fun _ => Returned [])
              (py "openai") None) as (_ & H & _).
  - right. reflexivity.
  - apply H; left; reflexivity.
Defined.

(** A README directory with two entries; [is_dir()] fails for the second
    one, and the record of the first is lost with the scan. *)
Definition not_permitted : exn := mkExn OSError (py "Permission denied").

Definition second_fails (path : pystr) : outcome bool :=
  if pystr_eqb path (py "db/b") then Raised not_permitted else Returned true.

Example read_readme_files_is_dir_fails :
  read_readme_files (fun _ => Returned true) (fun _ => Returned [py "db/a"; py "db/b"])
    second_fails (fun _ => Returned (py "# A")) (fun s => Returned s) demo_summarizer
  = (Raise not_permitted, [])
  /\ exists info,
       read_readme_files (fun _ => Returned true) (fun _ => Returned [py "db/a"])
         second_fails (fun _ => Returned (py "# A")) (fun s => Returned s) demo_summarizer
       = (Ok [info], []).
Proof. split; [vm_compute; reflexivity|]. eexists. vm_compute. reflexivity. Qed.

End SummarizerRun.

(** * The index builder: loading, the embedding function and [main] *)

Module IndexRun.
Import VectorIndex.

(** ** Paths *)

Lemma fold_name_plain : forall s acc,
  forallb (fun c => negb (c =? 47)%N) s = true ->
  fold_left (fun acc c => if (c =? 47)%N then [] else acc ++ [c]) s acc = acc ++ s.
Proof.
  induction s as [|c s IH]; intros acc H; [rewrite app_nil_r; reflexivity|].
  cbn [forallb] in H. apply andb_true_iff in H. destruct H as [Hc Hs].
  apply negb_true_iff in Hc. cbn [fold_left]. rewrite Hc, (IH _ Hs), <- app_assoc.
  reflexivity.
Qed.

(** The name of a path that ends with a text without a slash. *)
Lemma path_name_app : forall x s,
  forallb (fun c => negb (c =? 47)%N) s = true ->
  path_name (x ++ s) = path_name x ++ s.
Proof.
  intros x s H. unfold path_name. rewrite fold_left_app. apply fold_name_plain. exact H.
Qed.

Lemma last_dot_none : forall s,
  forallb (fun c => negb (c =? 46)%N) s = true -> last_dot s = None.
Proof.
  induction s as [|c s IH]; intro H; [reflexivity|].
  cbn [forallb] in H. apply andb_true_iff in H. destruct H as [Hc Hs].
  apply negb_true_iff in Hc. cbn [last_dot]. rewrite (IH Hs), Hc. reflexivity.
Qed.

Lemma last_dot_extension : forall y ext,
  forallb (fun c => negb (c =? 46)%N) ext = true ->
  last_dot (y ++ 46%N :: ext) = Some (y, ext).
Proof.
  induction y as [|c y IH]; intros ext H.
  - cbn [app last_dot]. rewrite (last_dot_none ext H). reflexivity.
  - cbn [app last_dot]. rewrite (IH ext H). reflexivity.
Qed.

(** The suffix of a path whose name ends in [<stem>.<ext>]: a stem that is
    not empty, an extension that is not empty and holds no dot, and no
    slash in either. *)
Lemma path_suffix_extension : forall x stem ext,
  stem <> [] -> ext <> [] ->
  forallb (fun c => negb (c =? 47)%N) stem = true ->
  forallb (fun c => negb (c =? 47)%N) ext = true ->
  forallb (fun c => negb (c =? 46)%N) ext = true ->
  path_suffix (x ++ stem ++ 46%N :: ext) = 46%N :: ext.
Proof.
  intros x stem ext Hstem Hext Hs1 Hs2 Hdot. unfold path_suffix.
  rewrite path_name_app.
  - rewrite app_assoc, (last_dot_extension _ ext Hdot).
    destruct (path_name x ++ stem) as [|c r] eqn:E.
    + apply app_eq_nil in E. destruct E. contradiction.
    + destruct ext; [contradiction | reflexivity].
  - rewrite forallb_app. cbn [forallb]. rewrite Hs1, Hs2. reflexivity.
Qed.

(** ** Loading *)

(** The entry is one that [load_documents] loads. *)
Definition selected (entry : fs_entry) : bool :=
  is_file entry && str_in (lower (path_suffix (entry_path entry))) supported_extensions.

(** The loader that [_load_single_document] builds for a path with a
    supported extension. *)
Definition loader_for (file_path : pystr) : file_loader :=
  let suffix := lower (path_suffix file_path) in
  if pystr_eqb suffix (py ".pdf") then PyMuPDFLoader file_path
  else if pystr_eqb suffix (py ".md") then UnstructuredMarkdownLoader file_path
  else if pystr_eqb suffix (py ".txt") then TextLoader file_path
  else JSONLoader file_path.

Definition load_events (t : list event) : list file_loader :=
  flat_map (fun ev => match ev with
                      | EvLoad l => [l]
                      | _ => []
                      end) t.

Section World.

Variable path_mkdir : pystr -> option exn.
Variable splitter_check : Z -> Z -> option exn.
Variable path_exists : pystr -> bool.
Variable rglob : pystr -> list fs_entry.
Variable loader_load : file_loader -> outcome (list Document).
Variable split_text : splitter -> pystr -> list pystr.
Variable chroma_from_documents :
  list Document -> option Embedding -> pystr -> pystr -> outcome Chroma.
Variable chroma_persist : Chroma -> option exn.
(** [os.environ[name]] after [load_dotenv()]; [None] when the variable is
    not set *)
Variable os_environ : pystr -> option pystr.
(** What the constructor of the third-party embedding function makes of
    the address and the key (the validation of its fields): [None] when it
    accepts them. *)
Variable embeddings_check : pystr -> pystr -> option exn.
(** [bool(vector_db)], as the class of the vector store defines it *)
Variable chroma_bool : Chroma -> outcome bool.
(** [vector_db._collection.count()] *)
Variable collection_count : Chroma -> outcome nat.
(** What writing a line to the standard output does *)
Variable stdout_write : pystr -> option exn.

Abbreviation say := (@print event stdout_write).
Abbreviation quiet := (quiet stdout_write).

Abbreviation init := (VectorIndex.init path_mkdir splitter_check).
Abbreviation main_loader := (VectorIndex.main_loader path_mkdir splitter_check).
Abbreviation split_documents := (VectorIndex.split_documents split_text).
Abbreviation load_single_document :=
  (VectorIndex.load_single_document loader_load split_text).
Abbreviation load_entry := (VectorIndex.load_entry loader_load split_text).
Abbreviation load_entries := (VectorIndex.load_entries loader_load split_text).
Abbreviation load_documents :=
  (VectorIndex.load_documents path_exists rglob loader_load split_text).
Abbreviation create_vector_db :=
  (VectorIndex.create_vector_db path_exists rglob loader_load split_text
     chroma_from_documents chroma_persist).

(** [os.environ[name]] *)
Definition environ_subscript (name : pystr) : M event pystr :=
  match os_environ name with
  | Some v => ret v
  | None => raise (mkExn KeyError name)
  end.

(** [OpenAIEmbeddings(openai_api_base=..., openai_api_key=...)] *)
Definition new_embeddings (url key : pystr) : M event Embedding :=
  match embeddings_check url key with
  | Some e => raise e
  | None => ret (OpenAIEmbeddings url key)
  end.

(** [_get_llm_embedding]; without a [return] the method gives [None]. *)
Definition get_llm_embedding (embedding_name : pystr) : M event (option Embedding) :=
  OPENAI_URL <- environ_subscript (py "OPENAI_API_BASE") ;;
  OPENAI_KEY <- environ_subscript (py "OPENAI_API_KEY") ;;
  if pystr_eqb embedding_name (py "openai")
  then embeddings <- new_embeddings OPENAI_URL OPENAI_KEY ;; ret (Some embeddings)
  else ret None.

Definition lift {A : Type} (o : outcome A) : M event A :=
  match o with
  | Returned a => ret a
  | Raised e => raise e
  end.

(** The report at the end of [main()]. *)
Definition report (vector_db : Chroma) : M (output event) unit :=
  truth <- did (lift (chroma_bool vector_db)) ;;
  if truth : bool then
    say (py "知识库向量数据库创建成功!") ;;;
    count <- did (lift (collection_count vector_db)) ;;
    say (py "文档片段数量: " ++ str_nat count)
  else say (py "知识库向量数据库创建失败!").

(** [main()] of the index builder. *)
Definition main : M (output event) unit :=
  try_except
    (loader <- did main_loader ;;
     embeddings <- did (get_llm_embedding (py "openai")) ;;
     vector_db <- did (create_vector_db loader embeddings (py "knowledge_db")) ;;
     report vector_db)
    any_exception
    (fun e => say (py "错误: " ++ str_exn e) ;;; ret tt).

(** The chunks that one entry of the directory contributes. *)
Definition entry_docs (self : loader) (entry : fs_entry) : list Document :=
  if selected entry then
    match loader_load (loader_for (entry_path entry)) with
    | Returned documents =>
      map (tag_source (entry_path entry)) (split_documents (text_splitter self) documents)
    | Raised _ => []
    end
  else [].

Lemma str_in_supported : forall s,
  str_in s supported_extensions
  = pystr_eqb s (py ".pdf") || pystr_eqb s (py ".md") || pystr_eqb s (py ".txt")
    || pystr_eqb s (py ".json").
Proof.
  intro s. unfold str_in, supported_extensions. cbn [existsb].
  rewrite orb_false_r, !orb_assoc. reflexivity.
Qed.

Lemma load_single_document_eq : forall self file_path,
  load_single_document self file_path
  = if str_in (lower (path_suffix file_path)) supported_extensions
    then match loader_load (loader_for file_path) with
         | Returned documents =>
           (Ok (map (tag_source file_path)
                  (split_documents (text_splitter self) documents)),
            [EvLoad (loader_for file_path)])
         | Raised e => (Raise e, [EvLoad (loader_for file_path)])
         end
    else (Raise (mkExn ValueError (py "不支持的文件格式: " ++ path_suffix file_path)), []).
Proof.
  intros self file_path. rewrite str_in_supported.
  unfold VectorIndex.load_single_document, loader_for.
  destruct (pystr_eqb (lower (path_suffix file_path)) (py ".pdf")); cbn [orb bind ret];
    [destruct (loader_load _); reflexivity|].
  destruct (pystr_eqb (lower (path_suffix file_path)) (py ".md")); cbn [orb bind ret];
    [destruct (loader_load _); reflexivity|].
  destruct (pystr_eqb (lower (path_suffix file_path)) (py ".txt")); cbn [orb bind ret];
    [destruct (loader_load _); reflexivity|].
  destruct (pystr_eqb (lower (path_suffix file_path)) (py ".json")); cbn [orb bind ret];
    [destruct (loader_load _); reflexivity|].
  reflexivity.
Qed.

(** X19. [_load_single_document] chooses the loader by the extension of the
    file, compared without regard to letter case: PyMuPDFLoader for .pdf,
    UnstructuredMarkdownLoader for .md, TextLoader for .txt, JSONLoader
    for .json. For such a file it returns the chunks of what the loader
    returns, or raises what the loader raises. For any other extension it
    raises [ValueError] with the extension as written, and builds no
    loader. *)
Theorem load_single_document_by_extension :
  forall (self : loader) (file_path : pystr),
    (str_in (lower (path_suffix file_path)) supported_extensions = false ->
     load_single_document self file_path
     = (Raise (mkExn ValueError (py "不支持的文件格式: " ++ path_suffix file_path)), []))
    /\ (str_in (lower (path_suffix file_path)) supported_extensions = true ->
        load_single_document self file_path
        = match loader_load (loader_for file_path) with
          | Returned documents =>
            (Ok (map (tag_source file_path)
                   (split_documents (text_splitter self) documents)),
             [EvLoad (loader_for file_path)])
          | Raised e => (Raise e, [EvLoad (loader_for file_path)])
          end)
    /\ (lower (path_suffix file_path) = py ".pdf" ->
        loader_for file_path = PyMuPDFLoader file_path)
    /\ (lower (path_suffix file_path) = py ".md" ->
        loader_for file_path = UnstructuredMarkdownLoader file_path)
    /\ (lower (path_suffix file_path) = py ".txt" ->
        loader_for file_path = TextLoader file_path)
    /\ (lower (path_suffix file_path) = py ".json" ->
        loader_for file_path = JSONLoader file_path)
    /\ (forall x stem ext,
          file_path = x ++ stem ++ 46%N :: ext ->
          stem <> [] -> ext <> [] ->
          forallb (fun c => negb (c =? 47)%N) stem = true ->
          forallb (fun c => negb (c =? 47)%N) ext = true ->
          forallb (fun c => negb (c =? 46)%N) ext = true ->
          lower (path_suffix file_path) = 46%N :: lower ext).
Proof.
  intros self file_path. rewrite load_single_document_eq.
  split; [intros ->; reflexivity|]. split; [intros ->; reflexivity|].
  unfold loader_for.
  split; [intros ->; reflexivity|]. split; [intros ->; reflexivity|].
  split; [intros ->; reflexivity|]. split; [intros ->; reflexivity|].
  intros x stem ext -> Hstem Hext H1 H2 H3.
  rewrite (path_suffix_extension x stem ext Hstem Hext H1 H2 H3). reflexivity.
Qed.

Lemma load_entry_eq : forall self documents entry,
  load_entry self documents entry
  = (Ok (documents ++ entry_docs self entry),
     if selected entry then [EvLoad (loader_for (entry_path entry))] else []).
Proof.
  intros self documents entry. unfold VectorIndex.load_entry, entry_docs, selected.
  destruct (is_file entry); cbn [andb]; [| rewrite app_nil_r; reflexivity].
  destruct (str_in (lower (path_suffix (entry_path entry))) supported_extensions) eqn:E;
    [| rewrite app_nil_r; reflexivity].
  rewrite load_single_document_eq, E.
  destruct (loader_load (loader_for (entry_path entry))); cbn; [reflexivity|].
  rewrite app_nil_r. reflexivity.
Qed.

Lemma load_entries_eq : forall self entries documents,
  load_entries self documents entries
  = (Ok (documents ++ flat_map (entry_docs self) entries),
     map (fun entry => EvLoad (loader_for (entry_path entry))) (filter selected entries)).
Proof.
  intros self entries. induction entries as [|entry rest IH]; intro documents.
  - cbn. rewrite app_nil_r. reflexivity.
  - cbn [VectorIndex.load_entries flat_map filter]. rewrite load_entry_eq. cbn [bind].
    rewrite IH, app_assoc. destruct (selected entry); reflexivity.
Qed.

Lemma load_documents_eq : forall self,
  load_documents self
  = if path_exists (docs_path self)
    then (Ok (flat_map (entry_docs self) (rglob (docs_path self))),
          map (fun entry => EvLoad (loader_for (entry_path entry)))
            (filter selected (rglob (docs_path self))))
    else (Ok [], []).
Proof.
  intro self. unfold VectorIndex.load_documents.
  destruct (path_exists (docs_path self)); [| reflexivity].
  apply load_entries_eq.
Qed.

(** X21. Every chunk that [load_documents] returns carries, under the key
    [source], the path of the file it was cut from, a file of the listing
    with a supported extension; its text is one of the pieces into which
    the splitter cut a document of that file, and every other key of its
    metadata is the one the loader gave to that document. *)
Theorem chunks_carry_their_source :
  forall (self : loader) (chunk : Document),
    In chunk (match fst (load_documents self) with
              | Ok documents => documents
              | _ => []
              end) ->
    exists entry documents document,
      In entry (rglob (docs_path self))
      /\ selected entry = true
      /\ loader_load (loader_for (entry_path entry)) = Returned documents
      /\ In document documents
      /\ In (page_content chunk) (split_text (text_splitter self) (page_content document))
      /\ dict_get (doc_metadata chunk) (py "source") = Some (JStr (entry_path entry))
      /\ (forall k, k <> py "source" ->
                    dict_get (doc_metadata chunk) k = dict_get (doc_metadata document) k).
Proof.
  intros self chunk Hin. rewrite load_documents_eq in Hin.
  destruct (path_exists (docs_path self)); cbn [fst] in Hin; [| destruct Hin].
  apply in_flat_map in Hin. destruct Hin as (entry & Hentry & Hin).
  unfold entry_docs in Hin.
  destruct (selected entry) eqn:Hsel; [| destruct Hin].
  destruct (loader_load (loader_for (entry_path entry))) as [documents | e] eqn:Hload;
    [| destruct Hin].
  apply in_map_iff in Hin. destruct Hin as (piece & <- & Hpiece).
  unfold VectorIndex.split_documents in Hpiece.
  apply in_flat_map in Hpiece. destruct Hpiece as (document & Hdoc & Hpiece).
  apply in_map_iff in Hpiece. destruct Hpiece as (text & <- & Htext).
  exists entry, documents, document.
  cbn [tag_source page_content doc_metadata].
  split; [exact Hentry|]. split; [exact Hsel|]. split; [exact Hload|].
  split; [exact Hdoc|]. split; [exact Htext|].
  split.
  - rewrite Collector.dict_get_set, pystr_eqb_refl. reflexivity.
  - intros k Hk. rewrite Collector.dict_get_set.
    destruct (pystr_eqb (py "source") k) eqn:E; [| reflexivity].
    apply pystr_eqb_eq in E. congruence.
Qed.

(** ** The embedding function and [main] *)

(** X22. [_get_llm_embedding] reads OPENAI_API_BASE and then OPENAI_API_KEY
    from the environment before it looks at the name of the embedding: a
    variable that is not set raises [KeyError] with its name, also for a
    name other than [openai]. With both set (a value may be empty), for a
    name other than [openai] it returns [None] and constructs nothing; for
    [openai] it calls the constructor of the OpenAI embedding function with
    the two values: what the constructor raises is raised, and otherwise
    the embedding function of these two values is returned. *)
Theorem get_llm_embedding_environment :
  forall embedding_name : pystr,
    (os_environ (py "OPENAI_API_BASE") = None ->
     get_llm_embedding embedding_name
     = (Raise (mkExn KeyError (py "OPENAI_API_BASE")), []))
    /\ (forall url,
          os_environ (py "OPENAI_API_BASE") = Some url ->
          os_environ (py "OPENAI_API_KEY") = None ->
          get_llm_embedding embedding_name
          = (Raise (mkExn KeyError (py "OPENAI_API_KEY")), []))
    /\ (forall url key,
          os_environ (py "OPENAI_API_BASE") = Some url ->
          os_environ (py "OPENAI_API_KEY") = Some key ->
          get_llm_embedding embedding_name
          = (if pystr_eqb embedding_name (py "openai")
             then match embeddings_check url key with
                  | None => Ok (Some (OpenAIEmbeddings url key))
                  | Some e => Raise e
                  end
             else Ok None, [])).
Proof.
  intro embedding_name. unfold get_llm_embedding, environ_subscript, new_embeddings.
  split; [intros ->; reflexivity|]. split.
  - intros url -> ->. reflexivity.
  - intros url key -> ->. cbn [bind ret].
    destruct (pystr_eqb embedding_name (py "openai")); [| reflexivity].
    destruct (embeddings_check url key); reflexivity.
Qed.

(** No embedding function: a variable is not set, or the constructor
    refuses the values. *)
Definition no_embedding (e : exn) : Prop :=
  (os_environ (py "OPENAI_API_BASE") = None /\ e = mkExn KeyError (py "OPENAI_API_BASE"))
  \/ (exists url,
        os_environ (py "OPENAI_API_BASE") = Some url
        /\ os_environ (py "OPENAI_API_KEY") = None
        /\ e = mkExn KeyError (py "OPENAI_API_KEY"))
  \/ (exists url key,
        os_environ (py "OPENAI_API_BASE") = Some url
        /\ os_environ (py "OPENAI_API_KEY") = Some key
        /\ embeddings_check url key = Some e).

Lemma get_llm_embedding_raises : forall e,
  no_embedding e -> get_llm_embedding (py "openai") = (Raise e, []).
Proof.
  intros e H. unfold get_llm_embedding, environ_subscript, new_embeddings.
  destruct H as [(-> & ->) | [(url & -> & -> & ->) | (url & key & -> & -> & Hc)]];
    try reflexivity.
  cbn [bind ret]. rewrite pystr_eqb_refl, Hc. reflexivity.
Qed.

Lemma get_llm_embedding_returns : forall url key,
  os_environ (py "OPENAI_API_BASE") = Some url ->
  os_environ (py "OPENAI_API_KEY") = Some key ->
  embeddings_check url key = None ->
  get_llm_embedding (py "openai") = (Ok (Some (OpenAIEmbeddings url key)), []).
Proof.
  intros url key Hurl Hkey Hc.
  unfold get_llm_embedding, environ_subscript, new_embeddings. rewrite Hurl, Hkey.
  cbn [bind ret]. rewrite pystr_eqb_refl, Hc. reflexivity.
Qed.

Lemma create_vector_db_finishes : forall self embedding_function collection_name,
  fst (create_vector_db self embedding_function collection_name) <> NoFuel.
Proof.
  intros self embedding_function collection_name.
  unfold VectorIndex.create_vector_db. rewrite load_documents_eq.
  destruct (path_exists (docs_path self)); cbn [bind]; [| discriminate].
  destruct (flat_map (entry_docs self) (rglob (docs_path self))) as [|d documents];
    [discriminate|].
  destruct (chroma_from_documents _ _ _ _) as [db | e]; cbn; [| discriminate].
  destruct (chroma_persist db); discriminate.
Qed.

(** The lines of the report, for a standard output that takes them. *)
Definition report_lines (vector_db : Chroma) : list pystr :=
  match chroma_bool vector_db with
  | Returned true =>
    py "知识库向量数据库创建成功!"
    :: match collection_count vector_db with
       | Returned count => [py "文档片段数量: " ++ str_nat count]
       | Raised e => [py "错误: " ++ str_exn e]
       end
  | Returned false => [py "知识库向量数据库创建失败!"]
  | Raised e => [py "错误: " ++ str_exn e]
  end.

(** X23. The only exception that leaves [main] of the index builder is one
    raised by the [print] of its handler: the trace then ends with the line
    that the standard output refused, and with a standard output that takes
    every line [main] never raises. [main] creates the directory
    [vector_db/chroma] first; when a variable of the embedding function is
    not set or the constructor of the embedding function refuses the
    values, it prints the error and stops there, before any document is
    loaded. With both variables set and accepted it builds the collection
    [knowledge_db] from the documents under [knowledge_db/readme_summary],
    with the OpenAI embedding function of these variables, and these are
    all its calls; an exception of the build is printed by the handler,
    and after a build the lines of the report are printed. *)
Theorem index_main_run :
  raised_by_print stdout_write main
  /\ (quiet -> forall e, fst main <> Raise e)
  /\ (forall self t,
        main_loader = (Ok self, t) ->
        t = [EvMkdir (py "vector_db/chroma")]
        /\ docs_path self = py "knowledge_db/readme_summary"
        /\ persist_path self = py "vector_db/chroma"
        /\ (forall e,
              no_embedding e ->
              main
              = (match stdout_write (py "错误: " ++ str_exn e) with
                 | None => Ok tt
                 | Some e' => Raise e'
                 end,
                 [Did (EvMkdir (py "vector_db/chroma"));
                  Printed (py "错误: " ++ str_exn e)]))
        /\ (forall url key,
              os_environ (py "OPENAI_API_BASE") = Some url ->
              os_environ (py "OPENAI_API_KEY") = Some key ->
              embeddings_check url key = None ->
              calls (snd main)
              = t ++ snd (create_vector_db self (Some (OpenAIEmbeddings url key))
                            (py "knowledge_db"))
              /\ (forall e t',
                    create_vector_db self (Some (OpenAIEmbeddings url key))
                      (py "knowledge_db")
                    = (Raise e, t') ->
                    main
                    = (match stdout_write (py "错误: " ++ str_exn e) with
                       | None => Ok tt
                       | Some e' => Raise e'
                       end,
                       map Did (t ++ t') ++ [Printed (py "错误: " ++ str_exn e)]))
              /\ (forall db t',
                    create_vector_db self (Some (OpenAIEmbeddings url key))
                      (py "knowledge_db")
                    = (Ok db, t') ->
                    quiet ->
                    fst main = Ok tt /\ printed (snd main) = report_lines db))).
Proof.
  assert (Hprint : raised_by_print stdout_write main).
  { unfold main. apply raised_by_print_try. intro e.
    apply raised_by_print_bind;
      [apply raised_by_print_print | intros _; apply raised_by_print_ret]. }
  split; [exact Hprint|].
  split; [intro Hq; exact (raised_by_print_quiet stdout_write _ _ Hq Hprint)|].
  intros self t Hmain.
  assert (Hshape : t = [EvMkdir (py "vector_db/chroma")]
                   /\ docs_path self = py "knowledge_db/readme_summary"
                   /\ persist_path self = py "vector_db/chroma").
  { unfold VectorIndex.main_loader, VectorIndex.init, new_splitter in Hmain.
    destruct (path_mkdir _); [discriminate|]. cbn [unit_outcome call bind] in Hmain.
    destruct (splitter_check _ _); [discriminate|]. cbn in Hmain.
    inversion Hmain; subst. repeat split. }
  destruct Hshape as (Ht & Hdocs & Hpersist).
  split; [exact Ht|]. split; [exact Hdocs|]. split; [exact Hpersist|]. split.
  - intros e He. pose proof (get_llm_embedding_raises e He) as Hemb.
    apply pair_split; unfold main; run_step; rewrite Hmain; run_step;
      rewrite Hemb; run_step; rewrite ?print_fst; subst t;
      destruct (stdout_write _); reflexivity.
  - intros url key Hurl Hkey Hc.
    pose proof (get_llm_embedding_returns url key Hurl Hkey Hc) as Hemb.
    pose proof (create_vector_db_finishes self (Some (OpenAIEmbeddings url key))
                  (py "knowledge_db")) as Hfin.
    split; [| split].
    + unfold main. run_step. rewrite Hmain. run_step. rewrite Hemb. run_step.
      destruct (create_vector_db self (Some (OpenAIEmbeddings url key)) (py "knowledge_db"))
        as [[db | e |] t'] eqn:Hdb; cbn [fst snd] in *; [| | congruence].
      * unfold report. run_step.
        destruct (chroma_bool db) as [[|] | e]; cbn [lift ret raise fst snd]; run_step;
          try destruct (collection_count db) as [count | e]; cbn [lift ret raise fst snd];
          repeat (rewrite ?print_fst;
                  match goal with
                  | |- context [stdout_write ?x] => destruct (stdout_write x)
                  end; run_step);
          cbn [map app]; rewrite ?app_nil_r, ?calls_app, ?calls_did; cbn [calls flat_map app];
          rewrite ?app_nil_r; reflexivity.
      * run_step. rewrite ?print_fst.
        destruct (stdout_write _); cbn [map app];
          rewrite ?app_nil_r, ?calls_app, ?calls_did; cbn [calls flat_map app];
          rewrite ?app_nil_r; reflexivity.
    + intros e t' Hdb.
      apply pair_split; unfold main; run_step; rewrite Hmain; run_step;
        rewrite Hemb; run_step; rewrite Hdb; run_step; rewrite ?print_fst.
      * destruct (stdout_write _); reflexivity.
      * rewrite map_app, <- !app_assoc. destruct (stdout_write _); reflexivity.
    + intros db t' Hdb Hq.
      split; unfold main; run_step; rewrite Hmain; run_step;
        rewrite Hemb; run_step; rewrite Hdb; run_step; unfold report, report_lines;
        run_step;
        destruct (chroma_bool db) as [[|] | e]; cbn [lift ret raise fst snd]; run_step;
        try destruct (collection_count db) as [count | e]; cbn [lift ret raise fst snd];
        run_step; rewrite ?print_fst_quiet by apply Hq; run_step;
        rewrite ?print_fst_quiet by apply Hq; run_step;
        try reflexivity;
        rewrite ?printed_app, ?printed_did; reflexivity.
Qed.

End World.

(** ** Concrete worlds *)

(** A directory with one text file, one file without a supported
    extension and one sub-directory. *)
Definition demo_rglob (path : pystr) : list fs_entry :=
  [{| entry_path := py "docs/notes"; is_file := false |};
   {| entry_path := py "docs/a.TXT"; is_file := true |};
   {| entry_path := py "docs/b.docx"; is_file := true |}].

Definition demo_chunk : Document :=
  {| page_content := py "ab cd ef ";
     doc_metadata := [(py "source", JStr (py "docs/a.TXT"))] |}.

Lemma chunks_carry_their_source_witness :
  exists document,
    demo_load (TextLoader (py "docs/a.TXT")) = Returned [document]
    /\ In (page_content demo_chunk)
          (spec_split_text (text_splitter small_loader) (page_content document))
    /\ dict_get (doc_metadata demo_chunk) (py "source") = Some (JStr (py "docs/a.TXT")).
Proof.
  destruct (chunks_carry_their_source (fun _ => true) demo_rglob demo_load spec_split_text
              small_loader demo_chunk)
    as (entry & documents & document & Hentry & Hsel & Hload & Hdoc & Htext & Hsrc & _).
  - vm_compute. left. reflexivity.
  - exists document.
    destruct Hentry as [<- | [<- | [<- | []]]]; try discriminate.
    cbn in Hload. inversion Hload; subst documents.
    destruct Hdoc as [<- | []].
    split; [reflexivity|]. split; [exact Htext | exact Hsrc].
Defined.

(** Both variables are set, the key to the empty string, which the
    constructor of the embedding function refuses: [main] prints the error
    and loads nothing. *)
Definition empty_key_environ (name : pystr) : option pystr :=
  if pystr_eqb name (py "OPENAI_API_BASE") then Some (py "https://api.example.com/v1")
  else if pystr_eqb name (py "OPENAI_API_KEY") then Some []
  else None.

Definition key_refused : exn := mkExn ValueError (py "Did not find openai_api_key").

Definition needs_key (url key : pystr) : option exn :=
  match key with
  | [] => Some key_refused
  | _ => None
  end.

Example index_main_empty_key :
  main demo_mkdir (fun _ _ => None) (fun _ => true) demo_rglob demo_load spec_split_text
    (fun _ _ _ _ => Raised key_refused) (fun _ => None) empty_key_environ needs_key
    (fun _ => Returned true) (fun _ => Returned 0) (fun _ => None)
  = (Ok tt,
     [Did (EvMkdir (py "vector_db/chroma"));
      Printed (py "错误: Did not find openai_api_key")]).
Proof. vm_compute. reflexivity. Qed.

Example load_documents_demo :
  snd (load_documents (fun _ => true) demo_rglob demo_load spec_split_text small_loader)
  = [EvLoad (TextLoader (py "docs/a.TXT"))].
Proof. reflexivity. Qed.

End IndexRun.

(** * The scan of the document directory, on a file system whose calls may fail *)

Module IndexFiles.
Import VectorIndex.

Section World.

(** [Path.exists()]: the answer, or the exception of the file system *)
Variable path_exists : pystr -> outcome bool.
(** [Path.rglob("*")]: the paths that the walk yields, and the exception
    that ends the walk, if one does *)
Variable rglob : pystr -> list pystr * option exn.
(** [Path.is_file()] *)
Variable path_is_file : pystr -> outcome bool.
(** [loader.load()] *)
Variable loader_load : file_loader -> outcome (list Document).
(** [text_splitter.split_text(text)] of the third-party splitter *)
Variable split_text : splitter -> pystr -> list pystr.

Abbreviation split_documents := (VectorIndex.split_documents split_text).
Abbreviation load_single_document :=
  (VectorIndex.load_single_document loader_load split_text).
Abbreviation loader_for := IndexRun.loader_for.

Definition lift {A : Type} (o : outcome A) : M event A :=
  match o with
  | Returned a => ret a
  | Raised e => raise e
  end.

(** One turn of the loop of [load_documents]: [is_file()] is asked outside
    the [try] statement. *)
Definition load_entry (self : loader) (documents : list Document) (file_path : pystr)
  : M event (list Document) :=
  is_file <- lift (path_is_file file_path) ;;
  if (is_file : bool) && str_in (lower (path_suffix file_path)) supported_extensions
  then
    try_except
      (docs <- load_single_document self file_path ;;
       ret (documents ++ docs))
      any_exception
      (fun _ => ret documents)
  else ret documents.

(** The loop over the walk; [walk_end] is the exception that ends the
    walk after the paths it yielded. *)
Fixpoint load_entries (self : loader) (documents : list Document)
  (entries : list pystr) (walk_end : option exn) : M event (list Document) :=
  match entries with
  | [] =>
    match walk_end with
    | None => ret documents
    | Some e => raise e
    end
  | file_path :: rest =>
    documents' <- load_entry self documents file_path ;;
    load_entries self documents' rest walk_end
  end.

Definition load_documents (self : loader) : M event (list Document) :=
  found <- lift (path_exists (docs_path self)) ;;
  if found : bool
  then load_entries self [] (fst (rglob (docs_path self))) (snd (rglob (docs_path self)))
  else ret [].

(** A path of the walk for which a loader is called: a file with a
    supported extension. *)
Definition selected (file_path : pystr) : bool :=
  match path_is_file file_path with
  | Returned true => str_in (lower (path_suffix file_path)) supported_extensions
  | _ => false
  end.

(** The chunks that one path of the walk contributes. *)
Definition entry_docs (self : loader) (file_path : pystr) : list Document :=
  if selected file_path then
    match loader_load (loader_for file_path) with
    | Returned documents =>
      map (tag_source file_path) (split_documents (text_splitter self) documents)
    | Raised _ => []
    end
  else [].

(** [is_file()] answers for every path. *)
Definition answered (entries : list pystr) : Prop :=
  Forall (fun file_path => exists answer, path_is_file file_path = Returned answer) entries.

Definition loads (entries : list pystr) : list event :=
  map (fun file_path => EvLoad (loader_for file_path)) (filter selected entries).

Lemma scan_entry_eq : forall self documents file_path,
  load_entry self documents file_path
  = match path_is_file file_path with
    | Returned _ =>
      (Ok (documents ++ entry_docs self file_path),
       if selected file_path then [EvLoad (loader_for file_path)] else [])
    | Raised e => (Raise e, [])
    end.
Proof.
  intros self documents file_path. unfold load_entry, entry_docs, selected.
  destruct (path_is_file file_path) as [[|] | e]; cbn [lift bind ret raise andb app];
    [| rewrite app_nil_r; reflexivity | reflexivity].
  destruct (str_in (lower (path_suffix file_path)) supported_extensions) eqn:E;
    [| rewrite app_nil_r; reflexivity].
  rewrite IndexRun.load_single_document_eq, E.
  destruct (loader_load (loader_for file_path)); cbn; [reflexivity|].
  rewrite app_nil_r. reflexivity.
Qed.

Lemma scan_entries_eq : forall self entries walk_end documents,
  answered entries ->
  load_entries self documents entries walk_end
  = (match walk_end with
     | None => Ok (documents ++ flat_map (entry_docs self) entries)
     | Some e => Raise e
     end, loads entries).
Proof.
  intros self entries walk_end. induction entries as [|file_path rest IH];
    intros documents Hall.
  - cbn. rewrite app_nil_r. destruct walk_end; reflexivity.
  - inversion Hall as [|? ? (answer & Hans) Hrest]; subst.
    unfold loads. cbn [load_entries flat_map filter]. rewrite scan_entry_eq, Hans.
    cbn [bind]. rewrite (IH _ Hrest), app_assoc. unfold loads.
    destruct walk_end; destruct (selected file_path); reflexivity.
Qed.

Lemma scan_entries_raises : forall self before file_path after walk_end e documents,
  answered before ->
  path_is_file file_path = Raised e ->
  load_entries self documents (before ++ file_path :: after) walk_end
  = (Raise e, loads before).
Proof.
  intros self before file_path after walk_end e.
  induction before as [|d before IH]; intros documents Hall Hraise.
  - cbn [app load_entries]. rewrite scan_entry_eq, Hraise. reflexivity.
  - inversion Hall as [|? ? (answer & Hans) Hrest]; subst.
    unfold loads. cbn [app load_entries filter]. rewrite scan_entry_eq, Hans.
    cbn [bind]. rewrite (IH _ Hrest Hraise). unfold loads.
    destruct (selected d); reflexivity.
Qed.

(** X20. [load_documents] when the calls of the file system ([exists()],
    the walk of [rglob("*")], [is_file()]) may fail; they are made outside
    the [try] statement, so an exception of one of them ends the scan and
    is raised, the chunks loaded by then being lost. When the document
    directory does not exist the result is the empty list and nothing is
    listed. When [is_file()] answers for every path of the walk, a loader is
    called for exactly the paths that are files with a supported
    extension, in the order of the walk; a file whose loader raises
    contributes nothing and the files after it are still loaded; when the
    walk ends normally the result holds the chunks of the files that could
    be loaded, in that order. The [ValueError] for an unsupported format
    never arises here. On a file system whose calls all return, this is
    the function [VectorIndex.load_documents]. *)
Theorem load_documents_selects :
  forall self : loader,
    (path_exists (docs_path self) = Returned false -> load_documents self = (Ok [], []))
    /\ (forall e, path_exists (docs_path self) = Raised e ->
                  load_documents self = (Raise e, []))
    /\ (forall entries walk_end,
          path_exists (docs_path self) = Returned true ->
          rglob (docs_path self) = (entries, walk_end) ->
          answered entries ->
          load_documents self
          = (match walk_end with
             | None => Ok (flat_map (entry_docs self) entries)
             | Some e => Raise e
             end, loads entries))
    /\ (forall before file_path after walk_end e,
          path_exists (docs_path self) = Returned true ->
          rglob (docs_path self) = (before ++ file_path :: after, walk_end) ->
          answered before ->
          path_is_file file_path = Raised e ->
          load_documents self = (Raise e, loads before))
    /\ (forall file_path,
          selected file_path = false
          \/ (exists e, loader_load (loader_for file_path) = Raised e) ->
          entry_docs self file_path = [])
    /\ (forall file_path documents,
          selected file_path = true ->
          loader_load (loader_for file_path) = Returned documents ->
          entry_docs self file_path
          = map (tag_source file_path) (split_documents (text_splitter self) documents))
    /\ (forall (exists_answer : pystr -> bool) (listing : pystr -> list fs_entry),
          path_exists (docs_path self) = Returned (exists_answer (docs_path self)) ->
          rglob (docs_path self) = (map entry_path (listing (docs_path self)), None) ->
          (forall entry, In entry (listing (docs_path self)) ->
                         path_is_file (entry_path entry) = Returned (is_file entry)) ->
          load_documents self
          = VectorIndex.load_documents exists_answer listing loader_load split_text self).
Proof.
  intro self. split; [| split; [| split; [| split; [| split; [| split]]]]].
  - intro H. unfold load_documents. rewrite H. reflexivity.
  - intros e H. unfold load_documents. rewrite H. reflexivity.
  - intros entries walk_end Hx Hl Hall. unfold load_documents. rewrite Hx, Hl.
    cbn [lift bind ret fst snd]. rewrite (scan_entries_eq self entries walk_end [] Hall).
    reflexivity.
  - intros before file_path after walk_end e Hx Hl Hall Hraise.
    unfold load_documents. rewrite Hx, Hl. cbn [lift bind ret fst snd].
    rewrite (scan_entries_raises self before file_path after walk_end e [] Hall Hraise).
    reflexivity.
  - intros file_path [H | (e & H)]; unfold entry_docs; rewrite H; [reflexivity|].
    destruct (selected file_path); reflexivity.
  - intros file_path documents Hsel Hload. unfold entry_docs. rewrite Hsel, Hload.
    reflexivity.
  - intros exists_answer listing Hx Hl Hfile.
    unfold load_documents, VectorIndex.load_documents. rewrite Hx, Hl.
    cbn [lift fst snd]. rewrite bind_ret.
    destruct (exists_answer (docs_path self)); [| reflexivity].
    clear Hx Hl. revert Hfile. generalize (@nil Document).
    induction (listing (docs_path self)) as [|entry rest IH]; intros documents Hfile;
      [reflexivity|].
    cbn [map load_entries VectorIndex.load_entries].
    assert (Hentry : load_entry self documents (entry_path entry)
                     = VectorIndex.load_entry loader_load split_text self documents entry).
    { unfold load_entry, VectorIndex.load_entry.
      rewrite (Hfile entry (or_introl eq_refl)). cbn [lift]. rewrite bind_ret.
      reflexivity. }
    rewrite Hentry.
    destruct (VectorIndex.load_entry loader_load split_text self documents entry)
      as [[documents' | e |] t]; cbn [bind]; try reflexivity.
    rewrite IH; [reflexivity|].
    intros entry' Hin. apply Hfile. right. exact Hin.
Qed.

End World.

(** A walk that yields a text file and then fails; a file system on which
    [is_file()] fails for the second path. *)
Definition walk_fails : exn := mkExn OSError (py "Input/output error").

Definition broken_walk (path : pystr) : list pystr * option exn :=
  ([py "docs/a.TXT"], Some walk_fails).

Definition two_files (path : pystr) : list pystr * option exn :=
  ([py "docs/a.TXT"; py "docs/b.txt"], None).

Definition second_unreadable (path : pystr) : outcome bool :=
  if pystr_eqb path (py "docs/b.txt") then Raised walk_fails else Returned true.

Example load_documents_broken_walk :
  load_documents (fun _ => Returned true) broken_walk (fun _ => Returned true) demo_load
    spec_split_text small_loader
  = (Raise walk_fails, [EvLoad (TextLoader (py "docs/a.TXT"))]).
Proof. vm_compute. reflexivity. Qed.

Example load_documents_is_file_fails :
  load_documents (fun _ => Returned true) two_files second_unreadable demo_load
    spec_split_text small_loader
  = (Raise walk_fails, [EvLoad (TextLoader (py "docs/a.TXT"))]).
Proof. vm_compute. reflexivity. Qed.

End IndexFiles.

(** * From one stage to the next *)

Section Pipeline.

Definition slash_free (s : pystr) : bool := forallb (fun c => negb (c =? 47)%N) s.

Lemma summary_file_shape : forall (self : Summarizer.summarizer) (name : pystr),
  exists x, Summarizer.summary_file self name = x ++ py "_summary" ++ 46%N :: py "json".
Proof.
  intros self name. unfold Summarizer.summary_file, os_path_join.
  change (name ++ py "_summary.json") with (name ++ py "_summary" ++ 46%N :: py "json").
  destruct (starts_with_char 47 _); [exists name; reflexivity|].
  destruct (Summarizer.summary_output_path self) as [|c out];
    [exists name; reflexivity|].
  destruct (ends_with_char 47 (c :: out)).
  - exists ((c :: out) ++ name). rewrite <- app_assoc. reflexivity.
  - exists ((c :: out) ++ 47%N :: name).
    rewrite <- app_assoc. reflexivity.
Qed.

(** X24. The stages hand their files to each other. For a repository with a
    plain name (not empty, no slash), the collector writes the README to
    [database/readme_db/<name>/README.md]; this is the file that the
    summarizer reads for the directory [database/readme_db/<name>], and
    the record it builds is named [<name>]. The summarizer writes the
    summary to [knowledge_db/readme_summary/<name>_summary.json], under
    the directory that [main] of the index builder loads; and whatever the
    name, the summary file has the extension [.json], so the index builder
    selects it and loads it with the JSON loader. *)
Theorem stages_hand_over_files :
  forall (collector : Collector.collector) (summarizer : Summarizer.summarizer)
         (name : pystr),
    Collector.readme_dir collector = py "database/readme_db" ->
    Summarizer.summary_output_path summarizer = py "knowledge_db/readme_summary" ->
    (name <> [] -> slash_free name = true ->
     Collector.readme_path collector name
     = os_path_join (py "database/readme_db/" ++ name) (py "README.md")
     /\ Collector.readme_path collector name
        = py "database/readme_db/" ++ name ++ py "/README.md"
     /\ VectorIndex.path_name (py "database/readme_db/" ++ name) = name
     /\ Summarizer.summary_file summarizer name
        = py "knowledge_db/readme_summary/" ++ name ++ py "_summary.json")
    /\ IndexRun.selected
         {| VectorIndex.entry_path := Summarizer.summary_file summarizer name;
            VectorIndex.is_file := true |} = true
    /\ IndexRun.loader_for (Summarizer.summary_file summarizer name)
       = VectorIndex.JSONLoader (Summarizer.summary_file summarizer name).
Proof.
  intros collector summarizer name Hdir Hout.
  assert (Hsuffix : VectorIndex.lower
                      (VectorIndex.path_suffix (Summarizer.summary_file summarizer name))
                    = py ".json").
  { destruct (summary_file_shape summarizer name) as (x & ->).
    rewrite IndexRun.path_suffix_extension; try reflexivity; discriminate. }
  split; [| split].
  - intros Hne Hplain.
    assert (Hstart : starts_with_char 47 name = false).
    { destruct name as [|c name]; [congruence|].
      unfold slash_free in Hplain. cbn [forallb] in Hplain.
      apply andb_true_iff in Hplain. destruct Hplain as [Hc _].
      apply negb_true_iff in Hc. exact Hc. }
    assert (Hend : ends_with_char 47 name = false).
    { unfold ends_with_char. destruct (rev name) as [|c r] eqn:E; [reflexivity|].
      unfold slash_free in Hplain. rewrite forallb_forall in Hplain.
      assert (Hin : In c name) by (apply in_rev; rewrite E; left; reflexivity).
      specialize (Hplain c Hin). apply negb_true_iff in Hplain. exact Hplain. }
    assert (Hrepo : os_path_join (py "database/readme_db") name
                    = py "database/readme_db/" ++ name).
    { rewrite CollectorRun.os_path_join_plain; [reflexivity | discriminate | reflexivity
                                                | exact Hstart]. }
    unfold Collector.readme_path. rewrite Hdir, Hrepo.
    split; [reflexivity|]. split; [| split].
    + rewrite CollectorRun.os_path_join_plain.
      * rewrite <- app_assoc. reflexivity.
      * discriminate.
      * change (py "database/readme_db/" ++ name)
          with ((py "database/readme_db" ++ [47%N]) ++ name).
        rewrite CollectorRun.ends_with_char_app; assumption.
      * reflexivity.
    + rewrite IndexRun.path_name_app; [reflexivity | exact Hplain].
    + unfold Summarizer.summary_file. rewrite Hout.
      rewrite CollectorRun.os_path_join_plain.
      * change (py "knowledge_db/readme_summary" ++ 47%N :: name ++ py "_summary.json")
          with (py "knowledge_db/readme_summary/" ++ name ++ py "_summary.json").
        reflexivity.
      * discriminate.
      * reflexivity.
      * destruct name as [|c name]; [congruence | exact Hstart].
  - unfold IndexRun.selected. cbn [VectorIndex.entry_path VectorIndex.is_file andb].
    rewrite Hsuffix. reflexivity.
  - unfold IndexRun.loader_for. rewrite Hsuffix. reflexivity.
Qed.

End Pipeline.

Lemma stages_hand_over_files_witness :
  Collector.readme_path Collector.demo_collector (py "llm-course")
  = py "database/readme_db/llm-course/README.md"
  /\ Summarizer.summary_file Summarizer.demo_summarizer (py "llm-course")
     = py "knowledge_db/readme_summary/llm-course_summary.json"
  /\ IndexRun.loader_for (py "knowledge_db/readme_summary/llm-course_summary.json")
     = VectorIndex.JSONLoader (py "knowledge_db/readme_summary/llm-course_summary.json").
Proof.
  assert (Hdir : Collector.readme_dir Collector.demo_collector = py "database/readme_db")
    by (vm_compute; reflexivity).
  assert (Hout : Summarizer.summary_output_path Summarizer.demo_summarizer
                 = py "knowledge_db/readme_summary") by (vm_compute; reflexivity).
  assert (Hne : py "llm-course" <> []) by (vm_compute; discriminate).
  assert (Hplain : slash_free (py "llm-course") = true) by (vm_compute; reflexivity).
  destruct (stages_hand_over_files Collector.demo_collector Summarizer.demo_summarizer
              (py "llm-course") Hdir Hout) as (H1 & _ & H3).
  destruct (H1 Hne Hplain) as (_ & H12 & _ & H14).
  split; [rewrite H12; vm_compute; reflexivity|].
  split; [rewrite H14; vm_compute; reflexivity|].
  rewrite H14 in H3.
  assert (E : (py "knowledge_db/readme_summary/" ++ py "llm-course" ++ py "_summary.json")%list
              = py "knowledge_db/readme_summary/llm-course_summary.json")
    by (vm_compute; reflexivity).
  rewrite E in H3. exact H3.
Defined.
